(** * The hybrid retrieval engine of src/rag

    A shallow embedding of [vectorDb.ts], [retriever.ts] and [hybrid.ts],
    and of the fallback retrieval of the chat page in [ZCard.tsx].

    - JavaScript strings are lists of UTF-16 code units, so that [length]
      is the [.length] of the source string.
    - JavaScript numbers are kept abstract behind the interface [Arith];
      the code is written once and read at two instances: IEEE-754
      binary64 with binary32 storage ([Double.arith], executable), and the
      real numbers ([Exact.arith], arithmetic without rounding).
    - [Map] is an insertion-ordered association list, [Set] a list.
    - A rejected promise or a thrown exception is the [Throw] completion. *)

From Stdlib Require Import String Ascii Decimal.
From Stdlib Require Import ZArith NArith List Bool Lia.
From Stdlib Require Import Reals Lra Psatz.
From Stdlib Require Import SpecFloat.
From Stdlib Require Import Permutation Sorted.
Import ListNotations.

Set Implicit Arguments.

(* ================================================================== *)
(** ** Strings *)

Module JsString.

(** A string is its sequence of UTF-16 code units. *)
Definition jsstring := list N.

Definition eqb (a b : jsstring) : bool :=
  if list_eq_dec N.eq_dec a b then true else false.

(** Decoding of the UTF-8 bytes of a literal of this file into code units
    (one- to three-byte sequences, the Basic Multilingual Plane). *)
Fixpoint utf8 (bs : list N) : jsstring :=
  match bs with
  | [] => []
  | b0 :: r0 =>
      if (b0 <? 128)%N then b0 :: utf8 r0
      else match r0 with
           | [] => []
           | b1 :: r1 =>
               if (b0 <? 224)%N
               then ((b0 - 192) * 64 + (b1 - 128))%N :: utf8 r1
               else match r1 with
                    | [] => []
                    | b2 :: r2 =>
                        ((b0 - 224) * 4096 + (b1 - 128) * 64 + (b2 - 128))%N
                          :: utf8 r2
                    end
           end
  end.

Definition js (s : string) : jsstring :=
  utf8 (map N_of_ascii (list_ascii_of_string s)).

(** Decimal digits of a natural number, as [String(n)] prints them. *)
Fixpoint digits (u : Decimal.uint) : jsstring :=
  match u with
  | Nil => []
  | D0 r => 48%N :: digits r
  | D1 r => 49%N :: digits r
  | D2 r => 50%N :: digits r
  | D3 r => 51%N :: digits r
  | D4 r => 52%N :: digits r
  | D5 r => 53%N :: digits r
  | D6 r => 54%N :: digits r
  | D7 r => 55%N :: digits r
  | D8 r => 56%N :: digits r
  | D9 r => 57%N :: digits r
  end.

Definition ofN (n : N) : jsstring := digits (N.to_uint n).

(** [String(z)] for an integer-valued number. *)
Definition ofZ (z : Z) : jsstring :=
  if (z <? 0)%Z then 45%N :: ofN (Z.to_N (- z)) else ofN (Z.to_N z).

(** [n] printed on at least [w] digits ([padStart(w, '0')]). *)
Definition padded (w : nat) (n : N) : jsstring :=
  let d := ofN n in repeat 48%N (w - length d) ++ d.

(** [lines.join(sep)] *)
Fixpoint join (sep : jsstring) (lines : list jsstring) : jsstring :=
  match lines with
  | [] => []
  | [l] => l
  | l :: rest => l ++ sep ++ join sep rest
  end.

(** The class [\s] of the regular expressions: white space and line
    terminators. *)
Definition isSpace (c : N) : bool :=
  ((9 <=? c) && (c <=? 13) || (c =? 32) || (c =? 160) || (c =? 5760)
   || (8192 <=? c) && (c <=? 8202) || (c =? 8232) || (c =? 8233)
   || (c =? 8239) || (c =? 8287) || (c =? 12288) || (c =? 65279))%N.

Arguments isSpace c : simpl never.

(** [s.split(/\s+/)]: the pieces between the maximal runs of white space;
    a string that starts (ends) with white space yields an empty first
    (last) piece, and the empty string yields one empty piece. *)
Definition consHead (c : N) (ps : list jsstring) : list jsstring :=
  match ps with
  | [] => [[c]]
  | p :: r => (c :: p) :: r
  end.

Fixpoint splitSpaces (inRun : bool) (s : jsstring) : list jsstring :=
  match s with
  | [] => [[]]
  | c :: r =>
      if isSpace c
      then if inRun then splitSpaces true r else [] :: splitSpaces true r
      else consHead c (splitSpaces false r)
  end.

(** [s.replace(/\s+/g, ' ')] *)
Fixpoint collapseSpaces (inRun : bool) (s : jsstring) : jsstring :=
  match s with
  | [] => []
  | c :: r =>
      if isSpace c
      then if inRun then collapseSpaces true r
           else 32%N :: collapseSpaces true r
      else c :: collapseSpaces false r
  end.

Fixpoint trimStart (s : jsstring) : jsstring :=
  match s with
  | [] => []
  | c :: r => if isSpace c then trimStart r else s
  end.

Definition trim (s : jsstring) : jsstring :=
  rev (trimStart (rev (trimStart s))).

End JsString.
Import JsString.

(* ================================================================== *)
(** ** Completions *)

(** The outcome of evaluating an expression or awaiting a promise. *)
Inductive Completion (A : Type) : Type :=
| Normal (a : A)
| Throw.
Arguments Normal {A} a.
Arguments Throw {A}.

Definition bind {A B} (c : Completion A) (k : A -> Completion B)
  : Completion B :=
  match c with
  | Normal a => k a
  | Throw => Throw
  end.

(** [try { body } catch { return handler }] *)
Definition tryCatch {A} (body : Completion A) (handler : A) : Completion A :=
  match body with
  | Normal a => Normal a
  | Throw => Normal handler
  end.

Declare Scope completion_scope.
Delimit Scope completion_scope with completion.
Notation "x <- c ;; k" := (bind c (fun x => k))
  (at level 61, c at next level, right associativity) : completion_scope.

(* ================================================================== *)
(** ** Numbers *)

(** The operations on numbers the three source files use. *)
Class Arith : Type := {
  num : Type;
  (** an integer literal, or an integer-valued count *)
  ofInt : Z -> num;
  add : num -> num -> num;
  sub : num -> num -> num;
  mul : num -> num -> num;
  div : num -> num -> num;
  (** [Math.sqrt] *)
  sqrt : num -> num;
  (** [Math.max] of two arguments *)
  max2 : num -> num -> num;
  (** [x < y] *)
  ltb : num -> num -> bool;
  (** [x <= y] *)
  leb : num -> num -> bool;
  (** [ToBoolean]: false on [0] and on [NaN] *)
  truthy : num -> bool;
  (** [x > -Infinity] *)
  aboveNegInfinity : num -> bool;
  (** the value read back after a store into a [Float32Array] *)
  fround : num -> num
}.

Declare Scope js_scope.
Delimit Scope js_scope with J.
Infix "+" := add : js_scope.
Infix "-" := sub : js_scope.
Infix "*" := mul : js_scope.
Infix "/" := div : js_scope.
Infix "<?" := ltb : js_scope.
Infix "<=?" := leb : js_scope.
Notation "x >? y" := (ltb y x) (only parsing) : js_scope.
Notation "x >=? y" := (leb y x) (only parsing) : js_scope.

(** The decimal literal [n/d] with [n] and [d] integers (0.6 is
    [decimal 6 10]): the correctly rounded quotient is the number the
    literal denotes. *)
Definition decimal `{Arith} (n d : Z) : num := (ofInt n / ofInt d)%J.

(** [Math.max(x, ...rest)] *)
Definition Math_max `{Arith} (x : num) (rest : list num) : num :=
  fold_left max2 rest x.

(** [Math.max(...xs, last)] *)
Definition Math_max_spread `{Arith} (xs : list num) (last : num) : num :=
  match xs with
  | [] => last
  | x :: r => Math_max x (r ++ [last])
  end.

(** *** Exact arithmetic: real numbers, no rounding, no NaN, no infinity *)
Module Exact.

Definition Rltb (x y : R) : bool := if Rlt_dec x y then true else false.
Definition Rleb (x y : R) : bool := if Rle_dec x y then true else false.
Definition Rtruthy (x : R) : bool := if Req_dec_T x 0%R then false else true.

#[export] Instance arith : Arith := {|
  num := R;
  ofInt := IZR;
  add := Rplus;
  sub := Rminus;
  mul := Rmult;
  div := Rdiv;
  sqrt := R_sqrt.sqrt;
  max2 := Rmax;
  ltb := Rltb;
  leb := Rleb;
  truthy := Rtruthy;
  aboveNegInfinity := fun _ => true;
  fround := fun x => x
|}.

End Exact.

(** *** Machine arithmetic: IEEE-754 binary64, binary32 in typed arrays *)
Module Double.

Definition prec : Z := 53.
Definition emax : Z := 1024.

Definition double := spec_float.

Definition signed (s : bool) (m : positive) : Z :=
  if s then Z.neg m else Z.pos m.

(** The canonical binary64 representation of a finite value. *)
Definition canon (x : double) : double :=
  match x with
  | S754_finite s m e => binary_normalize prec emax (signed s m) e s
  | _ => x
  end.

Definition ofZ (z : Z) : double := binary_normalize prec emax z 0 false.

(** Rounding to binary32 (round to nearest, ties to even), kept as a
    binary64 value. *)
Definition round32 (x : double) : double :=
  match x with
  | S754_finite s m e => canon (binary_normalize 24 128 (signed s m) e s)
  | _ => x
  end.

Definition isNaN (x : double) : bool :=
  match x with S754_nan => true | _ => false end.

Definition isZero (x : double) : bool :=
  match x with S754_zero _ => true | _ => false end.

(** [Math.max] of two numbers: [NaN] if either is, and [+0] above [-0]. *)
Definition maxd (x y : double) : double :=
  if isNaN x || isNaN y then S754_nan
  else match x, y with
       | S754_zero sx, S754_zero sy => S754_zero (sx && sy)
       | _, _ => if SFltb x y then y else x
       end.

#[export] Instance arith : Arith := {|
  num := double;
  ofInt := ofZ;
  add := SFadd prec emax;
  sub := SFsub prec emax;
  mul := SFmul prec emax;
  div := SFdiv prec emax;
  sqrt := SFsqrt prec emax;
  max2 := maxd;
  ltb := SFltb;
  leb := SFleb;
  truthy := fun x => negb (isZero x || isNaN x);
  aboveNegInfinity := SFltb (S754_infinity true);
  fround := round32
|}.

(** [x.toFixed(3)] for [|x| < 1e21]: the integer [n] nearest to
    [|x| * 1000], the larger one on a tie, printed with three decimals
    and the sign of [x]. *)
Definition thousandths (m : positive) (e : Z) : N :=
  Z.to_N (if (0 <=? e)%Z
          then Z.pos m * 1000 * 2 ^ e
          else (Z.pos m * 2000 + 2 ^ (- e)) / 2 ^ (- e + 1))%Z.

Definition fixed3 (n : N) : jsstring :=
  ofN (n / 1000) ++ [46%N] ++ padded 3 (n mod 1000).

Definition toFixed3 (x : double) : jsstring :=
  match x with
  | S754_nan => js "NaN"
  | S754_infinity s => (if s then [45%N] else []) ++ js "Infinity"
  | S754_zero _ => fixed3 0
  | S754_finite s m e =>
      (if s then [45%N] else []) ++ fixed3 (thousandths m e)
  end.

End Double.

(* ================================================================== *)
(** ** Arrays, sets and maps *)

Module JsArray.

(** [a.slice(0, e)] for an integer [e]; a negative [e] counts from the
    end of the array. *)
Definition slice0 {A} (a : list A) (e : Z) : list A :=
  if (e <? 0)%Z then firstn (length a - Z.to_nat (- e)) a
  else firstn (Z.to_nat e) a.

Section Sort.
Context `{Arith} {A : Type}.
Variable compareFn : A -> A -> num.

(** [a.sort(compareFn)].  The sort of ECMAScript is stable, and an
    element [x] goes after [y] exactly when [compareFn(x, y) > 0];
    for a consistent comparator this is the list that inserting the
    elements from the right produces.  For a comparator that is not
    consistent, as [(a, b) => scores[b] - scores[a]] on a score that is
    [NaN], ECMAScript leaves the order to the engine and only fixes that
    the result is a permutation of the array: of such a sort the
    properties below use [sort_perm] alone, and the order is used where
    the comparator is consistent. *)
Fixpoint insert (x : A) (l : list A) : list A :=
  match l with
  | [] => [x]
  | y :: r =>
      if (compareFn x y >? ofInt 0)%J then y :: insert x r else x :: l
  end.

Definition sort (a : list A) : list A := fold_right insert [] a.
End Sort.

End JsArray.

(** [Set<number>] and [Set<string>], as the list of the members added. *)
Module JsSet.
Definition hasNat (s : list nat) (i : nat) : bool := existsb (Nat.eqb i) s.
Definition has (s : list jsstring) (k : jsstring) : bool :=
  existsb (JsString.eqb k) s.
End JsSet.

(** [Map<string, V>]: the entries in insertion order. *)
Module JsMap.
Section Map.
Variable V : Type.

Definition t := list (jsstring * V).

Fixpoint get (m : t) (k : jsstring) : option V :=
  match m with
  | [] => None
  | (k', v) :: r => if JsString.eqb k' k then Some v else get r k
  end.

(** [m.set(k, v)]: a present key keeps its place. *)
Fixpoint set (m : t) (k : jsstring) (v : V) : t :=
  match m with
  | [] => [(k, v)]
  | (k', v') :: r =>
      if JsString.eqb k' k then (k', v) :: r else (k', v') :: set r k v
  end.

Definition keys (m : t) : list jsstring := map fst m.
Definition values (m : t) : list V := map snd m.
End Map.
Arguments get {V} m k.
Arguments set {V} m k v.
Arguments keys {V} m.
Arguments values {V} m.
End JsMap.

(* ================================================================== *)
(** ** The data model *)

(** A value of a metadata attribute. *)
Inductive JsValue : Type :=
| VNumber (z : Z)
| VString (s : jsstring).

(** [ToBoolean] of an attribute that may be absent. *)
Definition valueTruthy (v : option JsValue) : bool :=
  match v with
  | None => false
  | Some (VNumber z) => negb (z =? 0)%Z
  | Some (VString s) => negb (JsString.eqb s [])
  end.

(** [v !== n] for a number [n], and [v !== s] for a string [s]. *)
Definition differsFromNumber (v : option JsValue) (n : Z) : bool :=
  match v with
  | Some (VNumber z) => negb (z =? n)%Z
  | _ => true
  end.

Definition differsFromString (v : option JsValue) (s : jsstring) : bool :=
  match v with
  | Some (VString s') => negb (JsString.eqb s' s)
  | _ => true
  end.

Module Metadata.
Record t : Type := mk {
  year : option JsValue;
  month : option JsValue;
  category_lvl1 : option JsValue;
  merchant : option JsValue;
  currency : option JsValue
}.
(** [{}] *)
Definition empty : t := mk None None None None None.
End Metadata.

Module HybridFilter.
Record t : Type := mk {
  year : option Z;
  month : option Z;
  category : option jsstring;
  merchant : option jsstring;
  currency : option jsstring
}.
End HybridFilter.

Module VectorChunk.
Record t `{Arith} : Type := mk {
  id : jsstring;
  text : jsstring;
  embedding : list num;
  page : option Z;
  offset : option Z;
  tokens : option Z;
  metadata : option Metadata.t
}.
Arguments mk {H}.
End VectorChunk.

Module VectorIndex.
Record t `{Arith} : Type := mk {
  model : jsstring;
  dims : Z;
  createdAt : jsstring;
  chunks : list VectorChunk.t
}.
Arguments mk {H}.
End VectorIndex.

Module SearchOptions.
Record t `{Arith} : Type := mk {
  topK : option Z;
  minScore : option num;
  mmrLambda : option num
}.
Arguments mk {H}.
End SearchOptions.

Module SearchResultItem.
Record t `{Arith} : Type := mk {
  id : jsstring;
  text : jsstring;
  score : num;
  page : option Z;
  offset : option Z;
  tokens : option Z
}.
Arguments mk {H}.
End SearchResultItem.

Inductive Source : Type := transaction | summary.

Module HybridResultItem.
Record t `{Arith} : Type := mk {
  id : jsstring;
  text : jsstring;
  score : num;
  source : Source
}.
Arguments mk {H}.
End HybridResultItem.

Module Doc.
Record t : Type := mk {
  id : jsstring;
  text : jsstring;
  metadata : option Metadata.t
}.
End Doc.

(** [x ?? d] and the default of a destructured option. *)
Definition orDefault {A} (x : option A) (d : A) : A :=
  match x with
  | Some a => a
  | None => d
  end.

(* ================================================================== *)
(** ** vectorDb.ts *)

Module VectorDB.
Section VectorDB.
Context `{Arith}.

Record t : Type := mk {
  dims : Z;
  texts : list jsstring;
  ids : list jsstring;
  pages : list (option Z);
  offsets : list (option Z);
  tokens : list (option Z);
  (** normalized unit vectors *)
  embs : list (list num)
}.

(** [new Float32Array(a)] *)
Definition Float32Array (a : list num) : list num := map fround a.

Definition normalize (vec : list num) : list num :=
  let sum := fold_left (fun sum x => (sum + x * x)%J) vec (ofInt 0) in
  let n := let r := sqrt sum in if truthy r then r else ofInt 1 in
  map (fun x => fround (x / n)%J) vec.

(** The loop runs over the common prefix of [a] and [b]. *)
Definition cosine (a b : list num) : num :=
  fold_left (fun dot xy => (dot + fst xy * snd xy)%J) (combine a b)
            (ofInt 0).

Definition new (index : VectorIndex.t) : t :=
  fold_left
    (fun this ch =>
       let arr := Float32Array (VectorChunk.embedding ch) in
       let norm := normalize arr in
       {| dims := dims this;
          texts := texts this ++ [VectorChunk.text ch];
          ids := ids this ++ [VectorChunk.id ch];
          pages := pages this ++ [VectorChunk.page ch];
          offsets := offsets this ++ [VectorChunk.offset ch];
          tokens := tokens this ++ [VectorChunk.tokens ch];
          embs := embs this ++ [norm] |})
    (VectorIndex.chunks index)
    {| dims := VectorIndex.dims index; texts := []; ids := [];
       pages := []; offsets := []; tokens := []; embs := [] |}.

(** [scores[i]] *)
Definition at_ (scores : list num) (i : nat) : num :=
  nth i scores (ofInt 0).

(** [(a, b) => scores[b] - scores[a]] *)
Definition byScoreDesc (scores : list num) (a b : nat) : num :=
  (at_ scores b - at_ scores a)%J.

Definition similarities (this : t) (qn : list num) : list num :=
  map (fun e => fround (cosine qn e)) (embs this).

(** Lines 96-105: the indices above [minScore]; if there is none, the
    first [topK * 3] indices by descending score. *)
Definition candidates (scores : list num) (minScore : num) (topK : Z)
  : list nat :=
  let keys := seq 0 (length scores) in
  let above := filter (fun i => (at_ scores i >=? minScore)%J) keys in
  if (length above =? 0)%nat
  then above ++ JsArray.slice0 (JsArray.sort (byScoreDesc scores) keys)
                               (topK * 3)
  else above.

(** Lines 118-122: the largest similarity of [i] to a selected index,
    and at least 0. *)
Definition diversity (this : t) (selected : list nat) (i : nat) : num :=
  fold_left
    (fun diversity j =>
       let sim := cosine (nth i (embs this) []) (nth j (embs this) []) in
       if (sim >? diversity)%J then sim else diversity)
    selected (ofInt 0).

Definition mmrOf (this : t) (scores : list num) (mmrLambda : num)
           (selected : list nat) (i : nat) : num :=
  let relevance := at_ scores i in
  (mmrLambda * relevance
   - (ofInt 1 - mmrLambda) * diversity this selected i)%J.

(** Lines 112-128: one scan of the candidates.  [bestIdx] is [None]
    for -1 and [bestScore] is [None] for [-Infinity]. *)
Definition improves (mmr : num) (bestScore : option num) : bool :=
  match bestScore with
  | None => aboveNegInfinity mmr
  | Some b => (mmr >? b)%J
  end.

Definition scanStep (this : t) (scores : list num) (mmrLambda : num)
           (selected : list nat) (best : option nat * option num)
           (i : nat) : option nat * option num :=
  if JsSet.hasNat selected i then best
  else
    let mmr := mmrOf this scores mmrLambda selected i in
    if improves mmr (snd best) then (Some i, Some mmr) else best.

Definition pickBest (this : t) (scores : list num) (mmrLambda : num)
           (cands selected : list nat) : option nat :=
  fst (fold_left (scanStep this scores mmrLambda selected) cands
                 (None, None)).

(** Lines 111-133.  [slots] is [topK - selected.length], the number of
    further picks the guard [selected.length < topK] allows; every
    iteration either breaks or uses one slot. *)
Fixpoint selectMMR (this : t) (scores : list num) (mmrLambda : num)
         (cands : list nat) (slots : nat) (selected : list nat)
  : list nat :=
  match slots with
  | O => selected
  | S slots' =>
      if (length cands =? 0)%nat then selected
      else match pickBest this scores mmrLambda cands selected with
           | None => selected
           | Some bestIdx =>
               selectMMR this scores mmrLambda cands slots'
                         (selected ++ [bestIdx])
           end
  end.

Definition resultItem (this : t) (scores : list num) (i : nat)
  : SearchResultItem.t :=
  {| SearchResultItem.id := nth i (ids this) [];
     SearchResultItem.text := nth i (texts this) [];
     SearchResultItem.score := at_ scores i;
     SearchResultItem.page := nth i (pages this) None;
     SearchResultItem.offset := nth i (offsets this) None;
     SearchResultItem.tokens := nth i (tokens this) None |}.

(** The indices of the result, in the order of the result. *)
Definition searchIndices (this : t) (scores : list num)
           (topK : Z) (minScore mmrLambda : num) : list nat :=
  let cands := candidates scores minScore topK in
  let selected :=
    selectMMR this scores mmrLambda cands (Z.to_nat topK) [] in
  JsArray.sort (byScoreDesc scores) selected.

Definition search (this : t) (queryEmbedding : list num)
           (options : SearchOptions.t) : list SearchResultItem.t :=
  let topK := orDefault (SearchOptions.topK options) 5%Z in
  let minScore := orDefault (SearchOptions.minScore options)
                            (decimal 25 100) in
  let mmrLambda := orDefault (SearchOptions.mmrLambda options)
                             (decimal 5 10) in
  let q := Float32Array queryEmbedding in
  let qn := normalize q in
  let scores := similarities this qn in
  map (resultItem this scores)
      (searchIndices this scores topK minScore mmrLambda).

End VectorDB.
End VectorDB.

(* ================================================================== *)
(** ** The embedding service *)

(** What [fetch(EMB_API, ...)] resolves to: the flag [res.ok], and the
    outcome of [res.json()] read down to [data?.data?.[0]?.embedding]
    ([None] when that value is missing or falsy). *)
Module Response.
Record t `{Arith} : Type := mk {
  ok : bool;
  json : Completion (option (list num))
}.
Arguments mk {H}.
End Response.

(* ================================================================== *)
(** ** retriever.ts *)

Module RetrieveOptions.
Record t `{Arith} : Type := mk {
  topK : option Z;
  minScore : option num;
  mmrLambda : option num;
  (** hard cap for assembled context length *)
  maxContextChars : option Z
}.
Arguments mk {H}.
End RetrieveOptions.

Module RetrieveResult.
Record t `{Arith} : Type := mk {
  context : jsstring;
  chunks : list SearchResultItem.t
}.
Arguments mk {H}.
End RetrieveResult.

Module Retriever.
Section Retriever.
Context `{Arith}.
(** The request to the embedding service, by the text sent. *)
Variable fetch : jsstring -> Completion Response.t.
(** [Number.prototype.toFixed] with 3 digits. *)
Variable toFixed3 : num -> jsstring.

Record t : Type := mk { db : option VectorDB.t }.

Definition clean (text : jsstring) : jsstring :=
  trim (collapseSpaces false text).

Definition embed (text : jsstring) : Completion (option (list num)) :=
  tryCatch
    (let cleaned := clean text in
     res <- fetch cleaned ;;
     if negb (Response.ok res) then Normal None
     else
       data <- Response.json res ;;
       Normal data)%completion
    None.

Definition header (i : nat) (r : SearchResultItem.t) : jsstring :=
  js "Источник " ++ ofN (N.of_nat (i + 1))
  ++ (match SearchResultItem.page r with
      | Some p => if (p =? 0)%Z then []
                  else js " (стр. " ++ ofZ p ++ js ")"
      | None => []
      end)
  ++ js " — score " ++ toFixed3 (SearchResultItem.score r).

Definition block (i : nat) (r : SearchResultItem.t) : jsstring :=
  header i r ++ [10%N] ++ SearchResultItem.text r.

(** Lines 83-92, from index [i] on with [used] characters so far. *)
Fixpoint assemble (maxContextChars : Z) (i : nat) (used : Z)
         (results : list SearchResultItem.t) : list jsstring :=
  match results with
  | [] => []
  | r :: rest =>
      let b := block i r in
      if (used + Z.of_nat (length b) >? maxContextChars)%Z then []
      else b :: assemble maxContextChars (S i)
                         (used + Z.of_nat (length b)) rest
  end.

Definition retrieve (this : t) (query : jsstring)
           (options : RetrieveOptions.t)
  : Completion (option RetrieveResult.t) :=
  match db this with
  | None => Normal None
  | Some db =>
      (qEmb <- embed query ;;
       match qEmb with
       | None => Normal None
       | Some qEmb =>
           let topK := orDefault (RetrieveOptions.topK options) 5%Z in
           let minScore :=
             orDefault (RetrieveOptions.minScore options)
                       (decimal 25 100) in
           let mmrLambda :=
             orDefault (RetrieveOptions.mmrLambda options)
                       (decimal 5 10) in
           let maxContextChars :=
             orDefault (RetrieveOptions.maxContextChars options)
                       2000%Z in
           let results :=
             VectorDB.search db qEmb
               {| SearchOptions.topK := Some topK;
                  SearchOptions.minScore := Some minScore;
                  SearchOptions.mmrLambda := Some mmrLambda |} in
           let lines := assemble maxContextChars 0 0 results in
           Normal (Some {| RetrieveResult.context :=
                             join [10%N; 10%N] lines;
                           RetrieveResult.chunks := results |})
       end)%completion
  end.

End Retriever.
End Retriever.

(* ================================================================== *)
(** ** hybrid.ts *)

Module Hybrid.

(** The characters the class [[^a-zа-я0-9_\s]] with the flag [i] leaves
    in place, white space apart: the Latin letters a-z and A-Z, the
    Cyrillic letters а-я and А-Я together with the variant letters
    U+1C80 to U+1C86 whose upper case lies in А-Я, the digits and the
    underscore.  The letter ё (U+0451) is outside the range а-я. *)
Definition isWordUnit (c : N) : bool :=
  ((97 <=? c) && (c <=? 122) || (65 <=? c) && (c <=? 90)
   || (1072 <=? c) && (c <=? 1103) || (1040 <=? c) && (c <=? 1071)
   || (7296 <=? c) && (c <=? 7302)
   || (48 <=? c) && (c <=? 57) || (c =? 95))%N.

Arguments isWordUnit c : simpl never.

(** [s.replace(/[^a-zа-я0-9_\s]/gi, ' ')] *)
Definition replaceOthers (s : jsstring) : jsstring :=
  map (fun c => if isWordUnit c || isSpace c then c else 32%N) s.

Definition nonEmpty (s : jsstring) : bool :=
  match s with [] => false | _ => true end.

Section Tokenize.
(** [String.prototype.toLowerCase] *)
Variable toLowerCase : jsstring -> jsstring.

Definition tokenize (s : jsstring) : list jsstring :=
  filter nonEmpty (splitSpaces false (replaceOthers (toLowerCase s))).
End Tokenize.

(** The case mapping of the Basic Latin and Cyrillic blocks, for
    evaluating [tokenize] on strings of these blocks. *)
Definition toLowerCaseBasic (s : jsstring) : jsstring :=
  map (fun c => if ((65 <=? c) && (c <=? 90)
                    || (1040 <=? c) && (c <=? 1071))%N then (c + 32)%N
                else if ((1024 <=? c) && (c <=? 1039))%N then (c + 80)%N
                else c) s.

Section Hybrid.
Context `{Arith}.
Variable toLowerCase : jsstring -> jsstring.
(** [Math.log] *)
Variable Math_log : num -> num.
Variable fetch : jsstring -> Completion Response.t.

Definition countOr0 (c : option Z) : Z := orDefault c 0%Z.

(** Lines 34-45: one token of document [id] recorded in [tf], and in
    [df] when it is the first occurrence in the document. *)
Definition recordToken (id : jsstring)
           (st : JsMap.t (JsMap.t Z) * JsMap.t Z * list jsstring)
           (t : jsstring)
  : JsMap.t (JsMap.t Z) * JsMap.t Z * list jsstring :=
  let '(tf, df, seen) := st in
  let m := orDefault (JsMap.get tf t) [] in
  let m := JsMap.set m id (countOr0 (JsMap.get m id) + 1)%Z in
  let tf := JsMap.set tf t m in
  if negb (JsSet.has seen t)
  then (tf, JsMap.set df t (countOr0 (JsMap.get df t) + 1)%Z, seen ++ [t])
  else (tf, df, seen).

Definition recordDoc (st : JsMap.t (JsMap.t Z) * JsMap.t Z) (d : Doc.t)
  : JsMap.t (JsMap.t Z) * JsMap.t Z :=
  let '(tf, df) := st in
  let '(tf, df, _) :=
    fold_left (recordToken (Doc.id d))
              (tokenize toLowerCase (Doc.text d)) (tf, df, []) in
  (tf, df).

(** Lines 50-57: the contribution of the query term [q] to the score
    [s] of document [d]. *)
Definition scoreTerm (N avgdl : num) (tf : JsMap.t (JsMap.t Z))
           (df : JsMap.t Z) (d : Doc.t) (dl : num) (s : num)
           (q : jsstring) : num :=
  let k1 := decimal 12 10 in
  let b := decimal 75 100 in
  match JsMap.get tf q with
  | None => s
  | Some m =>
      let f := ofInt (countOr0 (JsMap.get m (Doc.id d))) in
      let dfq := ofInt (countOr0 (JsMap.get df q)) in
      let idf :=
        Math_log (ofInt 1 + (N - dfq + decimal 5 10)
                            / (dfq + decimal 5 10))%J in
      let denom := (f + k1 * (ofInt 1 - b + b * (dl / avgdl)))%J in
      (s + idf * ((f * (k1 + ofInt 1))
                  / (if truthy denom then denom else ofInt 1)))%J
  end.

Definition bm25Score (query : jsstring) (docs : list Doc.t)
  : JsMap.t num :=
  let tokens := tokenize toLowerCase query in
  if (length tokens =? 0)%nat then []
  else
    let N := ofInt (if (length docs =? 0)%nat then 1
                    else Z.of_nat (length docs)) in
    let avgdl :=
      (ofInt (fold_left
                (fun a d =>
                   (a + Z.of_nat
                          (length (tokenize toLowerCase (Doc.text d))))%Z)
                docs 0%Z) / N)%J in
    let '(tf, df) := fold_left recordDoc docs ([], []) in
    fold_left
      (fun scores d =>
         let dl :=
           ofInt (Z.of_nat
                    (length (tokenize toLowerCase (Doc.text d)))) in
         let s := fold_left (scoreTerm N avgdl tf df d dl) tokens
                            (ofInt 0) in
         if truthy s then JsMap.set scores (Doc.id d) s else scores)
      docs [].

Record t : Type := mk {
  txDb : option VectorDB.t;
  sumDb : option VectorDB.t;
  txDocs : list Doc.t;
  sumDocs : list Doc.t
}.

(** [new HybridRetriever()] *)
Definition initial : t := mk None None [] [].

Definition docOf (c : VectorChunk.t) : Doc.t :=
  {| Doc.id := VectorChunk.id c; Doc.text := VectorChunk.text c;
     Doc.metadata := VectorChunk.metadata c |}.

(** Lines 72-77 of [load], from the two indexes fetched. *)
Definition load (txIndex sumIndex : VectorIndex.t) : t :=
  {| txDocs := map docOf (VectorIndex.chunks txIndex);
     sumDocs := map docOf (VectorIndex.chunks sumIndex);
     txDb := Some (VectorDB.new txIndex);
     sumDb := Some (VectorDB.new sumIndex) |}.

Definition embed (text : jsstring) : Completion (option (list num)) :=
  tryCatch
    (res <- fetch text ;;
     if negb (Response.ok res) then Normal None
     else
       data <- Response.json res ;;
       Normal data)%completion
    None.

Definition numberSet (n : option Z) : bool :=
  match n with Some z => negb (z =? 0)%Z | None => false end.

Definition stringSet (s : option jsstring) : bool :=
  match s with Some s => nonEmpty s | None => false end.

(** Lines 91-99: the predicate of the filter. *)
Definition passes (f : HybridFilter.t) (d : Doc.t) : bool :=
  let m := orDefault (Doc.metadata d) Metadata.empty in
  if numberSet (HybridFilter.year f)
     && differsFromNumber (Metadata.year m)
                          (orDefault (HybridFilter.year f) 0%Z)
  then false
  else if numberSet (HybridFilter.month f)
          && differsFromNumber (Metadata.month m)
                               (orDefault (HybridFilter.month f) 0%Z)
  then false
  else if stringSet (HybridFilter.category f)
          && valueTruthy (Metadata.category_lvl1 m)
          && differsFromString (Metadata.category_lvl1 m)
                               (orDefault (HybridFilter.category f) [])
  then false
  else if stringSet (HybridFilter.merchant f)
          && valueTruthy (Metadata.merchant m)
          && differsFromString (Metadata.merchant m)
                               (orDefault (HybridFilter.merchant f) [])
  then false
  else if stringSet (HybridFilter.currency f)
          && valueTruthy (Metadata.currency m)
          && differsFromString (Metadata.currency m)
                               (orDefault (HybridFilter.currency f) [])
  then false
  else true.

Definition applyFilter (docs : list Doc.t) (f : option HybridFilter.t)
  : list Doc.t :=
  match f with
  | None => docs
  | Some f => filter (passes f) docs
  end.

Definition findDoc (pool : list Doc.t) (id : jsstring) : option Doc.t :=
  find (fun p => JsString.eqb (Doc.id p) id) pool.

(** Lines 130-135: the dense items, in order. *)
Definition fuseDense (denseMax bmMax : num) (bm : JsMap.t num)
           (source : Source) (it : SearchResultItem.t)
  : HybridResultItem.t :=
  let bmScore :=
    match JsMap.get bm (SearchResultItem.id it) with
    | Some v => if truthy v then v else ofInt 0
    | None => ofInt 0
    end in
  let fused :=
    (decimal 6 10 * (SearchResultItem.score it / denseMax)
     + decimal 4 10 * (bmScore / bmMax))%J in
  {| HybridResultItem.id := SearchResultItem.id it;
     HybridResultItem.text := SearchResultItem.text it;
     HybridResultItem.score := fused;
     HybridResultItem.source := source |}.

(** Lines 138-143: one entry of the top lexical scores. *)
Definition fuseLexical (bmMax : num) (pool : list Doc.t)
           (seen : list jsstring) (source : Source)
           (entry : jsstring * num) : list HybridResultItem.t :=
  let '(id, bms) := entry in
  if JsSet.has seen id then []
  else
    let fused := (decimal 4 10 * (bms / bmMax))%J in
    match findDoc pool id with
    | Some doc =>
        [{| HybridResultItem.id := id;
            HybridResultItem.text := Doc.text doc;
            HybridResultItem.score := fused;
            HybridResultItem.source := source |}]
    | None => []
    end.

(** The inner function [fuse] of [search]; [k], [txPool] and [sumPool]
    are the variables of [search] it captures. *)
Definition fuse (k : Z) (txPool sumPool : list Doc.t)
           (items : list SearchResultItem.t) (bm : JsMap.t num)
           (source : Source) : list HybridResultItem.t :=
  let denseMax :=
    Math_max_spread (map SearchResultItem.score items)
                    (decimal 1 1000000) in
  let bmMax := Math_max_spread (JsMap.values bm) (decimal 1 1000000) in
  let out := map (fuseDense denseMax bmMax bm source) items in
  let seen := map SearchResultItem.id items in
  let bmOnly :=
    JsArray.slice0
      (JsArray.sort (fun a b => (snd b - snd a)%J) bm) k in
  let pool := match source with
              | transaction => txPool
              | summary => sumPool
              end in
  out ++ flat_map (fuseLexical bmMax pool seen source) bmOnly.

Definition inPool (pool : list Doc.t) (d : SearchResultItem.t) : bool :=
  match findDoc pool (SearchResultItem.id d) with
  | Some _ => true
  | None => false
  end.

Definition search (this : t) (query : jsstring)
           (filter_ : option HybridFilter.t) (k : option Z)
  : Completion (list HybridResultItem.t) :=
  let k := orDefault k 6%Z in
  match txDb this, sumDb this with
  | Some txDb, Some sumDb =>
      (qEmb <- embed query ;;
       match qEmb with
       | None => Normal []
       | Some qEmb =>
           let txPool := applyFilter (txDocs this) filter_ in
           let sumPool := applyFilter (sumDocs this) filter_ in
           let options :=
             {| SearchOptions.topK := Some (Z.min k 6);
                SearchOptions.minScore := Some (decimal 2 10);
                SearchOptions.mmrLambda := Some (decimal 6 10) |} in
           let txDense := VectorDB.search txDb qEmb options in
           let sumDense := VectorDB.search sumDb qEmb options in
           let txDenseFiltered := filter (inPool txPool) txDense in
           let sumDenseFiltered := filter (inPool sumPool) sumDense in
           let txBm25 := bm25Score query txPool in
           let sumBm25 := bm25Score query sumPool in
           let fusedTx :=
             fuse k txPool sumPool txDenseFiltered txBm25 transaction in
           let fusedSum :=
             fuse k txPool sumPool sumDenseFiltered sumBm25 summary in
           Normal
             (JsArray.slice0
                (JsArray.sort
                   (fun a b => (HybridResultItem.score b
                                - HybridResultItem.score a)%J)
                   (fusedTx ++ fusedSum))
                k)
       end)%completion
  | _, _ => Normal []
  end.

End Hybrid.
End Hybrid.

(* ================================================================== *)
(** ** Loading an index: retriever.ts, lines 20-51 *)

(** What [fetch(url)] of [loadIndex] resolves to. *)
Module IndexResponse.
Record t `{Arith} : Type := mk {
  ok : bool;
  json : Completion VectorIndex.t
}.
Arguments mk {H}.
End IndexResponse.

Module IDBMeta.
Record t : Type := mk {
  model : jsstring;
  dims : Z;
  createdAt : jsstring
}.
End IDBMeta.

(** What the three requests of idbStore.ts that [loadFromIDB] awaits
    resolve to: [openRagDB()], [getMeta(db)] and [getAllChunks(db)]. *)
Module IdbStore.
Record t `{Arith} : Type := mk {
  openRagDB : Completion unit;
  getMeta : Completion (option IDBMeta.t);
  getAllChunks : Completion (list VectorChunk.t)
}.
Arguments mk {H}.
End IdbStore.

Module Loading.
Section Loading.
Context `{Arith}.

(** [loadIndex]: the retriever after the call, or the exception. *)
Definition loadIndex (fetched : Completion IndexResponse.t)
  : Completion Retriever.t :=
  (res <- fetched ;;
   if negb (IndexResponse.ok res) then Throw
   else
     json <- IndexResponse.json res ;;
     Normal (Retriever.mk (Some (VectorDB.new json))))%completion.

(** Lines 40-44: [{ id: ch.id, text: ch.text, embedding: ch.embedding }] *)
Definition stored (ch : VectorChunk.t) : VectorChunk.t :=
  {| VectorChunk.id := VectorChunk.id ch;
     VectorChunk.text := VectorChunk.text ch;
     VectorChunk.embedding := VectorChunk.embedding ch;
     VectorChunk.page := None;
     VectorChunk.offset := None;
     VectorChunk.tokens := None;
     VectorChunk.metadata := None |}.

(** [loadFromIDB]: the boolean returned and the retriever after the
    call. *)
Definition loadFromIDB (store : IdbStore.t) (this : Retriever.t)
  : Completion (bool * Retriever.t) :=
  tryCatch
    (db <- IdbStore.openRagDB store ;;
     meta <- IdbStore.getMeta store ;;
     chunks <- IdbStore.getAllChunks store ;;
     match meta with
     | None => Normal (false, this)
     | Some meta =>
         if (length chunks =? 0)%nat then Normal (false, this)
         else
           let index :=
             {| VectorIndex.model := IDBMeta.model meta;
                VectorIndex.dims := IDBMeta.dims meta;
                VectorIndex.createdAt := IDBMeta.createdAt meta;
                VectorIndex.chunks := map stored chunks |} in
           Normal (true, Retriever.mk (Some (VectorDB.new index)))
     end)%completion
    (false, this).

End Loading.
End Loading.

(* ================================================================== *)
(** ** The chat page: the fallback retrieval of ZCard.tsx *)

Module ChatPage.

(** [s.startsWith(sub)] and [s.includes(sub)] *)
Fixpoint startsWith (s sub : jsstring) : bool :=
  match sub, s with
  | [], _ => true
  | _ :: _, [] => false
  | c :: sub', d :: s' => (c =? d)%N && startsWith s' sub'
  end.

Fixpoint includes (s sub : jsstring) : bool :=
  startsWith s sub
  || match s with
     | [] => false
     | _ :: s' => includes s' sub
     end.

(** [String(v)] *)
Definition toString (v : option JsValue) : jsstring :=
  match v with
  | Some (VNumber z) => ofZ z
  | Some (VString s) => s
  | None => js "undefined"
  end.

(** [typeof v === 'number'] *)
Definition isNumber (v : option JsValue) : bool :=
  match v with
  | Some (VNumber _) => true
  | _ => false
  end.

(** The constraints the filter reads: [cons.time?.year],
    [cons.time?.month], [cons.category] and [cons.merchant]. *)
Module Constraints.
Record t : Type := mk {
  year : option Z;
  month : option Z;
  category : option jsstring;
  merchant : option jsstring
}.
End Constraints.

(** Lines 540-547: the predicate of the filter, [meta] being
    [ch.meta?.metadata]. *)
Definition metadataPasses (cons : Constraints.t) (metadata : option Metadata.t)
  : bool :=
  let meta := orDefault metadata Metadata.empty in
  let pass := true in
  let pass :=
    if Hybrid.numberSet (Constraints.year cons)
       && isNumber (Metadata.year meta)
       && differsFromNumber (Metadata.year meta)
                            (orDefault (Constraints.year cons) 0%Z)
    then false else pass in
  let pass :=
    if Hybrid.numberSet (Constraints.month cons)
       && isNumber (Metadata.month meta)
       && differsFromNumber (Metadata.month meta)
                            (orDefault (Constraints.month cons) 0%Z)
    then false else pass in
  let pass :=
    if Hybrid.stringSet (Constraints.category cons)
       && valueTruthy (Metadata.category_lvl1 meta)
       && includes (toString (Metadata.category_lvl1 meta))
                   (orDefault (Constraints.category cons) [])
    then pass
    else if Hybrid.stringSet (Constraints.category cons)
            && valueTruthy (Metadata.category_lvl1 meta)
    then false else pass in
  let pass :=
    if Hybrid.stringSet (Constraints.merchant cons)
       && valueTruthy (Metadata.merchant meta)
       && includes (toString (Metadata.merchant meta))
                   (orDefault (Constraints.merchant cons) [])
    then pass
    else if Hybrid.stringSet (Constraints.merchant cons)
            && valueTruthy (Metadata.merchant meta)
    then false else pass in
  pass.

Section Fallback.
(** The chunks of [ragIndex], read as [any], and the value of
    [ch.meta?.metadata] of a chunk, if it is there and truthy. *)
Context {Chunk : Type}.
Variable metadataOf : Chunk -> option Metadata.t.

(** Lines 539-549: the chunks that pass, or all chunks when none does. *)
Definition fallbackPool (cons : Constraints.t) (chunks : list Chunk)
  : list Chunk :=
  let candidates :=
    filter (fun ch => metadataPasses cons (metadataOf ch)) chunks in
  if negb (length candidates =? 0)%nat then candidates else chunks.
End Fallback.

Section ChatPage.
Context `{Arith}.

(** Lines 329-337: the cosine of the chat page, on raw vectors. *)
Definition cosineStep (acc : num * num * num) (xy : num * num)
  : num * num * num :=
  let '(dot, na, nb) := acc in
  let '(x, y) := xy in
  ((dot + x * y)%J, (na + x * x)%J, (nb + y * y)%J).

Definition cosine (a b : list num) : num :=
  let '(dot, na, nb) :=
    fold_left cosineStep (combine a b) (ofInt 0, ofInt 0, ofInt 0) in
  if negb (truthy na) || negb (truthy nb) then ofInt 0
  else (dot / (sqrt na * sqrt nb))%J.

End ChatPage.
End ChatPage.

(* ================================================================== *)
(** ** Vocabulary of the properties *)

(** The embedding service fails on the text [text]: the request is
    rejected (transport error), the response is not a success, its body
    cannot be read, or it carries no vector. *)
Definition embeddingFails `{Arith} (fetch : jsstring -> Completion Response.t)
           (text : jsstring) : Prop :=
  match fetch text with
  | Throw => True
  | Normal res =>
      Response.ok res = false
      \/ Response.json res = Throw
      \/ Response.json res = Normal None
  end.

(** The blocks of the results from index [i] on, one per result. *)
Fixpoint blocksFrom `{Arith} (toFixed3 : num -> jsstring) (i : nat)
         (results : list SearchResultItem.t) : list jsstring :=
  match results with
  | [] => []
  | r :: rest =>
      Retriever.block toFixed3 i r :: blocksFrom toFixed3 (S i) rest
  end.

(** The context string of the outcome of [retrieve], if there is one. *)
Definition contextOf `{Arith} (outcome : Completion (option RetrieveResult.t))
  : option jsstring :=
  match outcome with
  | Normal (Some r) => Some (RetrieveResult.context r)
  | _ => None
  end.

(** The pair that identifies a hybrid result: the chunk id and the corpus
    it comes from. *)
Definition keyOf `{Arith} (it : HybridResultItem.t) : jsstring * Source :=
  (HybridResultItem.id it, HybridResultItem.source it).

(** The keys of the items of the outcome of a hybrid search. *)
Definition keysOf `{Arith} (outcome : Completion (list HybridResultItem.t))
  : list (jsstring * Source) :=
  match outcome with
  | Normal items => map keyOf items
  | Throw => []
  end.

(** The raw chunk list of a corpus, by its tag. *)
Definition docsOf `{Arith} (this : Hybrid.t) (source : Source) : list Doc.t :=
  match source with
  | transaction => Hybrid.txDocs this
  | summary => Hybrid.sumDocs this
  end.

(** The sort by descending score puts [m] before an earlier element [x]
    exactly when the comparator is positive on [(x, m)]. *)
Definition goesBefore `{Arith} (scores : list num) (m x : nat) : bool :=
  (VectorDB.byScoreDesc scores x m >? ofInt 0)%J.

(** The first index of the largest score in a list of indices. *)
Fixpoint firstMax `{Arith} (scores : list num) (l : list nat) : option nat :=
  match l with
  | [] => None
  | x :: r =>
      match firstMax scores r with
      | None => Some x
      | Some m => if goesBefore scores m x then Some m else Some x
      end
  end.

(** Descending order of two indices: the second does not go before the
    first. *)
Definition descending `{Arith} (scores : list num) (a b : nat) : Prop :=
  goesBefore scores b a = false.

(** The better of the best index so far and a later candidate: the later
    one only if it goes before. *)
Definition better `{Arith} (scores : list num) (best later : option nat)
  : option nat :=
  match best, later with
  | None, _ => later
  | Some b, None => Some b
  | Some b, Some m => if goesBefore scores m b then Some m else Some b
  end.



(** The scores of a search, as [search] computes them. *)
Definition scoresOf `{Arith} (this : VectorDB.t) (queryEmbedding : list num)
  : list num :=
  VectorDB.similarities
    this (VectorDB.normalize (VectorDB.Float32Array queryEmbedding)).

(** The lexical score of an id, as line 131 reads it: [bm.get(id) || 0]. *)
Definition lexicalOf `{Arith} (bm : JsMap.t num) (id : jsstring) : num :=
  match JsMap.get bm id with
  | Some v => if truthy v then v else ofInt 0
  | None => ofInt 0
  end.

(** The maxima by which line 125 and line 126 normalize. *)
Definition denseMaxOf `{Arith} (items : list SearchResultItem.t) : num :=
  Math_max_spread (map SearchResultItem.score items) (decimal 1 1000000).

Definition lexicalMaxOf `{Arith} (bm : JsMap.t num) : num :=
  Math_max_spread (JsMap.values bm) (decimal 1 1000000).

(** The sum of the squares of a real vector, and the sum of the products
    of two real vectors over their common prefix. *)
Definition sumOfSquares (v : list R) : R :=
  fold_right (fun x s => (x * x + s)%R) 0%R v.

Definition sumOfProducts (a b : list R) : R :=
  fold_right (fun xy s => (fst xy * snd xy + s)%R) 0%R (combine a b).



(** The words of a string: the pieces between its runs of white space
    that are not empty. *)
Definition wordsOf (s : jsstring) : list jsstring :=
  filter Hybrid.nonEmpty (splitSpaces false s).

(** The chunks of the outcome of [retrieve], if there are any. *)
Definition chunksOf `{Arith} (outcome : Completion (option RetrieveResult.t))
  : list SearchResultItem.t :=
  match outcome with
  | Normal (Some r) => RetrieveResult.chunks r
  | _ => []
  end.

(** The constraints of the chat page that a filter of the hybrid
    retriever amounts to. *)
Definition constraintsOf (f : HybridFilter.t) : ChatPage.Constraints.t :=
  {| ChatPage.Constraints.year := HybridFilter.year f;
     ChatPage.Constraints.month := HybridFilter.month f;
     ChatPage.Constraints.category := HybridFilter.category f;
     ChatPage.Constraints.merchant := HybridFilter.merchant f |}.

(** The total length of a list of strings. *)
Definition totalLength (lines : list jsstring) : Z :=
  fold_right (fun l n => (Z.of_nat (length l) + n)%Z) 0%Z lines.

(* ================================================================== *)
(** ** Scenarios *)

(** Concrete corpora, queries and service answers, over the machine
    arithmetic. *)
Module Scenario.
#[local] Existing Instance Double.arith.

Definition vec (v : list Z) : list num := map Double.ofZ v.

Definition chunk (id text : string) (embedding : list Z) : VectorChunk.t :=
  VectorChunk.mk (js id) (js text) (vec embedding) None None None None.

Definition index (chunks : list VectorChunk.t) : VectorIndex.t :=
  VectorIndex.mk (js "mxbai-embed-large:latest") 2 (js "2025-10-18") chunks.

(** An embedding service that answers every request with [v]. *)
Definition answers (v : list Z) (_ : jsstring) : Completion Response.t :=
  Normal (Response.mk true (Normal (Some (vec v)))).

(** The three documents of the filter scenario and the filter
    [{month: 1}]. *)
Definition january : Doc.t :=
  Doc.mk (js "1") (js "first")
         (Some (Metadata.mk (Some (VNumber 2024)) (Some (VNumber 1))
                            None None None)).
Definition february : Doc.t :=
  Doc.mk (js "2") (js "second")
         (Some (Metadata.mk (Some (VNumber 2024)) (Some (VNumber 2))
                            None None None)).
Definition untagged : Doc.t := Doc.mk (js "3") (js "third") None.
Definition emptyTagged : Doc.t :=
  Doc.mk (js "3") (js "third") (Some Metadata.empty).
Definition monthOne : HybridFilter.t :=
  HybridFilter.mk None (Some 1%Z) None None None.

(** Two chunks along the first axis, and a cap of 52 characters. *)
Definition twins : VectorIndex.t :=
  index [chunk "a" "a" [1; 0]; chunk "b" "b" [1; 0]]%Z.
Definition cap52 : RetrieveOptions.t :=
  RetrieveOptions.mk None None None (Some 52%Z).

(** Two orthogonal chunks. *)
Definition axes : VectorIndex.t :=
  index [chunk "a" "a" [1; 0]; chunk "b" "b" [0; 1]]%Z.

(** One chunk orthogonal to the query [[1, 0]]. *)
Definition apart : VectorIndex.t := index [chunk "a" "a" [0; 1]]%Z.

(** One chunk, queried with its own embedding. *)
Definition single : VectorIndex.t := index [chunk "a" "a" [1; 1; 2]]%Z.

End Scenario.

(** The same corpora over the exact arithmetic. *)
Module ExactScenario.
#[local] Existing Instance Exact.arith.

Definition vec (v : list Z) : list num := map IZR v.

Definition chunk (id text : string) (embedding : list Z) : VectorChunk.t :=
  VectorChunk.mk (js id) (js text) (vec embedding) None None None None.

Definition index (chunks : list VectorChunk.t) : VectorIndex.t :=
  VectorIndex.mk (js "mxbai-embed-large:latest") 2 (js "2025-10-18") chunks.

(** A chunk orthogonal to the query [[1, 0]], then a chunk along it. *)
Definition pair : VectorIndex.t :=
  index [chunk "a" "a" [0; 1]; chunk "b" "b" [1; 0]]%Z.

(** A dense item of score 1/2 and two lexical score maps that differ on
    its id alone. *)
Definition dense : SearchResultItem.t :=
  SearchResultItem.mk (js "a") (js "a") (IZR 1 / IZR 2)%R None None None.
Definition lexicalLow : JsMap.t num := [(js "a", IZR 1); (js "b", IZR 3)].
Definition lexicalHigh : JsMap.t num := [(js "a", IZR 2); (js "b", IZR 3)].
End ExactScenario.

(** Further inputs, over the machine arithmetic. *)
Module MoreScenarios.
#[local] Existing Instance Double.arith.

(** A pool of one document that shares no token with the query "tea". *)
Definition coffee : Doc.t := Doc.mk (js "d1") (js "Coffee beans, 2 kg") None.

(** The filter [{year: 0, category: ''}]. *)
Definition falsy : HybridFilter.t :=
  HybridFilter.mk (Some 0%Z) None (Some []) None None.

(** A store of one chunk that carries a page number. *)
Definition pagedChunk : VectorChunk.t :=
  VectorChunk.mk (js "a") (js "a") (Scenario.vec [1; 0]%Z)
                 (Some 7%Z) (Some 120%Z) (Some 30%Z) None.
Definition idb : IdbStore.t :=
  IdbStore.mk (Normal tt)
              (Normal (Some (IDBMeta.mk (js "mxbai-embed-large:latest") 2
                                        (js "2025-10-18"))))
              (Normal [pagedChunk]).

(** A corpus of summaries in which two chunks have one id, as
    build-transactions-rag.js names the summaries of the categories
    [income_salary] and [income_taxi] of one month. *)
Definition repeated : VectorIndex.t :=
  Scenario.index [Scenario.chunk "sum_2024-01_income" "salary" [1; 0];
                  Scenario.chunk "sum_2024-01_income" "taxi" [1; 0]]%Z.


(** Constraints on the year 2024, and the same as a filter of the hybrid
    retriever. *)
Definition in2024 : ChatPage.Constraints.t :=
  ChatPage.Constraints.mk (Some 2024%Z) None None None.
Definition filter2024 : HybridFilter.t :=
  HybridFilter.mk (Some 2024%Z) None None None None.
End MoreScenarios.

(* ================================================================== *)
(** * Properties *)

Unset Implicit Arguments.

(** ** The tokenizer *)

Section TokenizeFacts.
Import Hybrid.
Variable toLowerCase : jsstring -> jsstring.


Lemma space_32 : isSpace 32 = true.
Proof. vm_compute. reflexivity. Qed.

Lemma consHead_concat (c : N) (ps : list jsstring) :
  concat (consHead c ps) = c :: concat ps.
Proof. destruct ps; reflexivity. Qed.

Lemma concat_nonEmpty (ps : list jsstring) :
  concat (filter nonEmpty ps) = concat ps.
Proof.
  induction ps as [|p ps IH]; [reflexivity|].
  destruct p; simpl; [exact IH | now rewrite IH].
Qed.

Lemma splitSpaces_concat (s : jsstring) :
  forall inRun,
    concat (splitSpaces inRun s) = filter (fun c => negb (isSpace c)) s.
Proof.
  induction s as [|c r IH]; intros inRun; [reflexivity|].
  simpl. destruct (isSpace c); simpl.
  - destruct inRun; simpl; apply IH.
  - rewrite consHead_concat. now rewrite IH.
Qed.

Lemma splitSpaces_pieces (P : N -> Prop) (s : jsstring) :
  Forall (fun c => isSpace c = true \/ P c) s ->
  forall inRun, Forall (Forall P) (splitSpaces inRun s).
Proof.
  induction 1 as [|c r Hc _ IH]; intros inRun; simpl.
  - repeat constructor.
  - destruct (isSpace c) eqn:Hs.
    + destruct inRun; [apply IH | constructor; [constructor | apply IH]].
    + destruct Hc as [Hc|Hc]; [congruence|].
      specialize (IH false). destruct (splitSpaces false r); simpl.
      * repeat constructor; assumption.
      * inversion IH; subst. constructor; [constructor|]; assumption.
Qed.








End TokenizeFacts.


(* ================================================================== *)
(** ** The metadata filter *)

(** C1: the code at the scenario of the claim.  With the filter
    [{month: 1}] the document without metadata is dropped together with
    the February document, whether its metadata is missing or is the
    empty object: [undefined !== 1] holds, and the tests of [year] and
    [month] have no guard on the document's field. *)
Theorem applyFilter_month_scenario :
  Hybrid.applyFilter
    [Scenario.january; Scenario.february; Scenario.untagged]
    (Some Scenario.monthOne) = [Scenario.january]
  /\ Hybrid.applyFilter
       [Scenario.january; Scenario.february; Scenario.emptyTagged]
       (Some Scenario.monthOne) = [Scenario.january].
Proof. split; reflexivity. Qed.

Lemma guard_two (a b rest : bool) (P : Prop) :
  (rest = true <-> P) ->
  (if a && b then false else rest) = true <-> (a = false \/ b = false) /\ P.
Proof. destruct a, b; simpl; intuition congruence. Qed.

Lemma guard_three (a b c rest : bool) (P : Prop) :
  (rest = true <-> P) ->
  (if a && b && c then false else rest) = true
  <-> (a = false \/ b = false \/ c = false) /\ P.
Proof. destruct a, b, c; simpl; intuition congruence. Qed.

(** What the predicate of the filter computes, field by field: [year] and
    [month] must be equal to a set constraint; [category], [merchant] and
    [currency] may also be absent (or falsy) in the document. *)
Lemma passes_fields (f : HybridFilter.t) (d : Doc.t) :
  let m := orDefault (Doc.metadata d) Metadata.empty in
  Hybrid.passes f d = true <->
  (Hybrid.numberSet (HybridFilter.year f) = false
   \/ differsFromNumber (Metadata.year m)
                        (orDefault (HybridFilter.year f) 0%Z) = false)
  /\ (Hybrid.numberSet (HybridFilter.month f) = false
      \/ differsFromNumber (Metadata.month m)
                           (orDefault (HybridFilter.month f) 0%Z) = false)
  /\ (Hybrid.stringSet (HybridFilter.category f) = false
      \/ valueTruthy (Metadata.category_lvl1 m) = false
      \/ differsFromString (Metadata.category_lvl1 m)
                           (orDefault (HybridFilter.category f) []) = false)
  /\ (Hybrid.stringSet (HybridFilter.merchant f) = false
      \/ valueTruthy (Metadata.merchant m) = false
      \/ differsFromString (Metadata.merchant m)
                           (orDefault (HybridFilter.merchant f) []) = false)
  /\ (Hybrid.stringSet (HybridFilter.currency f) = false
      \/ valueTruthy (Metadata.currency m) = false
      \/ differsFromString (Metadata.currency m)
                           (orDefault (HybridFilter.currency f) []) = false).
Proof.
  unfold Hybrid.passes. cbv zeta.
  do 2 (apply guard_two).
  do 2 (apply guard_three).
  destruct (Hybrid.stringSet _), (valueTruthy _), (differsFromString _ _);
    simpl; intuition congruence.
Qed.

(* ================================================================== *)
(** ** Failures of the embedding service *)

Section EmbeddingFailures.
Context `{Arith}.
Variable toLowerCase : jsstring -> jsstring.
Variable Math_log : num -> num.
Variable toFixed3 : num -> jsstring.
Variable fetch : jsstring -> Completion Response.t.

Lemma hybrid_embed_returns (text : jsstring) :
  exists v, Hybrid.embed fetch text = Normal v.
Proof.
  unfold Hybrid.embed, tryCatch, bind.
  destruct (fetch text) as [res|]; [|now eexists].
  destruct (negb (Response.ok res)); [now eexists|].
  destruct (Response.json res); now eexists.
Qed.

Lemma hybrid_embed_fails (text : jsstring) :
  embeddingFails fetch text -> Hybrid.embed fetch text = Normal None.
Proof.
  unfold embeddingFails, Hybrid.embed, tryCatch, bind.
  destruct (fetch text) as [res|]; [|reflexivity].
  intros [Hok | [Hj | Hj]].
  - now rewrite Hok.
  - rewrite Hj. now destruct (negb (Response.ok res)).
  - rewrite Hj. now destruct (negb (Response.ok res)).
Qed.

(** A retriever that was never loaded finds nothing. *)
Lemma hybrid_search_unloaded (query : jsstring)
      (filter_ : option HybridFilter.t) (k : option Z) :
  Hybrid.search toLowerCase Math_log fetch Hybrid.initial query filter_ k
  = Normal [].
Proof. reflexivity. Qed.

(** C6.  When the embedding service fails for the query (transport
    error, non-success response, unreadable body or missing vector),
    [HybridRetriever.search] completes normally with the empty list. *)
Theorem hybrid_search_fails_closed
        (this : Hybrid.t) (query : jsstring)
        (filter_ : option HybridFilter.t) (k : option Z) :
  embeddingFails fetch query ->
  Hybrid.search toLowerCase Math_log fetch this query filter_ k = Normal [].
Proof.
  intros Hfail. unfold Hybrid.search.
  destruct (Hybrid.txDb this); [|reflexivity].
  destruct (Hybrid.sumDb this); [|reflexivity].
  now rewrite (hybrid_embed_fails _ Hfail).
Qed.

Lemma retriever_embed_returns (text : jsstring) :
  exists v, Retriever.embed fetch text = Normal v.
Proof.
  unfold Retriever.embed, tryCatch, bind.
  destruct (fetch (Retriever.clean text)) as [res|]; [|now eexists].
  destruct (negb (Response.ok res)); [now eexists|].
  destruct (Response.json res); now eexists.
Qed.

(** C9.  [Retriever.retrieve] never throws; it returns [null] exactly
    when no index is loaded or no embedding of the query is obtained,
    and a result object exactly when an index is loaded and an embedding
    is obtained. *)
Theorem retrieve_null_iff
        (this : Retriever.t) (query : jsstring)
        (options : RetrieveOptions.t) :
  let outcome := Retriever.retrieve fetch toFixed3 this query options in
  outcome <> Throw
  /\ (outcome = Normal None <->
      Retriever.db this = None
      \/ Retriever.embed fetch query = Normal None)
  /\ ((exists r, outcome = Normal (Some r)) <->
      exists db qEmb,
        Retriever.db this = Some db
        /\ Retriever.embed fetch query = Normal (Some qEmb)).
Proof.
  cbv zeta. unfold Retriever.retrieve.
  destruct (Retriever.db this) as [db|].
  - destruct (retriever_embed_returns query) as [[qEmb|] ->]; simpl.
    + split; [discriminate|]. split.
      * split; [discriminate | intros [?|?]; discriminate].
      * split; [intros _; now exists db, qEmb | intros _; now eexists].
    + split; [discriminate|]. split.
      * split; [now right | reflexivity].
      * split; [intros [r Hr]; discriminate
               | intros (d & v & _ & Hv); discriminate].
  - split; [discriminate|]. split.
    + split; [now left | reflexivity].
    + split; [intros [r Hr]; discriminate
             | intros (d & v & Hd & _); discriminate].
Qed.

End EmbeddingFailures.

(** C6 at an instance: the service rejects every request. *)
Lemma hybrid_search_fails_closed_witness :
  @embeddingFails Double.arith (fun _ => Throw) (js "coffee in march")
  /\ @Hybrid.search Double.arith Hybrid.toLowerCaseBasic (fun x => x)
                    (fun _ => Throw)
                    (Hybrid.load Scenario.axes Scenario.axes)
                    (js "coffee in march") (Some Scenario.monthOne) None
     = Normal [].
Proof.
  split; [exact I|].
  apply (@hybrid_search_fails_closed Double.arith); exact I.
Defined.

(* ================================================================== *)
(** ** Context assembly *)

Section Assembly.
Context `{Arith}.
Variable toFixed3 : num -> jsstring.

Lemma assemble_cons (maxContextChars : Z) (i : nat) (used : Z)
      (r : SearchResultItem.t) (rest : list SearchResultItem.t) :
  Retriever.assemble toFixed3 maxContextChars i used (r :: rest)
  = if (used + Z.of_nat (length (Retriever.block toFixed3 i r))
        >? maxContextChars)%Z
    then []
    else Retriever.block toFixed3 i r
         :: Retriever.assemble
              toFixed3 maxContextChars (S i)
              (used + Z.of_nat (length (Retriever.block toFixed3 i r)))
              rest.
Proof. reflexivity. Qed.

(** The lines assembled are the first blocks of the results, each one
    whole. *)
Lemma assemble_whole_blocks (maxContextChars : Z)
      (results : list SearchResultItem.t) :
  forall i used,
    let lines := Retriever.assemble toFixed3 maxContextChars i used results in
    lines = firstn (length lines) (blocksFrom toFixed3 i results).
Proof.
  induction results as [|r rest IH]; intros i used; [reflexivity|].
  cbv zeta. rewrite assemble_cons. cbn [blocksFrom].
  destruct (_ >? _)%Z; [reflexivity|].
  cbn [length firstn]. f_equal. apply IH.
Qed.

(** The blocks alone stay within the budget that is left. *)
Lemma assemble_budget (maxContextChars : Z)
      (results : list SearchResultItem.t) :
  forall i used,
    (used <= maxContextChars)%Z ->
    (used + totalLength
              (Retriever.assemble toFixed3 maxContextChars i used results)
     <= maxContextChars)%Z.
Proof.
  induction results as [|r rest IH]; intros i used Hused; [simpl; lia|].
  rewrite assemble_cons.
  destruct (_ >? _)%Z eqn:Hcmp; [simpl; lia|].
  rewrite Z.gtb_ltb, Z.ltb_ge in Hcmp.
  specialize (IH (S i) _ Hcmp).
  change (totalLength (?b :: ?l)) with (Z.of_nat (length b) + totalLength l)%Z.
  lia.
Qed.

(** The separators come on top of the blocks. *)
Lemma join_length (sep : jsstring) (lines : list jsstring) :
  Z.of_nat (length (join sep lines))
  = (totalLength lines
     + Z.of_nat (length sep) * Z.of_nat (length lines - 1))%Z.
Proof.
  induction lines as [|l rest IH]; [simpl; lia|].
  destruct rest as [|l' rest'].
  - simpl. lia.
  - change (join sep (l :: l' :: rest'))
      with (l ++ sep ++ join sep (l' :: rest')).
    rewrite !length_app, !Nat2Z.inj_add, IH.
    change (totalLength (l :: l' :: rest'))
      with (Z.of_nat (length l) + totalLength (l' :: rest'))%Z.
    replace (length (l :: l' :: rest') - 1)%nat with (S (length rest'))
      by (cbn [length]; lia).
    replace (length (l' :: rest') - 1)%nat with (length rest')
      by (cbn [length]; lia).
    rewrite Nat2Z.inj_succ, Z.mul_succ_r. lia.
Qed.

(** What [retrieve] guarantees of the context: it is the join of the
    first [n] blocks of the results, each one whole; the blocks alone
    stay within a non-negative [maxContextChars]; the context is longer
    than the blocks by the two characters of each separator. *)
Lemma retrieve_context_blocks
      (fetch : jsstring -> Completion Response.t) (this : Retriever.t)
      (query : jsstring) (options : RetrieveOptions.t)
      (r : RetrieveResult.t) :
  Retriever.retrieve fetch toFixed3 this query options = Normal (Some r) ->
  let maxContextChars :=
    orDefault (RetrieveOptions.maxContextChars options) 2000%Z in
  exists n,
    let lines :=
      firstn n (blocksFrom toFixed3 0 (RetrieveResult.chunks r)) in
    RetrieveResult.context r = join [10%N; 10%N] lines
    /\ ((0 <= maxContextChars)%Z ->
        (totalLength lines <= maxContextChars)%Z)
    /\ Z.of_nat (length (RetrieveResult.context r))
       = (totalLength lines + 2 * Z.of_nat (length lines - 1))%Z.
Proof.
  unfold Retriever.retrieve. destruct (Retriever.db this) as [db|];
    [|discriminate].
  destruct (Retriever.embed fetch query) as [[qEmb|]|]; cbn [bind];
    try discriminate.
  intros [= <-]. cbv zeta. cbn [RetrieveResult.context RetrieveResult.chunks].
  set (maxc := orDefault (RetrieveOptions.maxContextChars options) 2000%Z).
  set (results := VectorDB.search db qEmb _).
  exists (length (Retriever.assemble toFixed3 maxc 0 0 results)).
  rewrite <- (assemble_whole_blocks maxc results 0 0%Z).
  split; [reflexivity|]. split.
  - intros Hmax. pose proof (assemble_budget maxc results 0 0%Z Hmax). lia.
  - rewrite join_length. cbn [length]. lia.
Qed.

End Assembly.

(** C2: the code at a failing input.  Two chunks whose blocks are 26
    characters long and a cap of 52: both blocks pass the test
    [used + block.length > maxContextChars], which leaves the separator
    of [join] out, and the context is 54 characters long. *)
Theorem retrieve_context_over_cap :
  let outcome :=
    Retriever.retrieve (Scenario.answers [1; 0]%Z) Double.toFixed3
                       (Retriever.mk (Some (VectorDB.new Scenario.twins)))
                       (js "q") Scenario.cap52 in
  RetrieveOptions.maxContextChars Scenario.cap52 = Some 52%Z
  /\ contextOf outcome
     = Some (js "Источник 1 — score 1.000" ++ [10%N] ++ js "a"
             ++ [10%N; 10%N]
             ++ js "Источник 2 — score 1.000" ++ [10%N] ++ js "b")
  /\ option_map (@length N) (contextOf outcome) = Some 54.
Proof. split; [reflexivity|]. split; vm_compute; reflexivity. Qed.

(* ================================================================== *)
(** ** Arrays, maps and sorting *)

Section ListFacts.
Context {A : Type}.

Lemma firstn_incl (n : nat) (l : list A) : incl (firstn n l) l.
Proof.
  revert l. induction n as [|n IH]; intros [|x l] y Hy; simpl in *;
    try contradiction.
  destruct Hy as [->|Hy]; [now left | right; now apply IH].
Qed.

Lemma firstn_NoDup (n : nat) (l : list A) : NoDup l -> NoDup (firstn n l).
Proof.
  revert l. induction n as [|n IH]; intros [|x l] Hl; simpl;
    try constructor.
  - inversion Hl; subst. intros Hin. now apply firstn_incl in Hin.
  - inversion Hl; subst. now apply IH.
Qed.

Lemma slice0_firstn (l : list A) (e : Z) :
  exists n, JsArray.slice0 l e = firstn n l.
Proof. unfold JsArray.slice0. destruct (e <? 0)%Z; eexists; reflexivity. Qed.

Lemma slice0_incl (l : list A) (e : Z) : incl (JsArray.slice0 l e) l.
Proof. destruct (slice0_firstn l e) as [n ->]. apply firstn_incl. Qed.

Lemma slice0_NoDup (l : list A) (e : Z) :
  NoDup l -> NoDup (JsArray.slice0 l e).
Proof. destruct (slice0_firstn l e) as [n ->]. apply firstn_NoDup. Qed.

Lemma slice0_map {B : Type} (f : A -> B) (l : list A) (e : Z) :
  map f (JsArray.slice0 l e) = JsArray.slice0 (map f l) e.
Proof.
  unfold JsArray.slice0. rewrite length_map.
  destruct (e <? 0)%Z; symmetry; apply firstn_map.
Qed.
End ListFacts.

Section SortFacts.
Context `{Arith} {A : Type}.
Variable compareFn : A -> A -> num.

Lemma insert_perm (x : A) (l : list A) :
  Permutation (JsArray.insert compareFn x l) (x :: l).
Proof.
  induction l as [|y r IH]; simpl; [reflexivity|].
  destruct (_ <? _)%J; [|reflexivity].
  rewrite IH. apply perm_swap.
Qed.

Lemma sort_perm (l : list A) : Permutation (JsArray.sort compareFn l) l.
Proof.
  induction l as [|x l IH]; simpl; [reflexivity|].
  rewrite insert_perm. now constructor.
Qed.

Lemma sort_In (l : list A) (x : A) :
  In x (JsArray.sort compareFn l) <-> In x l.
Proof.
  split; apply Permutation_in;
    [apply sort_perm | symmetry; apply sort_perm].
Qed.

Lemma sort_NoDup_map {B : Type} (f : A -> B) (l : list A) :
  NoDup (map f l) -> NoDup (map f (JsArray.sort compareFn l)).
Proof.
  apply Permutation_NoDup, Permutation_map. symmetry. apply sort_perm.
Qed.
End SortFacts.

Lemma eqb_eq (a b : jsstring) : JsString.eqb a b = true <-> a = b.
Proof.
  unfold JsString.eqb. destruct (list_eq_dec N.eq_dec a b); split;
    congruence.
Qed.

Lemma hasNat_false (s : list nat) (i : nat) :
  JsSet.hasNat s i = false <-> ~ In i s.
Proof.
  unfold JsSet.hasNat. split.
  - intros Hf Hin. apply not_true_iff_false in Hf. apply Hf.
    apply existsb_exists. exists i. split; [assumption | apply Nat.eqb_refl].
  - intros Hn. apply not_true_iff_false. intros Ht.
    apply existsb_exists in Ht. destruct Ht as [j [Hj Heq]].
    apply Nat.eqb_eq in Heq. now subst.
Qed.

Lemma has_false (s : list jsstring) (k : jsstring) :
  JsSet.has s k = false <-> ~ In k s.
Proof.
  unfold JsSet.has. split.
  - intros Hf Hin. apply not_true_iff_false in Hf. apply Hf.
    apply existsb_exists. exists k. split; [assumption | now apply eqb_eq].
  - intros Hn. apply not_true_iff_false. intros Ht.
    apply existsb_exists in Ht. destruct Ht as [j [Hj Heq]].
    apply eqb_eq in Heq. now subst.
Qed.

Section MapFacts.
Context {V : Type}.

Lemma set_keys_In (m : JsMap.t V) (k : jsstring) (v : V) (x : jsstring) :
  In x (JsMap.keys (JsMap.set m k v)) -> x = k \/ In x (JsMap.keys m).
Proof.
  induction m as [|[k' v'] r IH]; simpl.
  - intros [<-|[]]. now left.
  - destruct (JsString.eqb k' k); simpl; [tauto|].
    intros [<-|Hin]; [tauto|]. destruct (IH Hin); tauto.
Qed.

Lemma set_keys_NoDup (m : JsMap.t V) (k : jsstring) (v : V) :
  NoDup (JsMap.keys m) -> NoDup (JsMap.keys (JsMap.set m k v)).
Proof.
  induction m as [|[k' v'] r IH]; simpl; intros Hm.
  - repeat constructor. intros [].
  - inversion Hm; subst.
    destruct (JsString.eqb k' k) eqn:Hk; simpl; [now constructor|].
    constructor; [|now apply IH].
    intros Hin. apply set_keys_In in Hin. destruct Hin as [->|Hin].
    + assert (JsString.eqb k k = true) by now apply eqb_eq. congruence.
    + contradiction.
Qed.
End MapFacts.

(* ================================================================== *)
(** ** The shape of a vector search, for every arithmetic *)

Section SearchShape.
Context `{Arith}.
Import VectorDB.

Lemma new_fold (chunks : list VectorChunk.t) :
  forall this,
    let db :=
      fold_left
        (fun this ch =>
           let arr := Float32Array (VectorChunk.embedding ch) in
           let norm := normalize arr in
           {| dims := dims this;
              texts := texts this ++ [VectorChunk.text ch];
              ids := ids this ++ [VectorChunk.id ch];
              pages := pages this ++ [VectorChunk.page ch];
              offsets := offsets this ++ [VectorChunk.offset ch];
              tokens := tokens this ++ [VectorChunk.tokens ch];
              embs := embs this ++ [norm] |})
        chunks this in
    ids db = ids this ++ map VectorChunk.id chunks
    /\ embs db
       = embs this
         ++ map (fun ch => normalize (Float32Array (VectorChunk.embedding ch)))
                chunks.
Proof.
  induction chunks as [|ch rest IH]; intros this; cbv zeta.
  - simpl. now rewrite !app_nil_r.
  - cbn [fold_left map]. destruct (IH
      {| dims := dims this;
         texts := texts this ++ [VectorChunk.text ch];
         ids := ids this ++ [VectorChunk.id ch];
         pages := pages this ++ [VectorChunk.page ch];
         offsets := offsets this ++ [VectorChunk.offset ch];
         tokens := tokens this ++ [VectorChunk.tokens ch];
         embs := embs this
                 ++ [normalize (Float32Array (VectorChunk.embedding ch))] |})
      as [Hids Hembs].
    cbv zeta in Hids, Hembs. rewrite Hids, Hembs. cbn [ids embs].
    now rewrite <- !app_assoc.
Qed.

Lemma new_ids (index : VectorIndex.t) :
  ids (new index) = map VectorChunk.id (VectorIndex.chunks index).
Proof.
  exact (proj1 (new_fold (VectorIndex.chunks index)
                         {| dims := VectorIndex.dims index; texts := [];
                            ids := []; pages := []; offsets := [];
                            tokens := []; embs := [] |})).
Qed.

Lemma new_embs (index : VectorIndex.t) :
  embs (new index)
  = map (fun ch => normalize (Float32Array (VectorChunk.embedding ch)))
        (VectorIndex.chunks index).
Proof.
  exact (proj2 (new_fold (VectorIndex.chunks index)
                         {| dims := VectorIndex.dims index; texts := [];
                            ids := []; pages := []; offsets := [];
                            tokens := []; embs := [] |})).
Qed.

Variable this : t.
Variable scores : list num.


Lemma candidates_range (minScore : num) (topK : Z) (i : nat) :
  In i (candidates scores minScore topK) -> i < length scores.
Proof.
  unfold candidates.
  set (above := filter _ _). destruct (length above =? 0)%nat eqn:Hlen.
  - apply Nat.eqb_eq, length_zero_iff_nil in Hlen. rewrite Hlen. simpl.
    intros Hin. apply slice0_incl, sort_In, in_seq in Hin. lia.
  - intros Hin. apply filter_In in Hin. destruct Hin as [Hin _].
    apply in_seq in Hin. lia.
Qed.

Variable mmrLambda : num.
Variable cands : list nat.

Lemma scan_fresh (selected : list nat) (l : list nat) :
  forall best,
    incl l cands ->
    (forall b, fst best = Some b -> In b cands /\ ~ In b selected) ->
    forall b,
      fst (fold_left (scanStep this scores mmrLambda selected) l best)
      = Some b ->
      In b cands /\ ~ In b selected.
Proof.
  induction l as [|i r IH]; intros best Hincl Hbest b; simpl; [apply Hbest|].
  apply IH.
  - intros x Hx. apply Hincl. now right.
  - unfold scanStep. destruct (JsSet.hasNat selected i) eqn:Hsel;
      [exact Hbest|].
    destruct (improves _ _); [|exact Hbest].
    simpl. intros b' [= <-]. split.
    + apply Hincl. now left.
    + now apply hasNat_false.
Qed.

Lemma pickBest_fresh (selected : list nat) (b : nat) :
  pickBest this scores mmrLambda cands selected = Some b ->
  In b cands /\ ~ In b selected.
Proof.
  unfold pickBest. apply scan_fresh; [apply incl_refl|].
  simpl. discriminate.
Qed.

Lemma selectMMR_shape (slots : nat) :
  forall selected,
    NoDup selected ->
    incl selected cands ->
    NoDup (selectMMR this scores mmrLambda cands slots selected)
    /\ incl (selectMMR this scores mmrLambda cands slots selected) cands.
Proof.
  induction slots as [|slots IH]; intros selected Hnd Hincl; simpl;
    [now split|].
  destruct (length cands =? 0)%nat; [now split|].
  destruct (pickBest _ _ _ _ _) as [b|] eqn:Hpick; [|now split].
  apply pickBest_fresh in Hpick. destruct Hpick as [Hin Hfresh].
  apply IH.
  - apply NoDup_app; [assumption | repeat constructor; intros [] |].
    intros a Ha [<-|[]]. contradiction.
  - intros x Hx. apply in_app_or in Hx. destruct Hx as [Hx|[<-|[]]];
      [now apply Hincl | assumption].
Qed.

End SearchShape.

Section SearchIds.
Context `{Arith}.
Import VectorDB.

Lemma searchIndices_shape (this : t) (scores : list num) (topK : Z)
      (minScore mmrLambda : num) :
  NoDup (searchIndices this scores topK minScore mmrLambda)
  /\ forall i, In i (searchIndices this scores topK minScore mmrLambda) ->
               i < length scores.
Proof.
  unfold searchIndices.
  destruct (selectMMR_shape this scores mmrLambda
              (candidates scores minScore topK) (Z.to_nat topK) [])
    as [Hnd Hincl]; [constructor | intros x [] |].
  split.
  - apply (Permutation_NoDup (l := selectMMR this scores mmrLambda
              (candidates scores minScore topK) (Z.to_nat topK) []));
      [symmetry; apply sort_perm | assumption].
  - intros i Hi. apply sort_In, Hincl in Hi.
    now apply candidates_range in Hi.
Qed.

Lemma search_ids (this : t) (q : list num) (options : SearchOptions.t) :
  exists indices,
    map SearchResultItem.id (search this q options)
    = map (fun i => nth i (ids this) []) indices
    /\ NoDup indices
    /\ forall i, In i indices -> i < length (embs this).
Proof.
  unfold search. eexists. split; [|split].
  - rewrite map_map. reflexivity.
  - apply searchIndices_shape.
  - intros i Hi. apply searchIndices_shape in Hi.
    unfold similarities in Hi. now rewrite length_map in Hi.
Qed.

(** A search in a corpus of distinct ids returns distinct ids, all of
    the corpus. *)
Lemma search_distinct (index : VectorIndex.t) (q : list num)
      (options : SearchOptions.t) :
  NoDup (map VectorChunk.id (VectorIndex.chunks index)) ->
  NoDup (map SearchResultItem.id (search (new index) q options)).
Proof.
  intros Hids.
  destruct (search_ids (new index) q options) as (ix & -> & Hnd & Hlt).
  rewrite new_ids. rewrite new_embs, length_map in Hlt.
  set (l := map VectorChunk.id (VectorIndex.chunks index)) in *.
  assert (Hlen : length l = length (VectorIndex.chunks index))
    by apply length_map.
  clear - Hids Hnd Hlt Hlen. induction ix as [|i ix IH]; [constructor|].
  inversion Hnd; subst. simpl. constructor.
  - intros Hin. apply in_map_iff in Hin. destruct Hin as [j [Hj Hjin]].
    assert (j = i).
    { apply (proj1 (NoDup_nth l []) Hids); rewrite ?Hlen;
        [apply Hlt; now right | apply Hlt; now left | assumption]. }
    now subst.
  - apply IH; [assumption|]. intros j Hj. apply Hlt. now right.
Qed.

End SearchIds.

(* ================================================================== *)
(** ** Fusion and the hybrid search, for every arithmetic *)

Section HybridShape.
Context `{Arith}.
Variable toLowerCase : jsstring -> jsstring.
Variable Math_log : num -> num.
Variable fetch : jsstring -> Completion Response.t.
Import Hybrid.

Lemma fold_set_NoDup {D : Type} (key : D -> jsstring) (value : D -> num)
      (docs : list D) :
  forall scores : JsMap.t num,
    NoDup (JsMap.keys scores) ->
    NoDup (JsMap.keys
             (fold_left
                (fun scores d =>
                   if truthy (value d)
                   then JsMap.set scores (key d) (value d)
                   else scores)
                docs scores)).
Proof.
  induction docs as [|d rest IH]; intros scores Hnd; simpl; [assumption|].
  apply IH. destruct (truthy (value d)); [|assumption].
  now apply set_keys_NoDup.
Qed.

(** The lexical scores have one entry per document id. *)
Lemma bm25Score_keys (query : jsstring) (docs : list Doc.t) :
  NoDup (JsMap.keys (bm25Score toLowerCase Math_log query docs)).
Proof.
  unfold bm25Score.
  destruct (length (tokenize toLowerCase query) =? 0)%nat; [constructor|].
  destruct (fold_left (recordDoc toLowerCase) docs ([], [])) as [tf df].
  apply (fold_set_NoDup Doc.id). constructor.
Qed.

Lemma findDoc_some (pool : list Doc.t) (id : jsstring) (d : Doc.t) :
  findDoc pool id = Some d -> In d pool /\ Doc.id d = id.
Proof.
  unfold findDoc. intros Hf. apply find_some in Hf.
  destruct Hf as [Hin Heq]. now apply eqb_eq in Heq.
Qed.

Lemma NoDup_keyOf (l : list HybridResultItem.t) :
  NoDup (map HybridResultItem.id l) -> NoDup (map keyOf l).
Proof.
  induction l as [|x l IH]; simpl; intros Hnd; [constructor|].
  inversion Hnd; subst. constructor; [|now apply IH].
  intros Hin. apply in_map_iff in Hin. destruct Hin as [y [Hy Hyin]].
  apply H2. apply in_map_iff. exists y. split; [|assumption].
  unfold keyOf in Hy. congruence.
Qed.

Lemma dense_filtered_ids (pool : list Doc.t)
      (dense : list SearchResultItem.t) :
  NoDup (map SearchResultItem.id dense) ->
  NoDup (map SearchResultItem.id (filter (inPool pool) dense)).
Proof.
  induction dense as [|d rest IH]; cbn [map filter]; intros Hids;
    [constructor|].
  apply NoDup_cons_iff in Hids. destruct Hids as [Hfresh Hrest].
  destruct (inPool pool d); cbn [map]; [|now apply IH].
  apply NoDup_cons; [|now apply IH].
  rewrite in_map_iff. intros (d' & Hd' & Hin).
  apply filter_In in Hin. apply Hfresh.
  rewrite in_map_iff. exists d'. tauto.
Qed.

Section Fuse.
Variable k : Z.
Variables txPool sumPool : list Doc.t.
Variable source : Source.

Let pool : list Doc.t :=
  match source with
  | transaction => txPool
  | summary => sumPool
  end.

Lemma fuseLexical_item (bmMax : num) (seen : list jsstring)
      (entry : jsstring * num) (it : HybridResultItem.t) :
  In it (fuseLexical bmMax pool seen source entry) ->
  HybridResultItem.id it = fst entry
  /\ HybridResultItem.source it = source
  /\ ~ In (fst entry) seen
  /\ exists d, In d pool /\ Doc.id d = HybridResultItem.id it.
Proof.
  unfold fuseLexical. destruct entry as [id bms].
  destruct (JsSet.has seen id) eqn:Hseen; [intros []|].
  destruct (findDoc pool id) as [doc|] eqn:Hdoc; [|intros []].
  intros [<-|[]]. simpl. apply has_false in Hseen.
  apply findDoc_some in Hdoc. repeat split; try assumption.
  now exists doc.
Qed.

Lemma fuseLexical_short (bmMax : num) (seen : list jsstring)
      (entry : jsstring * num) :
  NoDup (map HybridResultItem.id
             (fuseLexical bmMax pool seen source entry)).
Proof.
  unfold fuseLexical. destruct entry as [id bms].
  destruct (JsSet.has seen id); [constructor|].
  destruct (findDoc pool id); simpl; repeat constructor. intros [].
Qed.

Lemma lexical_ids (bmMax : num) (seen : list jsstring)
      (bmOnly : list (jsstring * num)) :
  NoDup (map fst bmOnly) ->
  NoDup (map HybridResultItem.id
             (flat_map (fuseLexical bmMax pool seen source) bmOnly)).
Proof.
  induction bmOnly as [|e r IH]; simpl; intros Hnd; [constructor|].
  inversion Hnd; subst. rewrite map_app.
  apply NoDup_app; [apply fuseLexical_short | now apply IH |].
  intros a Ha Hr. apply in_map_iff in Ha. destruct Ha as [x [<- Hx]].
  apply fuseLexical_item in Hx. destruct Hx as [Hid _].
  apply in_map_iff in Hr. destruct Hr as [y [Hy Hyin]].
  apply in_flat_map in Hyin. destruct Hyin as [e' [He' Hy']].
  apply fuseLexical_item in Hy'. destruct Hy' as [Hid' _].
  apply H2. apply in_map_iff. exists e'. split; [congruence | assumption].
Qed.

Variable items : list SearchResultItem.t.
Variable bm : JsMap.t num.

Lemma fuse_In (it : HybridResultItem.t) :
  In it (fuse k txPool sumPool items bm source) ->
  HybridResultItem.source it = source
  /\ ((exists d, In d items
                 /\ HybridResultItem.id it = SearchResultItem.id d)
      \/ (~ In (HybridResultItem.id it) (map SearchResultItem.id items)
          /\ exists d, In d pool /\ Doc.id d = HybridResultItem.id it)).
Proof.
  unfold fuse. intros Hin. apply in_app_or in Hin.
  destruct Hin as [Hin|Hin].
  - apply in_map_iff in Hin. destruct Hin as [d [<- Hd]]. simpl.
    split; [reflexivity|]. left. now exists d.
  - apply in_flat_map in Hin. destruct Hin as [e [_ He]].
    apply fuseLexical_item in He.
    destruct He as (Hid & Hsrc & Hseen & Hdoc).
    split; [assumption|]. right.
    split; [rewrite Hid; exact Hseen | exact Hdoc].
Qed.

Lemma fuse_ids :
  NoDup (map SearchResultItem.id items) ->
  NoDup (JsMap.keys bm) ->
  NoDup (map HybridResultItem.id
             (fuse k txPool sumPool items bm source)).
Proof.
  intros Hitems Hbm. unfold fuse. rewrite map_app, map_map. simpl.
  apply NoDup_app.
  - exact Hitems.
  - apply lexical_ids. rewrite slice0_map. apply slice0_NoDup.
    apply sort_NoDup_map. exact Hbm.
  - intros a Ha Hl. apply in_map_iff in Hl. destruct Hl as [x [<- Hx]].
    apply in_flat_map in Hx. destruct Hx as [e [_ He]].
    apply fuseLexical_item in He. destruct He as (Hid & _ & Hseen & _).
    apply Hseen. now rewrite <- Hid.
Qed.
End Fuse.

Lemma inPool_doc (pool : list Doc.t) (d : SearchResultItem.t) :
  inPool pool d = true ->
  exists doc, In doc pool /\ Doc.id doc = SearchResultItem.id d.
Proof.
  unfold inPool. destruct (findDoc pool _) as [doc|] eqn:Hdoc;
    [|discriminate].
  intros _. apply findDoc_some in Hdoc. now exists doc.
Qed.

(** C10, as amended.  After [load] of two corpora whose chunk ids are
    distinct within each corpus, [search] completes normally, no two items of its
    result have the same id and source, and every item is a document of
    the filtered pool of its corpus. *)
Theorem hybrid_search_distinct
        (txIndex sumIndex : VectorIndex.t) (query : jsstring)
        (filter_ : option HybridFilter.t) (k : option Z) :
  NoDup (map VectorChunk.id (VectorIndex.chunks txIndex)) ->
  NoDup (map VectorChunk.id (VectorIndex.chunks sumIndex)) ->
  let this := load txIndex sumIndex in
  exists items,
    search toLowerCase Math_log fetch this query filter_ k = Normal items
    /\ NoDup (map keyOf items)
    /\ Forall
         (fun it =>
            exists doc,
              In doc (applyFilter
                        (docsOf this (HybridResultItem.source it)) filter_)
              /\ Doc.id doc = HybridResultItem.id it)
         items.
Proof.
  intros Htx Hsum this. unfold search. cbn [txDb sumDb this load].
  destruct (hybrid_embed_returns fetch query) as [[qEmb|] ->];
    cbn [bind]; [|exists []; repeat constructor].
  set (txPool := applyFilter _ filter_).
  set (sumPool := applyFilter _ filter_).
  set (options := SearchOptions.mk _ _ _).
  set (txItems := filter (inPool txPool) _).
  set (sumItems := filter (inPool sumPool) _).
  set (fusedTx := fuse _ _ _ txItems _ _).
  set (fusedSum := fuse _ _ _ sumItems _ _).
  eexists. split; [reflexivity|]. split.
  - rewrite slice0_map. apply slice0_NoDup, sort_NoDup_map.
    rewrite map_app. apply NoDup_app.
    + apply NoDup_keyOf, fuse_ids; [|apply bm25Score_keys].
      apply dense_filtered_ids. now apply search_distinct.
    + apply NoDup_keyOf, fuse_ids; [|apply bm25Score_keys].
      apply dense_filtered_ids. now apply search_distinct.
    + intros a Ha Hb.
      apply in_map_iff in Ha. destruct Ha as [x [<- Hx]].
      apply in_map_iff in Hb. destruct Hb as [y [Hy Hyin]].
      apply fuse_In in Hx. apply fuse_In in Hyin.
      unfold keyOf in Hy. destruct Hx as [Hx _], Hyin as [Hyin _].
      congruence.
  - apply Forall_forall. intros it Hit.
    apply slice0_incl, sort_In, in_app_or in Hit.
    destruct Hit as [Hit|Hit]; apply fuse_In in Hit;
      destruct Hit as [-> [[d [Hd Hid]]|[_ Hdoc]]];
      try exact Hdoc;
      apply filter_In in Hd; destruct Hd as [_ Hd];
      apply inPool_doc in Hd; destruct Hd as [doc [Hdoc Hdid]];
      exists doc; (split; [exact Hdoc | congruence]).
Qed.

End HybridShape.

(** C10 at an instance: the two corpora of the orthogonal chunks. *)
Lemma hybrid_search_distinct_witness :
  NoDup (map VectorChunk.id (VectorIndex.chunks Scenario.axes))
  /\ exists items,
       @Hybrid.search Double.arith Hybrid.toLowerCaseBasic (fun x => x)
                      (Scenario.answers [1; 0]%Z)
                      (Hybrid.load Scenario.axes Scenario.axes)
                      (js "a") None (Some 4%Z)
       = Normal items
       /\ NoDup (map keyOf items)
       /\ Forall
            (fun it =>
               exists doc,
                 In doc (Hybrid.applyFilter
                           (docsOf (Hybrid.load Scenario.axes Scenario.axes)
                                   (HybridResultItem.source it)) None)
                 /\ Doc.id doc = HybridResultItem.id it)
            items.
Proof.
  assert (Hids : NoDup (map VectorChunk.id
                            (VectorIndex.chunks Scenario.axes))).
  { vm_compute. repeat constructor; simpl; intuition discriminate. }
  split; [exact Hids|].
  exact (@hybrid_search_distinct Double.arith Hybrid.toLowerCaseBasic
           (fun x => x) (Scenario.answers [1; 0]%Z)
           Scenario.axes Scenario.axes (js "a") None (Some 4%Z) Hids Hids).
Defined.

(* ================================================================== *)
(** ** Searches on the machine arithmetic *)

Section Machine.
#[local] Existing Instance Double.arith.



(** C10, as stated, fails: nothing in [load] or [search] looks at the ids
  of a corpus, and a corpus of summaries in which two chunks have one id
  gives two items with that id and the source [summary], both from the
  dense path. *)
Lemma hybrid_search_repeats_key :
let this := Hybrid.load Scenario.apart MoreScenarios.repeated in
map VectorChunk.id (VectorIndex.chunks MoreScenarios.repeated)
= [js "sum_2024-01_income"; js "sum_2024-01_income"]
/\ keysOf (Hybrid.search Hybrid.toLowerCaseBasic (fun x => x)
                         (Scenario.answers [1; 0]%Z) this (js "q") None
                         (Some 6%Z))
   = [(js "sum_2024-01_income", summary);
      (js "sum_2024-01_income", summary);
      (js "a", transaction)].
Proof. split; vm_compute; reflexivity. Qed.

(** C8, as stated, fails: the chunk of embedding [[1, 1, 2]], queried with
  its own embedding, has the score 1 + 2^-23 = 1.00000011920928955,
  the binary32 rounding of the sum of the squares of the rounded
  coordinates. *)
Lemma search_score_above_one :
let this := VectorDB.new Scenario.single in
let q := Scenario.vec [1; 1; 2]%Z in
let options := SearchOptions.mk None None None in
map SearchResultItem.score (VectorDB.search this q options)
= [S754_finite false 4503600164241408 (-52)]
/\ (S754_finite false 4503600164241408 (-52) >? ofInt 1)%J = true.
Proof. split; vm_compute; reflexivity. Qed.

End Machine.

(* ================================================================== *)
(** ** Sorting by descending score and picking the first maximum *)

Section FirstMax.
Context `{Arith}.
Variable scores : list num.

Abbreviation sortDesc := (JsArray.sort (VectorDB.byScoreDesc scores)).
Abbreviation insertDesc :=
  (JsArray.insert (VectorDB.byScoreDesc scores)).
Abbreviation other m := (fun y : nat => negb (y =? m)%nat).

Lemma insertDesc_cons (x y : nat) (r : list nat) :
  insertDesc x (y :: r)
  = if goesBefore scores y x then y :: insertDesc x r else x :: y :: r.
Proof. reflexivity. Qed.


Lemma firstMax_None (l : list nat) : firstMax scores l = None -> l = [].
Proof.
  destruct l as [|x r]; [reflexivity|]. simpl.
  destruct (firstMax scores r) as [m|];
    [destruct (goesBefore scores m x)|]; discriminate.
Qed.







End FirstMax.

(* ================================================================== *)
(** ** Searches on exact arithmetic *)

Section ExactOrder.
#[local] Existing Instance Exact.arith.
#[local] Open Scope R_scope.
Import VectorDB.

Lemma Rltb_true (x y : R) : Exact.Rltb x y = true <-> x < y.
Proof. unfold Exact.Rltb. destruct (Rlt_dec x y); split; easy. Qed.

Lemma Rltb_false (x y : R) : Exact.Rltb x y = false <-> y <= x.
Proof.
  unfold Exact.Rltb. destruct (Rlt_dec x y); split; try easy; lra.
Qed.

Lemma Rleb_true (x y : R) : Exact.Rleb x y = true <-> x <= y.
Proof. unfold Exact.Rleb. destruct (Rle_dec x y); split; easy. Qed.

Lemma Rleb_false (x y : R) : Exact.Rleb x y = false <-> y < x.
Proof.
  unfold Exact.Rleb. destruct (Rle_dec x y); split; try easy; lra.
Qed.

Lemma Rtruthy_true (x : R) : Exact.Rtruthy x = true <-> x <> 0.
Proof. unfold Exact.Rtruthy. destruct (Req_dec_T x 0); split; easy. Qed.

Lemma Rtruthy_false (x : R) : Exact.Rtruthy x = false <-> x = 0.
Proof. unfold Exact.Rtruthy. destruct (Req_dec_T x 0); split; easy. Qed.

Variable scores : list num.

Lemma goesBefore_true (m x : nat) :
  goesBefore scores m x = true <-> at_ scores x < at_ scores m.
Proof.
  unfold goesBefore, byScoreDesc. cbn [ltb sub ofInt Exact.arith].
  rewrite Rltb_true. lra.
Qed.

Lemma goesBefore_false (m x : nat) :
  goesBefore scores m x = false <-> at_ scores m <= at_ scores x.
Proof.
  unfold goesBefore, byScoreDesc. cbn [ltb sub ofInt Exact.arith].
  rewrite Rltb_false. lra.
Qed.

Lemma descending_le (a b : nat) :
  descending scores a b <-> at_ scores b <= at_ scores a.
Proof. apply goesBefore_false. Qed.

(** The sort by descending score yields a descending list. *)
Lemma insertDesc_descending (x : nat) (l : list nat) :
  Sorted (descending scores) l ->
  Sorted (descending scores) (JsArray.insert (byScoreDesc scores) x l).
Proof.
  induction 1 as [|y r Hr IH Hhd]; [repeat constructor|].
  rewrite insertDesc_cons. destruct (goesBefore scores y x) eqn:Hyx.
  - constructor; [exact IH|].
    apply goesBefore_true in Hyx.
    destruct Hhd as [|z r' Hyz].
    + cbn. constructor. apply descending_le. lra.
    + rewrite insertDesc_cons. destruct (goesBefore scores z x);
        constructor; [exact Hyz | apply descending_le; lra].
  - constructor; [now constructor|]. constructor. exact Hyx.
Qed.

Lemma sortDesc_descending (l : list nat) :
  Sorted (descending scores) (JsArray.sort (byScoreDesc scores) l).
Proof.
  induction l as [|x r IH]; [constructor|].
  now apply insertDesc_descending.
Qed.

Variable this : t.

Lemma mmrOf_one (selected : list nat) (i : nat) :
  mmrOf this scores 1 selected i = at_ scores i.
Proof.
  unfold mmrOf. generalize (diversity this selected i). intros d.
  cbn [num mul sub ofInt Exact.arith]. ring.
Qed.

(** With [mmrLambda = 1] a scan keeps the first candidate of maximal
    score among those not selected. *)
Lemma scan_firstMax (selected : list nat) (l : list nat) :
  forall best : option nat * option num,
    best = (None, None)
    \/ (exists b, best = (Some b, Some (at_ scores b))) ->
    fst (fold_left (scanStep this scores 1 selected) l best)
    = better scores (fst best)
             (firstMax scores
                (filter (fun i => negb (JsSet.hasNat selected i)) l)).
Proof.
  induction l as [|i r IH]; intros best Hbest.
  - destruct Hbest as [->|[b ->]]; reflexivity.
  - cbn [fold_left filter]. unfold scanStep at 2.
    destruct (JsSet.hasNat selected i); cbn [negb]; [now apply IH|].
    rewrite mmrOf_one. cbn [firstMax].
    set (later := firstMax scores _) in *.
    destruct Hbest as [->|[b ->]]; cbn [snd improves aboveNegInfinity
                                            Exact.arith].
    + rewrite IH by (right; now eexists). cbn [fst better].
      destruct later as [m|]; reflexivity.
    + cbn [ltb Exact.arith]. destruct (Exact.Rltb _ _) eqn:Hbi.
      * rewrite IH by (right; now eexists). cbn [fst better].
        apply Rltb_true in Hbi.
        destruct later as [m|]; cbn [better].
        -- destruct (goesBefore scores m i) eqn:Hmi.
           ++ apply goesBefore_true in Hmi.
              assert (Hmb : goesBefore scores m b = true)
                by (apply goesBefore_true; lra).
              now rewrite Hmb.
           ++ assert (Hib : goesBefore scores i b = true)
                by (apply goesBefore_true; lra).
              now rewrite Hib.
        -- assert (Hib : goesBefore scores i b = true)
             by (apply goesBefore_true; lra).
           now rewrite Hib.
      * rewrite IH by (right; now eexists). cbn [fst better].
        apply Rltb_false in Hbi.
        destruct later as [m|]; cbn [better].
        -- destruct (goesBefore scores m i) eqn:Hmi.
           ++ reflexivity.
           ++ apply goesBefore_false in Hmi.
              assert (Hmb : goesBefore scores m b = false)
                by (apply goesBefore_false; lra).
              assert (Hib : goesBefore scores i b = false)
                by (apply goesBefore_false; lra).
              now rewrite Hmb, Hib.
        -- assert (Hib : goesBefore scores i b = false)
             by (apply goesBefore_false; lra).
           now rewrite Hib.
Qed.

Lemma pickBest_firstMax (cands selected : list nat) :
  pickBest this scores 1 cands selected
  = firstMax scores
             (filter (fun i => negb (JsSet.hasNat selected i)) cands).
Proof.
  unfold pickBest. rewrite scan_firstMax by now left. reflexivity.
Qed.

End ExactOrder.

Section SelectShape.
Context `{Arith}.
Import VectorDB.
Variable this : t.
Variable scores : list num.
Variable mmrLambda : num.
Variable cands : list nat.

Lemma scan_keeps (selected : list nat) (l : list nat) :
  forall best,
    fst best <> None ->
    fst (fold_left (scanStep this scores mmrLambda selected) l best)
    <> None.
Proof.
  induction l as [|i r IH]; intros best Hbest; [exact Hbest|].
  cbn [fold_left]. apply IH. unfold scanStep.
  destruct (JsSet.hasNat selected i); [exact Hbest|].
  destruct (improves _ _); [discriminate | exact Hbest].
Qed.

Lemma selectMMR_extends (slots : nat) :
  forall selected,
  exists rest,
    selectMMR this scores mmrLambda cands slots selected
    = selected ++ rest.
Proof.
  induction slots as [|slots IH]; intros selected; cbn [selectMMR].
  - exists []. now rewrite app_nil_r.
  - destruct (length cands =? 0)%nat;
      [exists []; now rewrite app_nil_r|].
    destruct (pickBest _ _ _ _ _) as [b|];
      [|exists []; now rewrite app_nil_r].
    destruct (IH (selected ++ [b])) as [rest ->].
    exists (b :: rest). now rewrite <- app_assoc.
Qed.
End SelectShape.

Section ExactSearch.
#[local] Existing Instance Exact.arith.
#[local] Open Scope R_scope.
Import VectorDB.

Variable this : t.
Variable scores : list num.

Abbreviation sortDesc := (JsArray.sort (byScoreDesc scores)).

Lemma unselected_nil (cands : list nat) :
  filter (fun i => negb (JsSet.hasNat [] i)) cands = cands.
Proof.
  induction cands as [|i r IH]; [reflexivity|].
  change (i :: filter (fun i => negb (JsSet.hasNat [] i)) r = i :: r).
  now rewrite IH.
Qed.




(** The plain top-[topK] of a pool: a descending list of members of the
    pool, and no member left out has a higher score than a member in. *)
Lemma descending_strongly (l : list nat) :
  Sorted (descending scores) l -> StronglySorted (descending scores) l.
Proof.
  apply Sorted_StronglySorted. intros a b c Hab Hbc.
  apply descending_le in Hab, Hbc. apply descending_le. lra.
Qed.












End ExactSearch.

Section ExactClaims.
#[local] Existing Instance Exact.arith.
#[local] Open Scope R_scope.
Import VectorDB.

Lemma score_resultItem (this : t) (scores : list num) (i : nat) :
  SearchResultItem.score (resultItem this scores i) = at_ scores i.
Proof. reflexivity. Qed.

Lemma descending_items (this : t) (scores : list num) (l : list nat) :
  Sorted (descending scores) l ->
  Sorted (fun a b => SearchResultItem.score b <= SearchResultItem.score a)
         (map (resultItem this scores) l).
Proof.
  induction 1 as [|x r Hr IH Hhd]; cbn [map]; constructor; [exact IH|].
  destruct Hhd as [|y r' Hxy]; cbn [map]; constructor.
  rewrite !score_resultItem. now apply descending_le.
Qed.



Lemma pickBest_first (this : t) (scores : list num) (mmrLambda : num)
      (cands : list nat) :
  cands <> [] -> pickBest this scores mmrLambda cands [] <> None.
Proof.
  destruct cands as [|i r]; [congruence|]. intros _.
  unfold pickBest. cbn [fold_left]. apply scan_keeps.
  unfold scanStep. cbn. discriminate.
Qed.


End ExactClaims.

Section ExactEvaluation.
#[local] Existing Instance Exact.arith.
#[local] Open Scope R_scope.
Import VectorDB.

Lemma normalize_first_axis :
  normalize (Float32Array (ExactScenario.vec [1; 0]%Z)) = [1; 0].
Proof.
  unfold normalize, Float32Array, ExactScenario.vec.
  cbn [map fold_left fround add mul div ofInt sqrt truthy Exact.arith num].
  replace (0 + 1 * 1 + 0 * 0) with 1 by ring.
  rewrite sqrt_1.
  replace (Exact.Rtruthy 1) with true by (symmetry; apply Rtruthy_true; lra).
  f_equal; [lra | f_equal; lra].
Qed.

Lemma normalize_second_axis :
  normalize (Float32Array (ExactScenario.vec [0; 1]%Z)) = [0; 1].
Proof.
  unfold normalize, Float32Array, ExactScenario.vec.
  cbn [map fold_left fround add mul div ofInt sqrt truthy Exact.arith num].
  replace (0 + 0 * 0 + 1 * 1) with 1 by ring.
  rewrite sqrt_1.
  replace (Exact.Rtruthy 1) with true by (symmetry; apply Rtruthy_true; lra).
  f_equal; [lra | f_equal; lra].
Qed.

Lemma scores_pair :
  scoresOf (new ExactScenario.pair) (ExactScenario.vec [1; 0]%Z) = [0; 1].
Proof.
  unfold scoresOf, similarities.
  rewrite normalize_first_axis, new_embs.
  cbn [map ExactScenario.pair ExactScenario.index VectorIndex.chunks
           ExactScenario.chunk VectorChunk.embedding].
  rewrite normalize_second_axis, normalize_first_axis.
  unfold cosine.
  cbn [combine fold_left fst snd fround add mul ofInt Exact.arith num].
  f_equal; [ring | f_equal; ring].
Qed.

End ExactEvaluation.


(* ================================================================== *)
(** ** Score fusion on exact arithmetic *)

Lemma eqb_refl (a : jsstring) : JsString.eqb a a = true.
Proof. now apply eqb_eq. Qed.

Lemma eqb_neq (a b : jsstring) : a <> b -> JsString.eqb a b = false.
Proof.
  intros Hne. apply not_true_iff_false. intros Heq. now apply eqb_eq in Heq.
Qed.

Section MapLookup.
Context {V : Type}.

Lemma get_In (m : JsMap.t V) (k : jsstring) (v : V) :
  JsMap.get m k = Some v -> In (k, v) m.
Proof.
  induction m as [|[k' v'] r IH]; cbn [JsMap.get]; [discriminate|].
  destruct (JsString.eqb k' k) eqn:Hk.
  - apply eqb_eq in Hk. intros [= <-]. left. now subst.
  - intros Hr. right. now apply IH.
Qed.

Lemma In_get (m : JsMap.t V) (k : jsstring) (v : V) :
  NoDup (JsMap.keys m) -> In (k, v) m -> JsMap.get m k = Some v.
Proof.
  induction m as [|[k' v'] r IH]; intros Hnd Hin; [destruct Hin|].
  cbn [JsMap.keys map fst] in Hnd. inversion Hnd as [|? ? Hk' Hr]; subst.
  cbn [JsMap.get]. destruct Hin as [[= -> ->]|Hin].
  - now rewrite eqb_refl.
  - destruct (JsString.eqb k' k) eqn:Hk; [|now apply IH].
    apply eqb_eq in Hk. subst k'. exfalso. apply Hk'.
    apply in_map_iff. now exists (k, v).
Qed.
End MapLookup.

Section ExactFusion.
#[local] Existing Instance Exact.arith.
#[local] Open Scope R_scope.
Import Hybrid.

Lemma fold_max_ge (l : list R) :
  forall x, x <= fold_left Rmax l x
            /\ forall v, In v l -> v <= fold_left Rmax l x.
Proof.
  induction l as [|y r IH]; intros x; cbn [fold_left].
  - split; [lra | intros v []].
  - destruct (IH (Rmax x y)) as [Hx Hall]. split.
    + pose proof (Rmax_l x y). lra.
    + intros v [<-|Hv]; [pose proof (Rmax_r x y); lra | now apply Hall].
Qed.

Lemma fold_max_attained (l : list R) :
  forall x, fold_left Rmax l x = x \/ In (fold_left Rmax l x) l.
Proof.
  induction l as [|y r IH]; intros x; cbn [fold_left]; [now left|].
  destruct (IH (Rmax x y)) as [Hm|Hm].
  - rewrite Hm. unfold Rmax. destruct (Rle_dec x y); [right | left];
      [now left | reflexivity].
  - right. now right.
Qed.

Variable eps : num.

Lemma max_spread_ge (vs : list num) :
  eps <= Math_max_spread vs eps
  /\ forall v, In v vs -> v <= Math_max_spread vs eps.
Proof.
  unfold Math_max_spread, Math_max. destruct vs as [|x r].
  - split; [lra | intros v []].
  - cbn [max2 Exact.arith].
    destruct (fold_max_ge (r ++ [eps]) x) as [Hx Hall]. split.
    + apply Hall. apply in_or_app. right. now left.
    + intros v [<-|Hv]; [exact Hx|]. apply Hall. apply in_or_app.
      now left.
Qed.

Lemma max_spread_attained (vs : list num) :
  Math_max_spread vs eps = eps \/ In (Math_max_spread vs eps) vs.
Proof.
  unfold Math_max_spread, Math_max. destruct vs as [|x r]; [now left|].
  cbn [max2 Exact.arith].
  destruct (fold_max_attained (r ++ [eps]) x) as [Hm|Hm].
  - right. left. symmetry. exact Hm.
  - apply in_app_or in Hm. destruct Hm as [Hm|[Hm|[]]].
    + right. right. exact Hm.
    + left. symmetry. exact Hm.
Qed.

End ExactFusion.

Section ExactFusionClaim.
#[local] Existing Instance Exact.arith.
#[local] Open Scope R_scope.
Import Hybrid.

Lemma epsilon_positive : 0 < decimal 1 1000000.
Proof. unfold decimal. cbn [div ofInt Exact.arith]. lra. Qed.

Lemma lexicalMax_positive (bm : JsMap.t num) : 0 < lexicalMaxOf bm.
Proof.
  pose proof epsilon_positive.
  destruct (max_spread_ge (decimal 1 1000000) (JsMap.values bm)) as [Hge _].
  unfold lexicalMaxOf. lra.
Qed.

Lemma value_le_lexicalMax (bm : JsMap.t num) (k : jsstring) (v : num) :
  JsMap.get bm k = Some v -> v <= lexicalMaxOf bm.
Proof.
  intros Hget. apply get_In in Hget.
  destruct (max_spread_ge (decimal 1 1000000) (JsMap.values bm))
    as [_ Hall].
  apply Hall. unfold JsMap.values. apply in_map_iff. now exists (k, v).
Qed.

Lemma lexicalOf_le_max (bm : JsMap.t num) (id : jsstring) :
  lexicalOf bm id <= lexicalMaxOf bm.
Proof.
  pose proof (lexicalMax_positive bm). unfold lexicalOf.
  destruct (JsMap.get bm id) as [v|] eqn:Hget;
    [|cbn [ofInt Exact.arith]; lra].
  destruct (truthy v); [|cbn [ofInt Exact.arith]; lra].
  now apply value_le_lexicalMax with id.
Qed.

(** The maximum of a map is at most that of another map with the same
    entries at the other ids, once the entry of [id] is covered. *)
Lemma lexicalMax_le_other (bm1 bm2 : JsMap.t num) (id : jsstring) :
  NoDup (JsMap.keys bm1) ->
  (forall k, k <> id -> JsMap.get bm1 k = JsMap.get bm2 k) ->
  lexicalOf bm1 id <= lexicalMaxOf bm2
  \/ lexicalOf bm1 id < lexicalMaxOf bm1 ->
  lexicalMaxOf bm1 <= lexicalMaxOf bm2.
Proof.
  intros Hnd Hothers Hid.
  pose proof (lexicalMax_positive bm1) as Hpos1.
  pose proof (lexicalMax_positive bm2) as Hpos2.
  destruct (max_spread_attained (decimal 1 1000000) (JsMap.values bm1))
    as [Heps|Hin].
  - fold (lexicalMaxOf bm1) in Heps. rewrite Heps.
    exact (proj1 (max_spread_ge (decimal 1 1000000) (JsMap.values bm2))).
  - fold (lexicalMaxOf bm1) in Hin. unfold JsMap.values in Hin.
    apply in_map_iff in Hin. destruct Hin as [[k v] [Hv Hkv]].
    cbn [snd] in Hv. apply (In_get _ _ _ Hnd) in Hkv.
    destruct (list_eq_dec N.eq_dec k id) as [->|Hne].
    + unfold lexicalOf in Hid. rewrite Hkv in Hid.
      destruct (truthy v) eqn:Htruthy.
      * rewrite Hv in Hid. lra.
      * apply Rtruthy_false in Htruthy. lra.
    + rewrite (Hothers k Hne) in Hkv. rewrite <- Hv.
      now apply value_le_lexicalMax with k.
Qed.

Lemma ratio_le_one (x b : R) : 0 < b -> x <= b -> x / b <= 1.
Proof.
  intros Hb Hx. apply (Rmult_le_reg_r b); [exact Hb|].
  unfold Rdiv. rewrite Rmult_assoc, Rinv_l by lra. lra.
Qed.

(** The normalized lexical score of [id] grows with its lexical score. *)
Lemma lexical_ratio_monotone (bm bm' : JsMap.t num) (id : jsstring) :
  NoDup (JsMap.keys bm) ->
  NoDup (JsMap.keys bm') ->
  (forall k, k <> id -> JsMap.get bm' k = JsMap.get bm k) ->
  lexicalOf bm id <= lexicalOf bm' id ->
  lexicalOf bm id / lexicalMaxOf bm <= lexicalOf bm' id / lexicalMaxOf bm'.
Proof.
  intros Hnd Hnd' Hothers Hle.
  pose proof (lexicalMax_positive bm) as Hpos.
  pose proof (lexicalMax_positive bm') as Hpos'.
  pose proof (lexicalOf_le_max bm id) as Hx.
  pose proof (lexicalOf_le_max bm' id) as Hx'.
  destruct (Rlt_dec (lexicalOf bm' id) (lexicalMaxOf bm')) as [Hlt|Hge].
  - assert (H1 : lexicalMaxOf bm' <= lexicalMaxOf bm).
    { apply (lexicalMax_le_other bm' bm id Hnd' Hothers). now right. }
    assert (H2 : lexicalMaxOf bm <= lexicalMaxOf bm').
    { apply (lexicalMax_le_other bm bm' id Hnd).
      - intros k Hk. symmetry. now apply Hothers.
      - left. lra. }
    replace (lexicalMaxOf bm') with (lexicalMaxOf bm) by lra.
    unfold Rdiv. apply Rmult_le_compat_r; [|exact Hle].
    left. now apply Rinv_0_lt_compat.
  - replace (lexicalOf bm' id) with (lexicalMaxOf bm') by lra.
    unfold Rdiv at 2. rewrite Rinv_r by lra.
    now apply ratio_le_one.
Qed.

Lemma fuse_dense_nth (k : Z) (txPool sumPool : list Doc.t)
      (items : list SearchResultItem.t) (bm : JsMap.t num)
      (source : Source) (j : nat) (it : SearchResultItem.t) :
  nth_error items j = Some it ->
  nth_error (fuse k txPool sumPool items bm source) j
  = Some (fuseDense (denseMaxOf items) (lexicalMaxOf bm) bm source it).
Proof.
  intros Hj. unfold fuse. rewrite nth_error_app1.
  - now apply map_nth_error.
  - rewrite length_map. apply nth_error_Some. congruence.
Qed.

(** C5.  Take a dense item [it], at position [j] of the dense list, and
    two lexical score maps that agree on every id but the id of [it],
    the second giving [it] a lexical score at least as large.  The
    fused score of [it], at position [j] of either output of [fuse], is
    [0.6 * (dense / denseMax) + 0.4 * (lexical / lexicalMax)], and the
    second is at least the first. *)
Theorem fuse_monotone_in_lexical
        (k : Z) (txPool sumPool : list Doc.t)
        (items : list SearchResultItem.t) (bm bm' : JsMap.t num)
        (source : Source) (j : nat) (it : SearchResultItem.t) :
  nth_error items j = Some it ->
  NoDup (JsMap.keys bm) ->
  NoDup (JsMap.keys bm') ->
  (forall id, id <> SearchResultItem.id it ->
              JsMap.get bm' id = JsMap.get bm id) ->
  lexicalOf bm (SearchResultItem.id it)
  <= lexicalOf bm' (SearchResultItem.id it) ->
  exists o o',
    nth_error (fuse k txPool sumPool items bm source) j = Some o
    /\ nth_error (fuse k txPool sumPool items bm' source) j = Some o'
    /\ HybridResultItem.id o = SearchResultItem.id it
    /\ HybridResultItem.id o' = SearchResultItem.id it
    /\ HybridResultItem.score o
       = (decimal 6 10 * (SearchResultItem.score it / denseMaxOf items)
          + decimal 4 10
            * (lexicalOf bm (SearchResultItem.id it) / lexicalMaxOf bm))%J
    /\ HybridResultItem.score o'
       = (decimal 6 10 * (SearchResultItem.score it / denseMaxOf items)
          + decimal 4 10
            * (lexicalOf bm' (SearchResultItem.id it) / lexicalMaxOf bm'))%J
    /\ HybridResultItem.score o <= HybridResultItem.score o'.
Proof.
  intros Hj Hnd Hnd' Hothers Hle.
  exists (fuseDense (denseMaxOf items) (lexicalMaxOf bm) bm source it),
         (fuseDense (denseMaxOf items) (lexicalMaxOf bm') bm' source it).
  repeat split; try (now apply fuse_dense_nth).
  pose proof (lexical_ratio_monotone bm bm' _ Hnd Hnd' Hothers Hle) as Hr.
  unfold fuseDense. cbn [HybridResultItem.score].
  fold (lexicalOf bm (SearchResultItem.id it)).
  fold (lexicalOf bm' (SearchResultItem.id it)).
  unfold decimal. cbn [add mul div ofInt Exact.arith num] in *. lra.
Qed.

End ExactFusionClaim.

(** C5 at an instance: the lexical score of the dense item [a] raised
    from 1 to 2, next to an entry [b] of score 3. *)
Lemma fuse_monotone_in_lexical_witness :
  (nth_error [ExactScenario.dense] 0 = Some ExactScenario.dense
   /\ NoDup (JsMap.keys ExactScenario.lexicalLow)
   /\ NoDup (JsMap.keys ExactScenario.lexicalHigh)
   /\ (forall id, id <> js "a" ->
                  JsMap.get ExactScenario.lexicalHigh id
                  = JsMap.get ExactScenario.lexicalLow id)
   /\ (@lexicalOf Exact.arith ExactScenario.lexicalLow (js "a")
       <= @lexicalOf Exact.arith ExactScenario.lexicalHigh (js "a"))%R)
  /\ exists o o',
    nth_error (@Hybrid.fuse Exact.arith 6 [] [] [ExactScenario.dense]
                            ExactScenario.lexicalLow transaction) 0
    = Some o
    /\ nth_error (@Hybrid.fuse Exact.arith 6 [] [] [ExactScenario.dense]
                               ExactScenario.lexicalHigh transaction) 0
       = Some o'
    /\ (HybridResultItem.score o <= HybridResultItem.score o')%R.
Proof.
  assert (Hlow : NoDup (JsMap.keys ExactScenario.lexicalLow)).
  { vm_compute. repeat constructor; simpl; intuition discriminate. }
  assert (Hhigh : NoDup (JsMap.keys ExactScenario.lexicalHigh)).
  { vm_compute. repeat constructor; simpl; intuition discriminate. }
  assert (Hothers : forall id, id <> js "a" ->
                               JsMap.get ExactScenario.lexicalHigh id
                               = JsMap.get ExactScenario.lexicalLow id).
  { intros id Hid.
    unfold ExactScenario.lexicalLow, ExactScenario.lexicalHigh.
    cbn [JsMap.get]. rewrite (eqb_neq (js "a") id) by congruence.
    reflexivity. }
  assert (Hle : (@lexicalOf Exact.arith ExactScenario.lexicalLow (js "a")
                 <= @lexicalOf Exact.arith ExactScenario.lexicalHigh (js "a"))%R).
  { unfold lexicalOf, ExactScenario.lexicalLow, ExactScenario.lexicalHigh.
    cbn [JsMap.get]. rewrite eqb_refl. cbn [truthy Exact.arith].
    replace (Exact.Rtruthy 1) with true
      by (symmetry; apply Rtruthy_true; lra).
    replace (Exact.Rtruthy 2) with true
      by (symmetry; apply Rtruthy_true; lra).
    lra. }
  split; [repeat split; assumption|].
  destruct (fuse_monotone_in_lexical
              6 [] [] [ExactScenario.dense]
              ExactScenario.lexicalLow ExactScenario.lexicalHigh
              transaction 0 ExactScenario.dense
              eq_refl Hlow Hhigh Hothers Hle)
    as (o & o' & Ho & Ho' & _ & _ & _ & _ & Hoo').
  exists o, o'. repeat split; assumption.
Defined.

(* ================================================================== *)
(** ** The range of the scores on exact arithmetic *)

Section ExactRange.
#[local] Existing Instance Exact.arith.
#[local] Open Scope R_scope.
Import VectorDB.

Lemma sumOfSquares_nonneg (v : list R) : 0 <= sumOfSquares v.
Proof.
  induction v as [|x r IH]; cbn [sumOfSquares fold_right]; [lra|].
  fold (sumOfSquares r). nra.
Qed.

Lemma squares_loop (v : list R) :
  forall sum,
    fold_left (fun sum x => sum + x * x) v sum = sum + sumOfSquares v.
Proof.
  induction v as [|x r IH]; intros sum; cbn [fold_left sumOfSquares
                                                 fold_right].
  - lra.
  - rewrite IH. fold (sumOfSquares r). lra.
Qed.

Lemma products_loop (l : list (R * R)) :
  forall dot,
    fold_left (fun dot xy => dot + fst xy * snd xy) l dot
    = dot + fold_right (fun xy s => fst xy * snd xy + s) 0 l.
Proof.
  induction l as [|xy r IH]; intros dot; cbn [fold_left fold_right].
  - lra.
  - rewrite IH. lra.
Qed.

Lemma cosine_products (a b : list num) : cosine a b = sumOfProducts a b.
Proof.
  unfold cosine, sumOfProducts.
  cbn [add mul ofInt Exact.arith num].
  rewrite products_loop. lra.
Qed.

(** Twice a product is at most the sum of the two squares. *)
Lemma products_bound (a : list R) :
  forall b,
    - (sumOfSquares a + sumOfSquares b) <= 2 * sumOfProducts a b
    /\ 2 * sumOfProducts a b <= sumOfSquares a + sumOfSquares b.
Proof.
  induction a as [|x a IH]; intros b.
  - pose proof (sumOfSquares_nonneg b). cbn. lra.
  - destruct b as [|y b].
    + pose proof (sumOfSquares_nonneg (x :: a)). cbn in *. lra.
    + destruct (IH b) as [IHlo IHhi].
      unfold sumOfProducts, sumOfSquares in *.
      cbn [combine fold_right fst snd].
      pose proof (Rle_0_sqr (x - y)) as Hminus.
      pose proof (Rle_0_sqr (x + y)) as Hplus.
      unfold Rsqr in Hminus, Hplus. split; lra.
Qed.

Lemma squares_scaled (c : R) (v : list R) :
  sumOfSquares (map (fun x => x / c) v) = sumOfSquares v * (/ c * / c).
Proof.
  induction v as [|x r IH]; cbn [map sumOfSquares fold_right]; [lra|].
  fold (sumOfSquares (map (fun x => x / c) r)). rewrite IH.
  fold (sumOfSquares r). unfold Rdiv. ring.
Qed.

(** A normalized vector has unit length, or is the zero vector. *)
Lemma normalize_unit (v : list num) : sumOfSquares (normalize v) <= 1.
Proof.
  unfold normalize. cbn [add mul div ofInt sqrt truthy fround Exact.arith
                             num].
  rewrite squares_loop. rewrite Rplus_0_l.
  pose proof (sumOfSquares_nonneg v) as Hnn.
  set (S := sumOfSquares v) in *.
  destruct (Exact.Rtruthy (R_sqrt.sqrt S)) eqn:Htruthy.
  - apply Rtruthy_true in Htruthy.
    rewrite squares_scaled. fold S.
    assert (Hsq : R_sqrt.sqrt S * R_sqrt.sqrt S = S)
      by now apply sqrt_sqrt.
    rewrite <- Hsq at 1. right. now field.
  - apply Rtruthy_false in Htruthy.
    apply sqrt_eq_0 in Htruthy; [|exact Hnn].
    rewrite squares_scaled. fold S. rewrite Htruthy. lra.
Qed.

Lemma cosine_unit (a b : list num) :
  sumOfSquares a <= 1 -> sumOfSquares b <= 1 -> -1 <= cosine a b <= 1.
Proof.
  intros Ha Hb. rewrite cosine_products.
  destruct (products_bound a b). lra.
Qed.

(** C8, as amended: on exact arithmetic every score of a search lies in
    [-1, 1], whatever the lengths of the embeddings, zero vectors
    included. *)
Theorem search_scores_in_range
        (index : VectorIndex.t) (q : list num) (options : SearchOptions.t) :
  Forall (fun it => -1 <= SearchResultItem.score it <= 1)
         (search (new index) q options).
Proof.
  unfold search. apply Forall_forall. intros it Hit.
  apply in_map_iff in Hit. destruct Hit as [i [<- _]].
  rewrite score_resultItem. unfold at_.
  set (scores := similarities _ _).
  assert (Hall : Forall (fun s => -1 <= s <= 1) scores).
  { unfold scores, similarities. apply Forall_forall. intros s Hs.
    apply in_map_iff in Hs. destruct Hs as [e [<- He]].
    cbn [fround Exact.arith].
    rewrite new_embs in He. apply in_map_iff in He.
    destruct He as [ch [<- _]].
    apply cosine_unit; apply normalize_unit. }
  destruct (nth_in_or_default i scores (ofInt 0)) as [Hin| ->].
  - rewrite Forall_forall in Hall. now apply Hall.
  - cbn [ofInt Exact.arith]. lra.
Qed.

End ExactRange.

(* ================================================================== *)
(** * Further properties of the code *)

(** ** vectorDb.ts, for every arithmetic *)

Section SearchBounds.
Context `{Arith}.
Import VectorDB.




Lemma above_nonempty (scores : list num) (minScore : num) :
  existsb (fun s => (s >=? minScore)%J) scores = true ->
  filter (fun i => (at_ scores i >=? minScore)%J) (seq 0 (length scores))
  <> [].
Proof.
  intros Hsome. apply existsb_exists in Hsome.
  destruct Hsome as [s [Hin Hs]].
  destruct (In_nth scores s (ofInt 0) Hin) as [i [Hi Hnth]].
  intros Hnil.
  assert (Hmem : In i (filter (fun i => (at_ scores i >=? minScore)%J)
                              (seq 0 (length scores)))).
  { apply filter_In. split; [apply in_seq; lia|].
    unfold at_. now rewrite Hnth. }
  rewrite Hnil in Hmem. destruct Hmem.
Qed.

(** X2.  When at least one chunk reaches [minScore], every item returned
    reaches it: the fallback below the threshold is taken only when no
    chunk passes. *)
Theorem search_respects_threshold
        (this : t) (q : list num) (options : SearchOptions.t) :
  let minScore :=
    orDefault (SearchOptions.minScore options) (decimal 25 100) in
  existsb (fun s => (s >=? minScore)%J) (scoresOf this q) = true ->
  Forall (fun it => (SearchResultItem.score it >=? minScore)%J = true)
         (search this q options).
Proof.
  cbv zeta. intros Hsome. unfold search. fold (scoresOf this q).
  set (scores := scoresOf this q) in *.
  set (minScore := orDefault (SearchOptions.minScore options) _) in *.
  apply Forall_forall. intros it Hit.
  apply in_map_iff in Hit. destruct Hit as [i [<- Hi]].
  cbn [resultItem SearchResultItem.score].
  unfold searchIndices in Hi. apply sort_In in Hi.
  set (topK := orDefault (SearchOptions.topK options) 5%Z) in *.
  destruct (selectMMR_shape
              this scores
              (orDefault (SearchOptions.mmrLambda options) (decimal 5 10))
              (candidates scores minScore topK) (Z.to_nat topK) [])
    as [_ Hincl]; [constructor | intros x [] |].
  apply Hincl in Hi. unfold candidates in Hi.
  pose proof (above_nonempty scores minScore Hsome) as Hne.
  destruct (filter _ (seq 0 (length scores))) as [|a above] eqn:Habove;
    [congruence|].
  cbn [length Nat.eqb] in Hi. rewrite <- Habove in Hi.
  apply filter_In in Hi. tauto.
Qed.

Lemma new_arrays (chunks : list VectorChunk.t) :
  forall this,
    let db :=
      fold_left
        (fun this ch =>
           let arr := Float32Array (VectorChunk.embedding ch) in
           let norm := normalize arr in
           {| dims := dims this;
              texts := texts this ++ [VectorChunk.text ch];
              ids := ids this ++ [VectorChunk.id ch];
              pages := pages this ++ [VectorChunk.page ch];
              offsets := offsets this ++ [VectorChunk.offset ch];
              tokens := tokens this ++ [VectorChunk.tokens ch];
              embs := embs this ++ [norm] |})
        chunks this in
    texts db = texts this ++ map VectorChunk.text chunks
    /\ pages db = pages this ++ map VectorChunk.page chunks
    /\ offsets db = offsets this ++ map VectorChunk.offset chunks
    /\ tokens db = tokens this ++ map VectorChunk.tokens chunks.
Proof.
  induction chunks as [|ch rest IH]; intros this; cbv zeta.
  - cbn [fold_left map]. now rewrite !app_nil_r.
  - cbn [fold_left map]. destruct (IH
      {| dims := dims this;
         texts := texts this ++ [VectorChunk.text ch];
         ids := ids this ++ [VectorChunk.id ch];
         pages := pages this ++ [VectorChunk.page ch];
         offsets := offsets this ++ [VectorChunk.offset ch];
         tokens := tokens this ++ [VectorChunk.tokens ch];
         embs := embs this
                 ++ [normalize (Float32Array (VectorChunk.embedding ch))] |})
      as (Ht & Hp & Ho & Hk).
    cbv zeta in Ht, Hp, Ho, Hk. rewrite Ht, Hp, Ho, Hk.
    cbn [texts pages offsets tokens]. now rewrite <- !app_assoc.
Qed.

Lemma nth_of_chunk {B : Type} (field : VectorChunk.t -> B)
      (chunks : list VectorChunk.t) (i : nat) (ch : VectorChunk.t)
      (absent : B) :
  nth_error chunks i = Some ch ->
  nth i (map field chunks) absent = field ch.
Proof.
  intros Hch. apply nth_error_nth. now apply map_nth_error.
Qed.

(** X3.  The parallel arrays of the store stay aligned: every item a
    search of a loaded index returns carries the id, the text, the page,
    the offset and the token count of one and the same chunk of the
    index, and its score is the similarity computed for that chunk. *)
Theorem search_items_are_chunks
        (index : VectorIndex.t) (q : list num) (options : SearchOptions.t) :
  Forall
    (fun it =>
       exists ch,
         In ch (VectorIndex.chunks index)
         /\ SearchResultItem.id it = VectorChunk.id ch
         /\ SearchResultItem.text it = VectorChunk.text ch
         /\ SearchResultItem.page it = VectorChunk.page ch
         /\ SearchResultItem.offset it = VectorChunk.offset ch
         /\ SearchResultItem.tokens it = VectorChunk.tokens ch
         /\ SearchResultItem.score it
            = fround (cosine (normalize (Float32Array q))
                             (normalize
                                (Float32Array (VectorChunk.embedding ch)))))
    (search (new index) q options).
Proof.
  unfold search. apply Forall_forall. intros it Hit.
  apply in_map_iff in Hit. destruct Hit as [i [<- Hi]].
  apply searchIndices_shape in Hi.
  unfold similarities in Hi. rewrite length_map, new_embs, length_map in Hi.
  destruct (nth_error (VectorIndex.chunks index) i) as [ch|] eqn:Hch;
    [|apply nth_error_None in Hch; lia].
  exists ch. split; [now apply nth_error_In with i|].
  destruct (new_arrays (VectorIndex.chunks index)
              {| dims := VectorIndex.dims index; texts := []; ids := [];
                 pages := []; offsets := []; tokens := []; embs := [] |})
    as (Ht & Hp & Ho & Hk).
  cbv zeta in Ht, Hp, Ho, Hk. cbn [texts pages offsets tokens app] in *.
  fold (new index) in Ht, Hp, Ho, Hk.
  cbn [resultItem SearchResultItem.id SearchResultItem.text
         SearchResultItem.page SearchResultItem.offset
         SearchResultItem.tokens SearchResultItem.score].
  rewrite new_ids, Ht, Hp, Ho, Hk.
  repeat split; try (now apply nth_of_chunk).
  unfold at_, similarities. rewrite new_embs, map_map.
  exact (nth_of_chunk
           (fun ch => fround (cosine (normalize (Float32Array q))
                                     (normalize
                                        (Float32Array
                                           (VectorChunk.embedding ch)))))
           _ i ch (ofInt 0) Hch).
Qed.

End SearchBounds.

(** X2 at an instance: the two orthogonal chunks, the first one along the
    query. *)
Lemma search_respects_threshold_witness :
  let this := @VectorDB.new Double.arith Scenario.axes in
  let q := Scenario.vec [1; 0]%Z in
  let options := @SearchOptions.mk Double.arith (Some 2%Z) None None in
  existsb (fun s => (s >=? decimal 25 100)%J) (scoresOf this q) = true
  /\ Forall
       (fun it => (SearchResultItem.score it >=? decimal 25 100)%J = true)
       (VectorDB.search this q options).
Proof.
  cbv zeta.
  assert (Hsome :
            existsb (fun s => (s >=? decimal 25 100)%J)
                    (scoresOf (@VectorDB.new Double.arith Scenario.axes)
                              (Scenario.vec [1; 0]%Z)) = true)
    by (vm_compute; reflexivity).
  split; [exact Hsome|].
  exact (@search_respects_threshold
           Double.arith (@VectorDB.new Double.arith Scenario.axes)
           (Scenario.vec [1; 0]%Z)
           (@SearchOptions.mk Double.arith (Some 2%Z) None None) Hsome).
Defined.

(* ================================================================== *)
(** ** vectorDb.ts on exact arithmetic *)

Section ExactVectors.
#[local] Existing Instance Exact.arith.
#[local] Open Scope R_scope.
Import VectorDB.

Lemma normalize_scaled (v : list num) :
  normalize v
  = map (fun x => x / (if Exact.Rtruthy (R_sqrt.sqrt (sumOfSquares v))
                       then R_sqrt.sqrt (sumOfSquares v) else 1)) v.
Proof.
  unfold normalize.
  cbn [add mul div ofInt sqrt truthy fround Exact.arith num].
  now rewrite squares_loop, Rplus_0_l.
Qed.

Lemma divided_by_one (v : list R) : map (fun x => x / 1) v = v.
Proof.
  induction v as [|x r IH]; [reflexivity|].
  cbn [map]. rewrite IH. f_equal. lra.
Qed.

Lemma normalize_zero (v : list num) :
  sumOfSquares v = 0 -> normalize v = v.
Proof.
  intros Hz. rewrite normalize_scaled, Hz, sqrt_0.
  replace (Exact.Rtruthy 0) with false
    by (symmetry; now apply Rtruthy_false).
  apply divided_by_one.
Qed.

Lemma normalize_length_one (v : list num) :
  sumOfSquares v <> 0 -> sumOfSquares (normalize v) = 1.
Proof.
  intros Hnz. rewrite normalize_scaled.
  pose proof (sumOfSquares_nonneg v) as Hnn.
  assert (Hpos : 0 < R_sqrt.sqrt (sumOfSquares v))
    by (apply sqrt_lt_R0; lra).
  replace (Exact.Rtruthy (R_sqrt.sqrt (sumOfSquares v))) with true
    by (symmetry; apply Rtruthy_true; lra).
  rewrite squares_scaled.
  rewrite <- (sqrt_sqrt (sumOfSquares v)) at 1 by exact Hnn.
  field. lra.
Qed.

(** X4.  On exact arithmetic [normalize] keeps the length of the vector,
    leaves a zero vector as it is, and gives every other vector the
    length 1. *)
Theorem normalize_unit_or_zero (v : list num) :
  length (normalize v) = length v
  /\ (sumOfSquares v = 0 -> normalize v = v)
  /\ (sumOfSquares v <> 0 -> sumOfSquares (normalize v) = 1).
Proof.
  split; [rewrite normalize_scaled; apply length_map|].
  split; [apply normalize_zero | apply normalize_length_one].
Qed.

(** X5.  On exact arithmetic normalizing twice is normalizing once: the
    store can re-normalize on load what a builder has normalized. *)
Theorem normalize_idempotent (v : list num) :
  normalize (normalize v) = normalize v.
Proof.
  destruct (Req_dec_T (sumOfSquares v) 0) as [Hz|Hnz].
  - now rewrite !(normalize_zero v Hz).
  - rewrite (normalize_scaled (normalize v)).
    rewrite (normalize_length_one v Hnz), sqrt_1.
    replace (Exact.Rtruthy 1) with true
      by (symmetry; apply Rtruthy_true; lra).
    apply divided_by_one.
Qed.

Lemma products_symmetric (a : list R) :
  forall b, sumOfProducts a b = sumOfProducts b a.
Proof.
  induction a as [|x a IH]; intros [|y b]; try reflexivity.
  unfold sumOfProducts in *. cbn [combine fold_right fst snd].
  rewrite IH. lra.
Qed.

Lemma products_self (a : list R) : sumOfProducts a a = sumOfSquares a.
Proof.
  induction a as [|x a IH]; [reflexivity|].
  unfold sumOfProducts, sumOfSquares in *. cbn [combine fold_right fst snd].
  now rewrite IH.
Qed.

(** X6.  On exact arithmetic the similarity is symmetric, and a chunk
    queried with its own embedding, not the zero vector, has the score
    1. *)
Theorem cosine_symmetric_self (a b : list num) :
  cosine a b = cosine b a
  /\ (sumOfSquares a <> 0 -> cosine (normalize a) (normalize a) = 1).
Proof.
  split.
  - rewrite !cosine_products. apply products_symmetric.
  - intros Hnz. rewrite cosine_products, products_self.
    now apply normalize_length_one.
Qed.

End ExactVectors.

Section ExactSelection.
#[local] Existing Instance Exact.arith.
#[local] Open Scope R_scope.
Import VectorDB.

(** X7.  On exact arithmetic the items of a search come in descending
    order of score, whatever [mmrLambda] and the order of the picks. *)
Theorem search_descending
        (this : t) (q : list num) (options : SearchOptions.t) :
  Sorted (fun a b => SearchResultItem.score b <= SearchResultItem.score a)
         (search this q options).
Proof.
  unfold search, searchIndices.
  apply descending_items, sortDesc_descending.
Qed.

Lemma firstMax_highest (scores : list num) (l : list nat) :
  forall m,
    firstMax scores l = Some m ->
    forall x, In x l -> at_ scores x <= at_ scores m.
Proof.
  induction l as [|y r IH]; intros m Hm x Hx; [destruct Hx|].
  cbn [firstMax] in Hm. destruct (firstMax scores r) as [m'|] eqn:Hr.
  - specialize (IH m' eq_refl).
    destruct (goesBefore scores m' y) eqn:Hgo; injection Hm as <-.
    + apply goesBefore_true in Hgo.
      destruct Hx as [<-|Hx]; [lra | now apply IH].
    + apply goesBefore_false in Hgo.
      destruct Hx as [<-|Hx]; [lra|]. specialize (IH x Hx). lra.
  - apply firstMax_None in Hr. subst r. injection Hm as <-.
    destruct Hx as [<-|[]]. lra.
Qed.

Variable this : t.
Variable scores : list num.
Variable mmrLambda : num.
Hypothesis lambda_positive : 0 < mmrLambda.

Lemma at_scaled (i : nat) :
  at_ (map (Rmult mmrLambda) scores) i = mmrLambda * at_ scores i.
Proof.
  unfold at_. cbn [ofInt Exact.arith].
  replace 0 with (mmrLambda * 0) at 1 by ring.
  apply map_nth.
Qed.

Lemma first_scan_scaled (l : list nat) :
  forall best,
    fold_left (scanStep this scores mmrLambda []) l best
    = fold_left (scanStep this (map (Rmult mmrLambda) scores) 1 []) l best.
Proof.
  induction l as [|i r IH]; intros best; [reflexivity|].
  cbn [fold_left]. rewrite IH. f_equal.
  unfold scanStep. cbn [JsSet.hasNat existsb].
  rewrite mmrOf_one, at_scaled.
  replace (mmrOf this scores mmrLambda [] i) with (mmrLambda * at_ scores i);
    [reflexivity|].
  unfold mmrOf, diversity. cbn [fold_left num mul sub ofInt Exact.arith].
  ring.
Qed.

(** The first pick has the highest score of the candidates. *)
Lemma first_pick_highest (cands : list nat) (b : nat) :
  pickBest this scores mmrLambda cands [] = Some b ->
  In b cands /\ forall x, In x cands -> at_ scores x <= at_ scores b.
Proof.
  intros Hpick. split; [now apply pickBest_fresh in Hpick|].
  unfold pickBest in Hpick. rewrite first_scan_scaled in Hpick.
  fold (pickBest this (map (Rmult mmrLambda) scores) 1 cands []) in Hpick.
  rewrite pickBest_firstMax, unselected_nil in Hpick.
  intros x Hx.
  pose proof (firstMax_highest (map (Rmult mmrLambda) scores) cands b
                               Hpick x Hx) as Hle.
  rewrite !at_scaled in Hle. nra.
Qed.

End ExactSelection.

Section ExactBestFirst.
#[local] Existing Instance Exact.arith.
#[local] Open Scope R_scope.
Import VectorDB.

Lemma candidates_nonempty (scores : list num) (minScore : num) (topK : Z) :
  scores <> [] -> (1 <= topK)%Z -> candidates scores minScore topK <> [].
Proof.
  intros Hscores HtopK. unfold candidates.
  set (keys := seq 0 (length scores)). set (above := filter _ keys).
  destruct (length above =? 0)%nat eqn:Habove.
  - apply Nat.eqb_eq, length_zero_iff_nil in Habove. rewrite Habove.
    cbn [app]. unfold JsArray.slice0.
    replace (topK * 3 <? 0)%Z with false by (symmetry; lia).
    intros Hnil. apply (f_equal (@length nat)) in Hnil.
    rewrite length_firstn in Hnil.
    rewrite (Permutation_length (sort_perm (byScoreDesc scores) keys))
      in Hnil.
    unfold keys in Hnil. rewrite length_seq in Hnil.
    destruct scores; [congruence|]. cbn [length] in Hnil. lia.
  - intros Hnil. rewrite Hnil in Habove. discriminate.
Qed.

(** A candidate above all candidates is above all chunks. *)
Lemma candidates_reach_top (scores : list num) (minScore : num) (topK : Z)
      (b : nat) :
  (1 <= topK)%Z ->
  In b (candidates scores minScore topK) ->
  (forall x, In x (candidates scores minScore topK) ->
             at_ scores x <= at_ scores b) ->
  forall i, (i < length scores)%nat -> at_ scores i <= at_ scores b.
Proof.
  intros HtopK. unfold candidates.
  set (keys := seq 0 (length scores)). set (above := filter _ keys).
  destruct (length above =? 0)%nat eqn:Habove; intros Hb Hall i Hi.
  - apply Nat.eqb_eq, length_zero_iff_nil in Habove.
    rewrite Habove in Hall. cbn [app] in Hall.
    unfold JsArray.slice0 in Hall.
    replace (topK * 3 <? 0)%Z with false in Hall by (symmetry; lia).
    assert (Hkey : In i (JsArray.sort (byScoreDesc scores) keys))
      by (apply sort_In, in_seq; lia).
    pose proof (descending_strongly
                  scores _ (sortDesc_descending scores keys)) as Hsorted.
    destruct (JsArray.sort (byScoreDesc scores) keys) as [|h rest];
      [destruct Hkey|].
    destruct (Z.to_nat (topK * 3)) as [|n] eqn:Hn; [lia|].
    assert (Hh : at_ scores h <= at_ scores b)
      by (apply Hall; cbn [firstn]; now left).
    destruct Hkey as [<-|Hkey]; [exact Hh|].
    apply StronglySorted_inv in Hsorted. destruct Hsorted as [_ Hhead].
    rewrite Forall_forall in Hhead. specialize (Hhead i Hkey).
    apply descending_le in Hhead. lra.
  - destruct (at_ scores i >=? minScore)%J eqn:Hpass.
    + apply Hall. apply filter_In. split; [apply in_seq; lia | exact Hpass].
    + apply filter_In in Hb. destruct Hb as [_ Hb].
      cbn [leb Exact.arith] in Hpass, Hb.
      apply Rleb_false in Hpass. apply Rleb_true in Hb. lra.
Qed.

(** X8.  On exact arithmetic, with [mmrLambda > 0] and [topK >= 1], the
    first item of a search of a non-empty store is a chunk of the highest
    similarity in the whole store: diversity never costs the best
    match. *)
Theorem search_best_first
        (this : t) (q : list num) (options : SearchOptions.t) :
  0 < orDefault (SearchOptions.mmrLambda options) (decimal 5 10) ->
  (1 <= orDefault (SearchOptions.topK options) 5)%Z ->
  embs this <> [] ->
  exists best rest,
    search this q options = best :: rest
    /\ Forall (fun s => s <= SearchResultItem.score best) (scoresOf this q).
Proof.
  intros Hlam HtopK Hembs. unfold search. fold (scoresOf this q).
  set (scores := scoresOf this q).
  set (topK := orDefault (SearchOptions.topK options) 5%Z) in *.
  set (minScore := orDefault (SearchOptions.minScore options) _).
  set (mmrLambda := orDefault (SearchOptions.mmrLambda options) _) in *.
  assert (Hscores : scores <> []).
  { intros Hnil. apply (f_equal (@length _)) in Hnil.
    unfold scores, scoresOf, similarities in Hnil.
    rewrite length_map in Hnil. destruct (embs this); [congruence|].
    discriminate. }
  pose proof (candidates_nonempty scores minScore topK Hscores HtopK)
    as Hcands.
  unfold searchIndices.
  destruct (Z.to_nat topK) as [|slots] eqn:Hslots; [lia|].
  cbn [selectMMR].
  replace (length (candidates scores minScore topK) =? 0)%nat with false
    by (symmetry; apply Nat.eqb_neq; intros Hz;
        now apply length_zero_iff_nil in Hz).
  destruct (pickBest this scores mmrLambda _ []) as [b|] eqn:Hpick;
    [|now apply pickBest_first in Hpick].
  apply (first_pick_highest this scores mmrLambda Hlam) in Hpick.
  destruct Hpick as [Hb Hall].
  pose proof (candidates_reach_top scores minScore topK b HtopK Hb Hall)
    as Htop.
  destruct (selectMMR_extends this scores mmrLambda
              (candidates scores minScore topK) slots ([] ++ [b]))
    as [rest ->].
  set (selected := ([] ++ [b]) ++ rest).
  assert (Hin : In b (JsArray.sort (byScoreDesc scores) selected))
    by (apply sort_In; unfold selected; cbn; now left).
  pose proof (descending_strongly
                scores _ (sortDesc_descending scores selected)) as Hsorted.
  destruct (JsArray.sort (byScoreDesc scores) selected) as [|h sorted];
    [destruct Hin|].
  exists (resultItem this scores h), (map (resultItem this scores) sorted).
  split; [reflexivity|].
  assert (Hhb : at_ scores b <= at_ scores h).
  { destruct Hin as [<-|Hin]; [lra|].
    apply StronglySorted_inv in Hsorted. destruct Hsorted as [_ Hhead].
    rewrite Forall_forall in Hhead. now apply descending_le, Hhead. }
  apply Forall_forall. intros s Hs.
  destruct (In_nth scores s (ofInt 0) Hs) as [i [Hi <-]].
  rewrite score_resultItem. specialize (Htop i Hi). unfold at_ in *. lra.
Qed.

End ExactBestFirst.

(** X8 at an instance: a chunk of similarity 0 before a chunk of
    similarity 1, both candidates under [minScore = 0], the default
    [mmrLambda] of 0.5 and [topK = 1]. *)
Lemma search_best_first_witness :
  let this := @VectorDB.new Exact.arith ExactScenario.pair in
  let q := ExactScenario.vec [1; 0]%Z in
  let options := @SearchOptions.mk Exact.arith (Some 1%Z) (Some 0%R) None in
  ((0 < @decimal Exact.arith 5 10)%R /\ (1 <= 1)%Z
   /\ VectorDB.embs this <> [])
  /\ (exists best rest,
        VectorDB.search this q options = best :: rest
        /\ Forall (fun s => (s <= SearchResultItem.score best)%R)
                  (scoresOf this q))
  /\ scoresOf this q = [0%R; 1%R].
Proof.
  cbv zeta.
  assert (Hlam : (0 < @decimal Exact.arith 5 10)%R)
    by (unfold decimal; cbn [div ofInt Exact.arith]; lra).
  assert (Hembs : VectorDB.embs (@VectorDB.new Exact.arith ExactScenario.pair)
                  <> [])
    by (rewrite new_embs; discriminate).
  split; [split; [exact Hlam | split; [lia | exact Hembs]]|].
  split; [|exact scores_pair].
  apply search_best_first; [exact Hlam | cbn; lia | exact Hembs].
Defined.

(* ================================================================== *)
(** ** hybrid.ts, for every arithmetic *)

Section HybridBounds.
Context `{Arith}.
Variable toLowerCase : jsstring -> jsstring.
Variable Math_log : num -> num.
Variable fetch : jsstring -> Completion Response.t.
Import Hybrid.


Lemma set_entries (m : JsMap.t num) (k : jsstring) (v : num)
      (entry : jsstring * num) :
  In entry (JsMap.set m k v) -> entry = (k, v) \/ In entry m.
Proof.
  induction m as [|[k' v'] r IH]; cbn [JsMap.set].
  - intros [<-|[]]. now left.
  - destruct (JsString.eqb k' k) eqn:Hk.
    + apply eqb_eq in Hk. subst k'. intros [<-|Hin]; [now left|].
      right. now right.
    + intros [<-|Hin]; [right; now left|].
      destruct (IH Hin); [now left | right; now right].
Qed.

Lemma scored_entries {D : Type} (key : D -> jsstring) (value : D -> num)
      (known : list jsstring) (docs : list D) :
  (forall d, In d docs -> In (key d) known) ->
  forall scores : JsMap.t num,
    Forall (fun e => In (fst e) known /\ truthy (snd e) = true) scores ->
    Forall (fun e => In (fst e) known /\ truthy (snd e) = true)
           (fold_left
              (fun scores d =>
                 if truthy (value d)
                 then JsMap.set scores (key d) (value d)
                 else scores)
              docs scores).
Proof.
  induction docs as [|d rest IH]; intros Hknown scores Hall; [exact Hall|].
  cbn [fold_left]. apply IH; [intros d' Hd'; apply Hknown; now right|].
  destruct (truthy (value d)) eqn:Htruthy; [|exact Hall].
  apply Forall_forall. intros e He. apply set_entries in He.
  destruct He as [->|He].
  - split; [apply Hknown; now left | exact Htruthy].
  - rewrite Forall_forall in Hall. now apply Hall.
Qed.

(** X10.  The lexical scores are sparse: every entry belongs to a
    document of the pool scored and holds a truthy (non-zero) score. *)
Theorem bm25Score_sparse (query : jsstring) (docs : list Doc.t) :
  Forall (fun e => In (fst e) (map Doc.id docs) /\ truthy (snd e) = true)
         (bm25Score toLowerCase Math_log query docs).
Proof.
  unfold bm25Score.
  destruct (length (tokenize toLowerCase query) =? 0)%nat; [constructor|].
  destruct (fold_left (recordDoc toLowerCase) docs ([], [])) as [tf df].
  apply (scored_entries Doc.id); [|constructor].
  intros d Hd. now apply in_map.
Qed.

Lemma get_absent {V : Type} (m : JsMap.t V) (k : jsstring) :
  ~ In k (JsMap.keys m) -> JsMap.get m k = None.
Proof.
  induction m as [|[k' v] r IH]; intros Hk; [reflexivity|].
  cbn [JsMap.get]. destruct (JsString.eqb k' k) eqn:Heq.
  - apply eqb_eq in Heq. subst k'. exfalso. apply Hk. now left.
  - apply IH. intros Hin. apply Hk. now right.
Qed.

Lemma recordToken_terms (id : jsstring) (known : list jsstring)
      (tf : JsMap.t (JsMap.t Z)) (df : JsMap.t Z) (seen : list jsstring)
      (t : jsstring) :
  In t known ->
  incl (JsMap.keys tf) known ->
  incl (JsMap.keys (fst (fst (recordToken id (tf, df, seen) t)))) known.
Proof.
  intros Ht Htf. unfold recordToken.
  destruct (negb (JsSet.has seen t)); cbn [fst];
    intros x Hx; apply set_keys_In in Hx;
    (destruct Hx as [->|Hx]; [exact Ht | now apply Htf]).
Qed.

Lemma recordTokens_terms (id : jsstring) (known : list jsstring)
      (tokens : list jsstring) :
  incl tokens known ->
  forall st,
    incl (JsMap.keys (fst (fst st))) known ->
    incl (JsMap.keys (fst (fst (fold_left (recordToken id) tokens st))))
         known.
Proof.
  induction tokens as [|t rest IH]; intros Hknown st Hst; [exact Hst|].
  cbn [fold_left]. apply IH; [intros x Hx; apply Hknown; now right|].
  destruct st as [[tf df] seen]. cbn [fst] in Hst.
  apply recordToken_terms; [apply Hknown; now left | exact Hst].
Qed.

(** The terms recorded are tokens of the documents. *)
Lemma recordDocs_terms (known : list jsstring) (docs : list Doc.t) :
  (forall d, In d docs -> incl (tokenize toLowerCase (Doc.text d)) known) ->
  forall st,
    incl (JsMap.keys (fst st)) known ->
    incl (JsMap.keys (fst (fold_left (recordDoc toLowerCase) docs st)))
         known.
Proof.
  induction docs as [|d rest IH]; intros Hknown st Hst; [exact Hst|].
  cbn [fold_left]. apply IH; [intros d' Hd'; apply Hknown; now right|].
  destruct st as [tf df]. cbn [fst] in Hst. unfold recordDoc.
  pose proof (recordTokens_terms (Doc.id d) known
                (tokenize toLowerCase (Doc.text d))
                (Hknown d (or_introl eq_refl)) (tf, df, []) Hst) as Hrec.
  destruct (fold_left (recordToken (Doc.id d)) _ (tf, df, []))
    as [[tf' df'] seen']. exact Hrec.
Qed.

Lemma unscored {D : Type} (key : D -> jsstring) (value : D -> num)
      (docs : list D) :
  (forall d, In d docs -> truthy (value d) = false) ->
  fold_left
    (fun (scores : JsMap.t num) d =>
       if truthy (value d) then JsMap.set scores (key d) (value d)
       else scores)
    docs []
  = [].
Proof.
  induction docs as [|d rest IH]; intros Hall; [reflexivity|].
  cbn [fold_left]. rewrite (Hall d) by now left.
  apply IH. intros d' Hd'. apply Hall. now right.
Qed.

Lemma unmatched_terms (N avgdl : num) (tf : JsMap.t (JsMap.t Z))
      (df : JsMap.t Z) (d : Doc.t) (dl : num) (tokens : list jsstring) :
  (forall q, In q tokens -> JsMap.get tf q = None) ->
  forall s,
    fold_left (scoreTerm Math_log N avgdl tf df d dl) tokens s = s.
Proof.
  induction tokens as [|q rest IH]; intros Hnone s; [reflexivity|].
  cbn [fold_left]. unfold scoreTerm at 2. rewrite (Hnone q) by now left.
  apply IH. intros q' Hq'. apply Hnone. now right.
Qed.

(** X11.  A query that shares no token with any document of the pool,
    the query without tokens included, has the empty map of lexical
    scores. *)
Theorem bm25Score_no_overlap (query : jsstring) (docs : list Doc.t) :
  truthy (ofInt 0) = false ->
  (forall t d,
      In t (tokenize toLowerCase query) ->
      In d docs ->
      ~ In t (tokenize toLowerCase (Doc.text d))) ->
  bm25Score toLowerCase Math_log query docs = [].
Proof.
  intros Hzero Hdisjoint. unfold bm25Score.
  destruct (length (tokenize toLowerCase query) =? 0)%nat; [reflexivity|].
  set (known := flat_map (fun d => tokenize toLowerCase (Doc.text d)) docs).
  assert (Hterms :
            incl (JsMap.keys
                    (fst (fold_left (recordDoc toLowerCase) docs ([], []))))
                 known).
  { apply recordDocs_terms; [|intros x []].
    intros d Hd t Ht. apply in_flat_map. now exists d. }
  destruct (fold_left (recordDoc toLowerCase) docs ([], [])) as [tf df].
  cbn [fst] in Hterms.
  assert (Hnone : forall q, In q (tokenize toLowerCase query) ->
                            JsMap.get tf q = None).
  { intros q Hq. apply get_absent. intros Hin. apply Hterms in Hin.
    apply in_flat_map in Hin. destruct Hin as [d [Hd Ht]].
    exact (Hdisjoint q d Hq Hd Ht). }
  apply (unscored Doc.id). intros d _.
  now rewrite unmatched_terms.
Qed.

End HybridBounds.


(** X11 at an instance: the query "tea" against the coffee document. *)
Lemma bm25Score_no_overlap_witness :
  (@truthy Double.arith (ofInt 0) = false
   /\ forall t d,
        In t (Hybrid.tokenize Hybrid.toLowerCaseBasic (js "tea")) ->
        In d [MoreScenarios.coffee] ->
        ~ In t (Hybrid.tokenize Hybrid.toLowerCaseBasic (Doc.text d)))
  /\ @Hybrid.bm25Score Double.arith Hybrid.toLowerCaseBasic (fun x => x)
                       (js "tea") [MoreScenarios.coffee]
     = [].
Proof.
  assert (Hzero : @truthy Double.arith (ofInt 0) = false)
    by (vm_compute; reflexivity).
  assert (Hdisjoint :
            forall t d,
              In t (Hybrid.tokenize Hybrid.toLowerCaseBasic (js "tea")) ->
              In d [MoreScenarios.coffee] ->
              ~ In t (Hybrid.tokenize Hybrid.toLowerCaseBasic (Doc.text d))).
  { intros t d Ht [<-|[]] Hin. vm_compute in Ht, Hin.
    destruct Ht as [<-|[]]. intuition discriminate. }
  split; [split; assumption|].
  exact (@bm25Score_no_overlap
           Double.arith Hybrid.toLowerCaseBasic (fun x => x)
           (js "tea") [MoreScenarios.coffee] Hzero Hdisjoint).
Defined.

(* ================================================================== *)
(** ** The metadata filter at its edges *)

(** X12.  A document without metadata, or with the empty object as
    metadata, passes a filter exactly when the filter sets neither a year
    nor a month: constraints on category, merchant and currency let it
    through. *)
Theorem passes_untagged (f : HybridFilter.t) (id text : jsstring) :
  Hybrid.passes f (Doc.mk id text None)
  = negb (Hybrid.numberSet (HybridFilter.year f))
    && negb (Hybrid.numberSet (HybridFilter.month f))
  /\ Hybrid.passes f (Doc.mk id text (Some Metadata.empty))
     = negb (Hybrid.numberSet (HybridFilter.year f))
       && negb (Hybrid.numberSet (HybridFilter.month f)).
Proof.
  unfold Hybrid.passes.
  cbn [Doc.metadata orDefault Metadata.empty Metadata.year Metadata.month
         Metadata.category_lvl1 Metadata.merchant Metadata.currency
         differsFromNumber valueTruthy].
  rewrite !andb_false_r, !andb_true_r.
  split; destruct (Hybrid.numberSet (HybridFilter.year f)),
           (Hybrid.numberSet (HybridFilter.month f)); reflexivity.
Qed.

(** X13.  A constraint whose value is falsy - the year or the month 0,
    an empty string - is no constraint: a filter of such values and
    absent fields returns every document, in order. *)
Theorem applyFilter_falsy_constraints
        (f : HybridFilter.t) (docs : list Doc.t) :
  Hybrid.numberSet (HybridFilter.year f) = false ->
  Hybrid.numberSet (HybridFilter.month f) = false ->
  Hybrid.stringSet (HybridFilter.category f) = false ->
  Hybrid.stringSet (HybridFilter.merchant f) = false ->
  Hybrid.stringSet (HybridFilter.currency f) = false ->
  Hybrid.applyFilter docs (Some f) = docs.
Proof.
  intros Hy Hm Hc Hme Hcu. cbn [Hybrid.applyFilter].
  induction docs as [|d rest IH]; [reflexivity|].
  cbn [filter]. rewrite IH. unfold Hybrid.passes.
  now rewrite Hy, Hm, Hc, Hme, Hcu.
Qed.

(** X13 at an instance: the filter [{year: 0, category: ''}]. *)
Lemma applyFilter_falsy_constraints_witness :
  (Hybrid.numberSet (HybridFilter.year MoreScenarios.falsy) = false
   /\ Hybrid.numberSet (HybridFilter.month MoreScenarios.falsy) = false
   /\ Hybrid.stringSet (HybridFilter.category MoreScenarios.falsy) = false
   /\ Hybrid.stringSet (HybridFilter.merchant MoreScenarios.falsy) = false
   /\ Hybrid.stringSet (HybridFilter.currency MoreScenarios.falsy) = false)
  /\ Hybrid.applyFilter [Scenario.january; Scenario.untagged]
                        (Some MoreScenarios.falsy)
     = [Scenario.january; Scenario.untagged].
Proof.
  split; [repeat split; reflexivity|].
  apply (applyFilter_falsy_constraints MoreScenarios.falsy);
    reflexivity.
Defined.

(* ================================================================== *)
(** ** The fused scores, in exact arithmetic *)

Section ExactHybrid.
#[local] Existing Instance Exact.arith.
#[local] Open Scope R_scope.
Import Hybrid.
Variable toLowerCase : jsstring -> jsstring.
Variable Math_log : num -> num.
Variable fetch : jsstring -> Completion Response.t.

#[local] Abbreviation byFusedDesc :=
  (fun a b : HybridResultItem.t =>
     (HybridResultItem.score b - HybridResultItem.score a)%J).

#[local] Abbreviation fusedDescending :=
  (fun a b : HybridResultItem.t =>
     HybridResultItem.score b <= HybridResultItem.score a).

Lemma insertFused_descending (x : HybridResultItem.t)
      (l : list HybridResultItem.t) :
  Sorted fusedDescending l ->
  Sorted fusedDescending (JsArray.insert byFusedDesc x l).
Proof.
  induction 1 as [|y r Hr IH Hhd]; [repeat constructor|].
  cbn [JsArray.insert ltb sub ofInt Exact.arith].
  destruct (Exact.Rltb _ _) eqn:Hyx.
  - apply Rltb_true in Hyx. constructor; [exact IH|].
    destruct Hhd as [|z r' Hyz].
    + cbn [JsArray.insert]. constructor. lra.
    + cbn [JsArray.insert ltb sub ofInt Exact.arith].
      destruct (Exact.Rltb _ _); constructor; [exact Hyz | lra].
  - apply Rltb_false in Hyx. constructor; [now constructor|].
    constructor. lra.
Qed.

Lemma sortFused_descending (l : list HybridResultItem.t) :
  Sorted fusedDescending (JsArray.sort byFusedDesc l).
Proof.
  induction l as [|x r IH]; [constructor|].
  now apply insertFused_descending.
Qed.

Lemma firstn_fusedDescending (n : nat) (l : list HybridResultItem.t) :
  Sorted fusedDescending l -> Sorted fusedDescending (firstn n l).
Proof.
  revert l. induction n as [|n IH]; intros l Hl; [constructor|].
  destruct Hl as [|x r Hr Hhd]; [constructor|].
  cbn [firstn]. constructor; [now apply IH|].
  destruct Hhd as [|y r' Hxy]; [destruct n; constructor|].
  destruct n; constructor. exact Hxy.
Qed.

(** X14.  In every state, for every [k] and whatever the embedding
    service does, [search] completes normally and its items are in
    descending order of fused score. *)
Theorem hybrid_search_descending
        (this : Hybrid.t) (query : jsstring)
        (filter_ : option HybridFilter.t) (k : option Z) :
  exists items,
    search toLowerCase Math_log fetch this query filter_ k = Normal items
    /\ Sorted (fun a b => HybridResultItem.score b
                          <= HybridResultItem.score a) items.
Proof.
  unfold search.
  destruct (txDb this); [|exists []; split; [reflexivity | constructor]].
  destruct (sumDb this); [|exists []; split; [reflexivity | constructor]].
  destruct (hybrid_embed_returns fetch query) as [[qEmb|] ->]; cbn [bind];
    [|exists []; split; [reflexivity | constructor]].
  eexists. split; [reflexivity|].
  match goal with
  | |- Sorted _ (JsArray.slice0 ?l ?e) =>
      destruct (slice0_firstn l e) as [n ->]
  end.
  apply firstn_fusedDescending. apply sortFused_descending.
Qed.

Lemma denseMax_positive (items : list SearchResultItem.t) :
  0 < denseMaxOf items.
Proof.
  pose proof epsilon_positive.
  destruct (max_spread_ge (decimal 1 1000000)
                          (map SearchResultItem.score items)) as [Hge _].
  unfold denseMaxOf. lra.
Qed.

Lemma score_le_denseMax (items : list SearchResultItem.t)
      (it : SearchResultItem.t) :
  In it items -> SearchResultItem.score it <= denseMaxOf items.
Proof.
  intros Hin.
  destruct (max_spread_ge (decimal 1 1000000)
                          (map SearchResultItem.score items)) as [_ Hall].
  apply Hall. now apply in_map.
Qed.

Lemma fuseDense_le_one (items : list SearchResultItem.t) (bm : JsMap.t num)
      (source : Source) (it : SearchResultItem.t) :
  In it items ->
  HybridResultItem.score
    (fuseDense (denseMaxOf items) (lexicalMaxOf bm) bm source it) <= 1.
Proof.
  intros Hin. unfold fuseDense. cbn [HybridResultItem.score].
  fold (lexicalOf bm (SearchResultItem.id it)).
  pose proof (ratio_le_one _ _ (denseMax_positive items)
                           (score_le_denseMax items it Hin)) as Hd.
  pose proof (ratio_le_one _ _ (lexicalMax_positive bm)
                           (lexicalOf_le_max bm (SearchResultItem.id it)))
    as Hl.
  unfold decimal. cbn [add mul div ofInt Exact.arith num] in *. lra.
Qed.

Lemma fuseLexical_le (bm : JsMap.t num) (pool : list Doc.t)
      (seen : list jsstring) (source : Source) (entry : jsstring * num) :
  In (snd entry) (JsMap.values bm) ->
  Forall (fun o => HybridResultItem.score o <= 4 / 10)
         (fuseLexical (lexicalMaxOf bm) pool seen source entry).
Proof.
  destruct entry as [id bms]. cbn [snd]. intros Hin. unfold fuseLexical.
  destruct (JsSet.has seen id); [constructor|].
  destruct (findDoc pool id); [|constructor].
  constructor; [|constructor]. cbn [HybridResultItem.score].
  assert (Hle : bms <= lexicalMaxOf bm).
  { now apply (proj2 (max_spread_ge (decimal 1 1000000)
                                    (JsMap.values bm))). }
  pose proof (ratio_le_one _ _ (lexicalMax_positive bm) Hle) as Hr.
  unfold decimal. cbn [add mul div ofInt Exact.arith num] in *. lra.
Qed.

Lemma fuse_lexical_part (k : Z) (txPool sumPool : list Doc.t)
      (items : list SearchResultItem.t) (bm : JsMap.t num)
      (source : Source) :
  Forall (fun o => HybridResultItem.score o <= 4 / 10)
         (skipn (length items) (fuse k txPool sumPool items bm source)).
Proof.
  unfold fuse. rewrite skipn_app, length_map, Nat.sub_diag, skipn_0.
  rewrite skipn_all2 by (rewrite length_map; lia). cbn [app].
  fold (lexicalMaxOf bm).
  apply Forall_flat_map. apply Forall_forall. intros entry Hin.
  apply fuseLexical_le.
  apply slice0_incl in Hin. apply sort_In in Hin.
  unfold JsMap.values. now apply in_map.
Qed.

(** X15.  No fused score exceeds 1, and the items that [fuse] adds for the
    lexical matches outside the dense list, which follow the dense items,
    score at most 0.4. *)
Theorem fuse_scores_bounded
        (k : Z) (txPool sumPool : list Doc.t)
        (items : list SearchResultItem.t) (bm : JsMap.t num)
        (source : Source) :
  Forall (fun o => HybridResultItem.score o <= 1)
         (fuse k txPool sumPool items bm source)
  /\ Forall (fun o => HybridResultItem.score o <= 4 / 10)
            (skipn (length items) (fuse k txPool sumPool items bm source)).
Proof.
  split; [|apply fuse_lexical_part].
  pose proof (fuse_lexical_part k txPool sumPool items bm source) as Hlex.
  rewrite <- (firstn_skipn (length items)
                           (fuse k txPool sumPool items bm source)).
  apply Forall_app. split.
  - unfold fuse. rewrite firstn_app, length_map, Nat.sub_diag, firstn_O.
    rewrite firstn_all2 by (rewrite length_map; lia). rewrite app_nil_r.
    fold (denseMaxOf items). fold (lexicalMaxOf bm).
    apply Forall_map. apply Forall_forall. intros it Hin.
    now apply fuseDense_le_one.
  - eapply Forall_impl; [|exact Hlex]. cbn beta. intros o Ho. lra.
Qed.

(** X16.  Without lexical scores, the fused list is the dense list with
    every score rescaled to [0.6 * (score / denseMax)]: nothing is added
    and the order is kept. *)
Theorem fuse_without_lexical
        (k : Z) (txPool sumPool : list Doc.t)
        (items : list SearchResultItem.t) (source : Source) :
  fuse k txPool sumPool items [] source
  = map (fun it =>
           {| HybridResultItem.id := SearchResultItem.id it;
              HybridResultItem.text := SearchResultItem.text it;
              HybridResultItem.score :=
                6 / 10 * (SearchResultItem.score it / denseMaxOf items);
              HybridResultItem.source := source |})
        items.
Proof.
  unfold fuse. cbn [JsArray.sort fold_right].
  destruct (slice0_firstn (@nil (jsstring * num)) k) as [n ->].
  rewrite firstn_nil. cbn [flat_map]. rewrite app_nil_r.
  fold (denseMaxOf items). apply map_ext. intros it.
  unfold fuseDense. cbn [JsMap.get]. f_equal.
  unfold decimal. cbn [add mul div ofInt Exact.arith num]. field.
  pose proof (denseMax_positive items) as Hpos.
  cbn [Math_max_spread JsMap.values map]. unfold Math_max. 
  split; [|lra]. unfold decimal. cbn [div ofInt Exact.arith]. lra.
Qed.

End ExactHybrid.

(* ================================================================== *)
(** ** The context budget of [retrieve] *)

Section ContextBudget.
Context `{Arith}.
Variable fetch : jsstring -> Completion Response.t.
Variable toFixed3 : num -> jsstring.

Lemma totalLength_cons (b : jsstring) (lines : list jsstring) :
  totalLength (b :: lines) = (Z.of_nat (length b) + totalLength lines)%Z.
Proof. reflexivity. Qed.

(** The loop stops only at a block that does not fit. *)
Lemma assemble_maximal (maxContextChars : Z)
      (results : list SearchResultItem.t) :
  forall i used,
    length (Retriever.assemble toFixed3 maxContextChars i used results)
    < length results ->
    (maxContextChars
     < used
       + totalLength
           (firstn
              (S (length (Retriever.assemble toFixed3 maxContextChars i used
                                             results)))
              (blocksFrom toFixed3 i results)))%Z.
Proof.
  induction results as [|r rest IH]; intros i used; [cbn; lia|].
  rewrite assemble_cons. cbn [blocksFrom].
  destruct (_ >? _)%Z eqn:Hcmp.
  - intros _. cbn [length firstn]. rewrite totalLength_cons.
    apply Z.gtb_lt in Hcmp. cbn [totalLength fold_right]. lia.
  - cbn [length]. intros Hlen. apply PeanoNat.lt_S_n in Hlen.
    specialize (IH (S i) _ Hlen).
    rewrite firstn_cons, totalLength_cons. lia.
Qed.

Lemma blocksFrom_length (results : list SearchResultItem.t) :
  forall i, length (blocksFrom toFixed3 i results) = length results.
Proof.
  induction results as [|r rest IH]; intros i; [reflexivity|].
  cbn [blocksFrom length]. now rewrite IH.
Qed.

(** X17.  The context that [retrieve] returns under a non-negative
    [maxContextChars] is made of whole blocks: it is the join of the first
    [n] blocks of the chunks returned; these blocks together fit the cap,
    while the context may exceed it by the two characters of each of the
    [n - 1] separators; and the loop is greedy: if a chunk is left out,
    its block would not have fitted. *)
Theorem retrieve_context_budget
        (this : Retriever.t) (query : jsstring)
        (options : RetrieveOptions.t) (ctx : jsstring) :
  (0 <= orDefault (RetrieveOptions.maxContextChars options) 2000)%Z ->
  contextOf (Retriever.retrieve fetch toFixed3 this query options)
  = Some ctx ->
  exists n,
    let cap := orDefault (RetrieveOptions.maxContextChars options) 2000%Z in
    let blocks :=
      blocksFrom toFixed3 0
        (chunksOf (Retriever.retrieve fetch toFixed3 this query options)) in
    n <= length blocks
    /\ ctx = join [10%N; 10%N] (firstn n blocks)
    /\ (totalLength (firstn n blocks) <= cap)%Z
    /\ (Z.of_nat (length ctx) <= cap + 2 * Z.of_nat (n - 1))%Z
    /\ (n < length blocks -> (cap < totalLength (firstn (S n) blocks))%Z).
Proof.
  intros Hcap. unfold Retriever.retrieve.
  destruct (Retriever.db this) as [db|]; [|discriminate].
  destruct (Retriever.embed fetch query) as [[qEmb|]|]; cbn [bind];
    try discriminate.
  cbv zeta.
  cbn [contextOf chunksOf RetrieveResult.context RetrieveResult.chunks].
  set (cap := orDefault (RetrieveOptions.maxContextChars options) 2000%Z)
    in *.
  generalize (VectorDB.search
                db qEmb
                {| SearchOptions.topK :=
                     Some (orDefault (RetrieveOptions.topK options) 5%Z);
                   SearchOptions.minScore :=
                     Some (orDefault (RetrieveOptions.minScore options)
                                     (decimal 25 100));
                   SearchOptions.mmrLambda :=
                     Some (orDefault (RetrieveOptions.mmrLambda options)
                                     (decimal 5 10)) |}).
  intros results [= <-].
  pose proof (assemble_whole_blocks toFixed3 cap results 0 0%Z) as Hlines.
  pose proof (assemble_budget toFixed3 cap results 0 0%Z Hcap) as Hfit.
  pose proof (assemble_maximal cap results 0 0%Z) as Hmax.
  cbv zeta in Hlines.
  set (lines := Retriever.assemble toFixed3 cap 0 0 results) in *.
  pose proof (blocksFrom_length results 0) as Hblocks.
  assert (Hshort : length lines <= length results).
  { rewrite Hlines, length_firstn, Hblocks. lia. }
  exists (length lines). rewrite Hblocks, <- Hlines.
  repeat split.
  - exact Hshort.
  - lia.
  - rewrite join_length. cbn [length]. lia.
  - intros Hless. specialize (Hmax Hless). lia.
Qed.

Lemma join_extends (sep : jsstring) (lines more : list jsstring) :
  exists tail, join sep (lines ++ more) = join sep lines ++ tail.
Proof.
  induction lines as [|l rest IH].
  - exists (join sep more). reflexivity.
  - destruct rest as [|l' rest'].
    + destruct more as [|m more'].
      * exists []. cbn. now rewrite app_nil_r.
      * exists (sep ++ join sep (m :: more')). reflexivity.
    + destruct IH as [tail Htail]. exists tail.
      change (join sep ((l :: l' :: rest') ++ more))
        with (l ++ sep ++ join sep ((l' :: rest') ++ more)).
      rewrite Htail.
      change (join sep (l :: l' :: rest'))
        with (l ++ sep ++ join sep (l' :: rest')).
      now rewrite <- !app_assoc.
Qed.

Lemma assemble_extends (cap cap' : Z) (results : list SearchResultItem.t) :
  (cap <= cap')%Z ->
  forall i used,
    exists more,
      Retriever.assemble toFixed3 cap' i used results
      = Retriever.assemble toFixed3 cap i used results ++ more.
Proof.
  intros Hcap. induction results as [|r rest IH]; intros i used.
  - exists []. reflexivity.
  - rewrite !assemble_cons.
    destruct (_ >? cap)%Z eqn:Hcmp; [eexists; reflexivity|].
    rewrite Z.gtb_ltb, Z.ltb_ge in Hcmp.
    replace (_ >? cap')%Z with false
      by (symmetry; rewrite Z.gtb_ltb, Z.ltb_ge; lia).
    destruct (IH (S i)
                 (used + Z.of_nat (length (Retriever.block toFixed3 i r)))%Z)
      as [more ->].
    exists more. reflexivity.
Qed.

(** X18.  Raising [maxContextChars], all else equal, changes neither
    whether [retrieve] answers nor the chunks it returns, and only
    extends the context: the context under the smaller cap is a prefix
    of the context under the larger one. *)
Theorem retrieve_grows_with_cap
        (this : Retriever.t) (query : jsstring)
        (topK : option Z) (minScore mmrLambda : option num)
        (cap cap' : Z) :
  (cap <= cap')%Z ->
  let lower :=
    Retriever.retrieve fetch toFixed3 this query
      (RetrieveOptions.mk topK minScore mmrLambda (Some cap)) in
  let higher :=
    Retriever.retrieve fetch toFixed3 this query
      (RetrieveOptions.mk topK minScore mmrLambda (Some cap')) in
  chunksOf lower = chunksOf higher
  /\ match contextOf lower, contextOf higher with
     | Some ctx, Some ctx' => exists tail, ctx' = ctx ++ tail
     | None, None => lower = higher
     | _, _ => False
     end.
Proof.
  intros Hcap. cbv zeta. unfold Retriever.retrieve.
  destruct (Retriever.db this) as [db|]; [|now split].
  destruct (Retriever.embed fetch query) as [[qEmb|]|]; cbn [bind];
    try now split.
  cbn [RetrieveOptions.topK RetrieveOptions.minScore
         RetrieveOptions.mmrLambda RetrieveOptions.maxContextChars
         orDefault contextOf chunksOf RetrieveResult.context
         RetrieveResult.chunks].
  split; [reflexivity|].
  match goal with
  | |- context [Retriever.assemble toFixed3 cap' 0 0 ?results] =>
      destruct (assemble_extends cap cap' results Hcap 0 0%Z) as [more ->]
  end.
  apply join_extends.
Qed.

End ContextBudget.

(** X17 at an instance: the two twin chunks under the cap of 52. *)
Lemma retrieve_context_budget_witness :
  ((0 <= orDefault (RetrieveOptions.maxContextChars Scenario.cap52) 2000)%Z
   /\ contextOf
        (Retriever.retrieve
           (Scenario.answers [1; 0]%Z) Double.toFixed3
           (Retriever.mk (Some (VectorDB.new Scenario.twins)))
           (js "q") Scenario.cap52)
      = Some (js "Источник 1 — score 1.000" ++ [10%N] ++ js "a"
              ++ [10%N; 10%N]
              ++ js "Источник 2 — score 1.000" ++ [10%N] ++ js "b"))
  /\ exists n,
       let cap :=
         orDefault (RetrieveOptions.maxContextChars Scenario.cap52)
                   2000%Z in
       let blocks :=
         @blocksFrom Double.arith Double.toFixed3 0
           (chunksOf
              (Retriever.retrieve
                 (Scenario.answers [1; 0]%Z) Double.toFixed3
                 (Retriever.mk (Some (VectorDB.new Scenario.twins)))
                 (js "q") Scenario.cap52)) in
       n <= length blocks
       /\ js "Источник 1 — score 1.000" ++ [10%N] ++ js "a"
          ++ [10%N; 10%N]
          ++ js "Источник 2 — score 1.000" ++ [10%N] ++ js "b"
          = join [10%N; 10%N] (firstn n blocks)
       /\ (totalLength (firstn n blocks) <= cap)%Z
       /\ (Z.of_nat
             (length (js "Источник 1 — score 1.000" ++ [10%N] ++ js "a"
                      ++ [10%N; 10%N]
                      ++ js "Источник 2 — score 1.000" ++ [10%N]
                      ++ js "b"))
           <= cap + 2 * Z.of_nat (n - 1))%Z
       /\ (n < length blocks
           -> (cap < totalLength (firstn (S n) blocks))%Z).
Proof.
  assert (Hcap : (0 <= orDefault (RetrieveOptions.maxContextChars
                                    Scenario.cap52) 2000)%Z)
    by (cbn; lia).
  assert (Hctx :
            contextOf
              (Retriever.retrieve
                 (Scenario.answers [1; 0]%Z) Double.toFixed3
                 (Retriever.mk (Some (VectorDB.new Scenario.twins)))
                 (js "q") Scenario.cap52)
            = Some (js "Источник 1 — score 1.000" ++ [10%N] ++ js "a"
                    ++ [10%N; 10%N]
                    ++ js "Источник 2 — score 1.000" ++ [10%N] ++ js "b"))
    by (vm_compute; reflexivity).
  split; [split; assumption|].
  exact (@retrieve_context_budget
           Double.arith (Scenario.answers [1; 0]%Z) Double.toFixed3
           (Retriever.mk (Some (VectorDB.new Scenario.twins)))
           (js "q") Scenario.cap52 _ Hcap Hctx).
Defined.

(** X18 at an instance: the twin chunks under the caps 26 and 52. *)
Lemma retrieve_grows_with_cap_witness :
  (26 <= 52)%Z
  /\ let lower :=
       @Retriever.retrieve
         Double.arith (Scenario.answers [1; 0]%Z) Double.toFixed3
         (Retriever.mk (Some (VectorDB.new Scenario.twins))) (js "q")
         (@RetrieveOptions.mk Double.arith None None None (Some 26%Z)) in
     let higher :=
       @Retriever.retrieve
         Double.arith (Scenario.answers [1; 0]%Z) Double.toFixed3
         (Retriever.mk (Some (VectorDB.new Scenario.twins))) (js "q")
         (@RetrieveOptions.mk Double.arith None None None (Some 52%Z)) in
     chunksOf lower = chunksOf higher
     /\ match contextOf lower, contextOf higher with
        | Some ctx, Some ctx' => exists tail, ctx' = ctx ++ tail
        | None, None => lower = higher
        | _, _ => False
        end.
Proof.
  assert (Hcap : (26 <= 52)%Z) by lia.
  split; [exact Hcap|].
  exact (@retrieve_grows_with_cap
           Double.arith (Scenario.answers [1; 0]%Z) Double.toFixed3
           (Retriever.mk (Some (VectorDB.new Scenario.twins))) (js "q")
           None None None 26%Z 52%Z Hcap).
Defined.

(* ================================================================== *)
(** ** What [clean] sends to the embedding service *)

Section CleanFacts.

#[local] Abbreviation trimEnd s := (rev (trimStart (rev s))).
#[local] Abbreviation spaced ws :=
  (concat (map (fun w : jsstring => 32%N :: w) ws)).
#[local] Abbreviation headed ps :=
  (match ps with
   | [] => []
   | p :: rs => p ++ spaced (filter Hybrid.nonEmpty rs)
   end).

Lemma trimEnd_space (s : jsstring) (c : N) :
  isSpace c = true -> trimEnd (s ++ [c]) = trimEnd s.
Proof. intros Hc. rewrite rev_unit. cbn [trimStart]. now rewrite Hc. Qed.

Lemma trimEnd_other (s : jsstring) (c : N) :
  isSpace c = false -> trimEnd (s ++ [c]) = s ++ [c].
Proof.
  intros Hc. rewrite rev_unit. cbn [trimStart]. rewrite Hc.
  cbn [rev]. now rewrite rev_involutive.
Qed.

Lemma join_spaced (w : jsstring) (ws : list jsstring) :
  join [32%N] (w :: ws) = w ++ spaced ws.
Proof.
  revert w. induction ws as [|w' ws IH]; intros w.
  - cbn. now rewrite app_nil_r.
  - change (join [32%N] (w :: w' :: ws))
      with (w ++ [32%N] ++ join [32%N] (w' :: ws)).
    rewrite IH. reflexivity.
Qed.

Lemma headed_consHead (c : N) (ps : list jsstring) :
  headed (consHead c ps) = c :: headed ps.
Proof. destruct ps; reflexivity. Qed.

(** The collapsed text after a prefix that ends a word, trimmed at its
    end, inside a word and inside a run of white space. *)
Lemma trimEnd_collapse (t : jsstring) :
  forall s,
    trimEnd s = s ->
    trimEnd (s ++ collapseSpaces false t) = s ++ headed (splitSpaces false t)
    /\ trimEnd (s ++ 32%N :: collapseSpaces true t)
       = s ++ spaced (filter Hybrid.nonEmpty (splitSpaces true t)).
Proof.
  induction t as [|c r IH]; intros s Hs.
  - cbn [collapseSpaces splitSpaces filter Hybrid.nonEmpty map concat app].
    rewrite !app_nil_r. split; [exact Hs|].
    now rewrite (trimEnd_space s 32%N space_32).
  - cbn [collapseSpaces splitSpaces]. destruct (isSpace c) eqn:Hc.
    + destruct (IH s Hs) as [_ Hrun]. split; [|exact Hrun].
      rewrite Hrun. reflexivity.
    + rewrite headed_consHead. split.
      * replace (s ++ c :: collapseSpaces false r)
          with ((s ++ [c]) ++ collapseSpaces false r)
          by now rewrite <- app_assoc.
        rewrite (proj1 (IH (s ++ [c]) (trimEnd_other s c Hc))).
        now rewrite <- app_assoc.
      * replace (s ++ 32%N :: c :: collapseSpaces false r)
          with (((s ++ [32%N]) ++ [c]) ++ collapseSpaces false r)
          by now rewrite <- !app_assoc.
        rewrite (proj1 (IH ((s ++ [32%N]) ++ [c])
                           (trimEnd_other (s ++ [32%N]) c Hc))).
        rewrite <- !app_assoc. cbn [app]. f_equal. f_equal.
        destruct (splitSpaces false r) as [|p rs]; reflexivity.
Qed.

Lemma trimStart_run (t : jsstring) :
  trimStart (collapseSpaces true t) = collapseSpaces true t.
Proof.
  induction t as [|c r IH]; [reflexivity|].
  cbn [collapseSpaces]. destruct (isSpace c) eqn:Hc; [exact IH|].
  cbn [trimStart]. now rewrite Hc.
Qed.

Lemma trimStart_collapse (t : jsstring) :
  trimStart (collapseSpaces false t) = collapseSpaces true t.
Proof.
  destruct t as [|c r]; [reflexivity|].
  cbn [collapseSpaces]. destruct (isSpace c) eqn:Hc.
  - cbn [trimStart]. rewrite space_32. apply trimStart_run.
  - cbn [trimStart]. now rewrite Hc.
Qed.

Lemma words_run (t : jsstring) :
  filter Hybrid.nonEmpty (splitSpaces true t) = wordsOf t.
Proof.
  unfold wordsOf. destruct t as [|c r]; [reflexivity|].
  cbn [splitSpaces]. destruct (isSpace c); reflexivity.
Qed.

Lemma trimEnd_run (t : jsstring) :
  trimEnd (collapseSpaces true t)
  = join [32%N] (filter Hybrid.nonEmpty (splitSpaces true t)).
Proof.
  induction t as [|c r IH]; [reflexivity|].
  cbn [collapseSpaces splitSpaces]. destruct (isSpace c) eqn:Hc;
    [exact IH|].
  change (c :: collapseSpaces false r)
    with ([c] ++ collapseSpaces false r).
  rewrite (proj1 (trimEnd_collapse r [c] (trimEnd_other [] c Hc))).
  destruct (splitSpaces false r) as [|p rs].
  - reflexivity.
  - cbn [consHead filter Hybrid.nonEmpty]. now rewrite join_spaced.
Qed.

(** X19.  The text that the retriever sends to the embedding service,
    [clean(text)], is the words of [text] joined by single spaces, where
    the words are the maximal runs of characters that are not white
    space: none is empty, none holds white space, and together they are
    the characters of [text] that are not white space, in order. *)
Theorem clean_joins_words (text : jsstring) :
  Retriever.clean text = join [32%N] (wordsOf text)
  /\ Forall (fun w => w <> [] /\ Forall (fun c => isSpace c = false) w)
            (wordsOf text)
  /\ concat (wordsOf text) = filter (fun c => negb (isSpace c)) text.
Proof.
  split; [|split].
  - unfold Retriever.clean, trim.
    rewrite trimStart_collapse, trimEnd_run. now rewrite words_run.
  - apply Forall_forall. intros w Hw. unfold wordsOf in Hw.
    apply filter_In in Hw. destruct Hw as [Hw Hne]. split.
    + destruct w; [discriminate | congruence].
    + assert (Hall : Forall (fun c => isSpace c = true
                                      \/ isSpace c = false) text).
      { apply Forall_forall. intros c _. destruct (isSpace c); auto. }
      pose proof (splitSpaces_pieces _ _ Hall false) as Hpieces.
      rewrite Forall_forall in Hpieces. exact (Hpieces w Hw).
  - unfold wordsOf. rewrite concat_nonEmpty. apply splitSpaces_concat.
Qed.

End CleanFacts.

(* ================================================================== *)
(** ** Loading from IndexedDB *)

Section LoadingFacts.
Context `{Arith}.

(** X20.  [loadFromIDB] never throws.  It answers [true] exactly when the
    database opens, the metadata record is there and the chunk store is
    read and not empty, and the retriever then holds the index rebuilt
    from the stored chunks; in every other case, a failing request
    included, it answers [false] and leaves the retriever as it was. *)
Theorem loadFromIDB_outcome (store : IdbStore.t) (this : Retriever.t) :
  exists (loaded : bool) (after : Retriever.t),
    Loading.loadFromIDB store this = Normal (loaded, after)
    /\ (loaded = false -> after = this)
    /\ (loaded = true
        <-> exists meta chunks,
              IdbStore.openRagDB store = Normal tt
              /\ IdbStore.getMeta store = Normal (Some meta)
              /\ IdbStore.getAllChunks store = Normal chunks
              /\ chunks <> []
              /\ after
                 = Retriever.mk
                     (Some (VectorDB.new
                              {| VectorIndex.model := IDBMeta.model meta;
                                 VectorIndex.dims := IDBMeta.dims meta;
                                 VectorIndex.createdAt :=
                                   IDBMeta.createdAt meta;
                                 VectorIndex.chunks :=
                                   map Loading.stored chunks |}))).
Proof.
  unfold Loading.loadFromIDB, tryCatch, bind.
  destruct (IdbStore.openRagDB store) as [[]|] eqn:Hopen.
  2:{ exists false, this. repeat split; try discriminate.
      intros (meta & chunks & Hfalse & _). discriminate. }
  destruct (IdbStore.getMeta store) as [meta|] eqn:Hmeta.
  2:{ exists false, this. repeat split; try discriminate.
      intros (meta & chunks & _ & Hfalse & _). discriminate. }
  destruct (IdbStore.getAllChunks store) as [chunks|] eqn:Hchunks.
  2:{ destruct meta; exists false, this; repeat split; try discriminate;
        intros (meta & chunks & _ & _ & Hfalse & _); discriminate. }
  destruct meta as [meta|].
  2:{ exists false, this. repeat split; try discriminate.
      intros (meta & chunks' & _ & Hfalse & _). discriminate. }
  destruct chunks as [|ch rest]; cbn [length Nat.eqb].
  - exists false, this. repeat split; try discriminate.
    intros (meta' & chunks' & _ & _ & [= <-] & Hne & _). now destruct Hne.
  - eexists true, _. split; [reflexivity|]. split; [discriminate|].
    split; [|reflexivity]. intros _. exists meta, (ch :: rest).
    repeat split. discriminate.
Qed.

Lemma loadFromIDB_loaded (store : IdbStore.t) (this after : Retriever.t) :
  Loading.loadFromIDB store this = Normal (true, after) ->
  exists meta chunks,
    after
    = Retriever.mk
        (Some (VectorDB.new
                 {| VectorIndex.model := IDBMeta.model meta;
                    VectorIndex.dims := IDBMeta.dims meta;
                    VectorIndex.createdAt := IDBMeta.createdAt meta;
                    VectorIndex.chunks := map Loading.stored chunks |})).
Proof.
  unfold Loading.loadFromIDB, tryCatch, bind.
  destruct (IdbStore.openRagDB store) as [[]|]; [|discriminate].
  destruct (IdbStore.getMeta store) as [meta|]; [|discriminate].
  destruct (IdbStore.getAllChunks store) as [chunks|];
    [|destruct meta; discriminate].
  destruct meta as [meta|]; [|discriminate].
  destruct (length chunks =? 0)%nat; [discriminate|].
  intros [= <-]. now exists meta, chunks.
Qed.

Lemma nth_absent {B : Type} (l : list VectorChunk.t) (i : nat) :
  nth i (map (fun _ : VectorChunk.t => @None B) l) None = None.
Proof.
  revert i. induction l as [|x r IH]; intros [|i]; try reflexivity.
  apply IH.
Qed.

(** X21.  A retriever loaded from IndexedDB has lost the page, the offset
    and the token count of every chunk, whatever the store holds: no
    chunk that [retrieve] returns carries one, and the header of its
    block never shows a page. *)
Theorem loadFromIDB_drops_pages
        (store : IdbStore.t) (this after : Retriever.t)
        (fetch : jsstring -> Completion Response.t)
        (toFixed3 : num -> jsstring)
        (query : jsstring) (options : RetrieveOptions.t) :
  Loading.loadFromIDB store this = Normal (true, after) ->
  Forall
    (fun it =>
       SearchResultItem.page it = None
       /\ SearchResultItem.offset it = None
       /\ SearchResultItem.tokens it = None
       /\ forall i,
            Retriever.header toFixed3 i it
            = js "Источник " ++ ofN (N.of_nat (i + 1))
              ++ js " — score " ++ toFixed3 (SearchResultItem.score it))
    (chunksOf (Retriever.retrieve fetch toFixed3 after query options)).
Proof.
  intros Hload.
  destruct (loadFromIDB_loaded store this after Hload)
    as (meta & chunks & ->).
  unfold Retriever.retrieve. cbn [Retriever.db].
  destruct (Retriever.embed fetch query) as [[qEmb|]|]; cbn [bind chunksOf];
    try constructor.
  cbv zeta. cbn [RetrieveResult.chunks].
  unfold VectorDB.search. apply Forall_forall. intros it Hit.
  apply in_map_iff in Hit. destruct Hit as [i [<- _]].
  match goal with
  | |- context [VectorDB.new ?index] =>
      destruct (new_arrays (VectorIndex.chunks index)
                  {| VectorDB.dims := VectorIndex.dims index;
                     VectorDB.texts := []; VectorDB.ids := [];
                     VectorDB.pages := []; VectorDB.offsets := [];
                     VectorDB.tokens := []; VectorDB.embs := [] |})
        as (_ & Hp & Ho & Hk);
      cbv zeta in Hp, Ho, Hk;
      fold (VectorDB.new index) in Hp, Ho, Hk
  end.
  cbn [VectorIndex.chunks VectorDB.pages VectorDB.offsets VectorDB.tokens
         app] in Hp, Ho, Hk.
  rewrite map_map in Hp, Ho, Hk. cbn [Loading.stored VectorChunk.page
                                        VectorChunk.offset
                                        VectorChunk.tokens] in Hp, Ho, Hk.
  assert (Hpage : SearchResultItem.page
                    (VectorDB.resultItem
                       (VectorDB.new
                          {| VectorIndex.model := IDBMeta.model meta;
                             VectorIndex.dims := IDBMeta.dims meta;
                             VectorIndex.createdAt := IDBMeta.createdAt meta;
                             VectorIndex.chunks :=
                               map Loading.stored chunks |})
                       (VectorDB.similarities
                          (VectorDB.new
                             {| VectorIndex.model := IDBMeta.model meta;
                                VectorIndex.dims := IDBMeta.dims meta;
                                VectorIndex.createdAt :=
                                  IDBMeta.createdAt meta;
                                VectorIndex.chunks :=
                                  map Loading.stored chunks |})
                          (VectorDB.normalize (VectorDB.Float32Array qEmb)))
                       i)
                  = None).
  { cbn [VectorDB.resultItem SearchResultItem.page]. rewrite Hp.
    apply nth_absent. }
  repeat split.
  - exact Hpage.
  - cbn [VectorDB.resultItem SearchResultItem.offset]. rewrite Ho.
    apply nth_absent.
  - cbn [VectorDB.resultItem SearchResultItem.tokens]. rewrite Hk.
    apply nth_absent.
  - intros j. unfold Retriever.header. rewrite Hpage. reflexivity.
Qed.

End LoadingFacts.

(** X21 at an instance: a store of one chunk that has the page 7. *)
Lemma loadFromIDB_drops_pages_witness :
  @Loading.loadFromIDB Double.arith MoreScenarios.idb (Retriever.mk None)
  = Normal
      (true,
       Retriever.mk
         (Some (VectorDB.new
                  {| VectorIndex.model := js "mxbai-embed-large:latest";
                     VectorIndex.dims := 2;
                     VectorIndex.createdAt := js "2025-10-18";
                     VectorIndex.chunks :=
                       [Loading.stored MoreScenarios.pagedChunk] |})))
  /\ Forall
       (fun it : @SearchResultItem.t Double.arith =>
          SearchResultItem.page it = None
          /\ SearchResultItem.offset it = None
          /\ SearchResultItem.tokens it = None
          /\ forall i,
               @Retriever.header Double.arith Double.toFixed3 i it
               = js "Источник " ++ ofN (N.of_nat (i + 1))
                 ++ js " — score "
                 ++ Double.toFixed3 (SearchResultItem.score it))
       (chunksOf
          (@Retriever.retrieve
             Double.arith (Scenario.answers [1; 0]%Z) Double.toFixed3
             (Retriever.mk
                (Some (VectorDB.new
                         {| VectorIndex.model :=
                              js "mxbai-embed-large:latest";
                            VectorIndex.dims := 2;
                            VectorIndex.createdAt := js "2025-10-18";
                            VectorIndex.chunks :=
                              [Loading.stored MoreScenarios.pagedChunk] |})))
             (js "q") Scenario.cap52)).
Proof.
  assert (Hload :
            @Loading.loadFromIDB Double.arith MoreScenarios.idb
                                 (Retriever.mk None)
            = Normal
                (true,
                 Retriever.mk
                   (Some (VectorDB.new
                            {| VectorIndex.model :=
                                 js "mxbai-embed-large:latest";
                               VectorIndex.dims := 2;
                               VectorIndex.createdAt := js "2025-10-18";
                               VectorIndex.chunks :=
                                 [Loading.stored
                                    MoreScenarios.pagedChunk] |}))))
    by reflexivity.
  split; [exact Hload|].
  exact (@loadFromIDB_drops_pages
           Double.arith MoreScenarios.idb (Retriever.mk None) _
           (Scenario.answers [1; 0]%Z) Double.toFixed3 (js "q")
           Scenario.cap52 Hload).
Defined.

(* ================================================================== *)
(** ** The fallback retrieval of the chat page *)

Section ChatCosine.
#[local] Existing Instance Exact.arith.
#[local] Open Scope R_scope.

Lemma chat_loop (l : list (num * num)) :
  forall dot na nb : num,
    fold_left ChatPage.cosineStep l (dot, na, nb)
    = (dot + fold_right (fun xy s => fst xy * snd xy + s) 0 l,
       na + sumOfSquares (map fst l),
       nb + sumOfSquares (map snd l)).
Proof.
  induction l as [|[x y] r IH]; intros dot na nb.
  - cbn [fold_left fold_right map sumOfSquares]. now rewrite !Rplus_0_r.
  - cbn [fold_left ChatPage.cosineStep]. rewrite IH.
    cbn [fold_right map sumOfSquares fst snd add mul Exact.arith num].
    unfold sumOfSquares. f_equal; [f_equal|]; ring.
Qed.

Lemma combine_halves {A : Type} (a : list A) :
  forall b : list A,
    combine (map fst (combine a b)) (map snd (combine a b)) = combine a b.
Proof.
  induction a as [|x a IH]; intros [|y b]; try reflexivity.
  cbn [combine map fst snd]. now rewrite IH.
Qed.

Lemma combine_same_length {A : Type} (a : list A) :
  forall b : list A,
    length a = length b ->
    map fst (combine a b) = a /\ map snd (combine a b) = b.
Proof.
  induction a as [|x a IH]; intros [|y b] Hlen; try discriminate.
  - now split.
  - injection Hlen as Hlen. destruct (IH b Hlen) as [Ha Hb].
    cbn [combine map fst snd]. now rewrite Ha, Hb.
Qed.

Lemma products_scaled (c d : R) (a : list R) :
  forall b,
    sumOfProducts (map (fun x => x / c) a) (map (fun x => x / d) b)
    = sumOfProducts a b * (/ c * / d).
Proof.
  unfold sumOfProducts.
  induction a as [|x a IH]; intros [|y b];
    cbn [map combine fold_right fst snd]; try lra.
  rewrite IH. unfold Rdiv. ring.
Qed.

Lemma zero_squares (a : list R) :
  sumOfSquares a = 0 -> forall b, sumOfProducts a b = 0.
Proof.
  unfold sumOfProducts.
  induction a as [|x a IH]; intros Hzero [|y b]; try reflexivity.
  cbn [sumOfSquares fold_right] in Hzero. fold (sumOfSquares a) in Hzero.
  pose proof (sumOfSquares_nonneg a) as Hnn.
  assert (Hx : x = 0) by nra.
  assert (Ha : sumOfSquares a = 0) by nra.
  cbn [combine fold_right fst snd]. rewrite (IH Ha b), Hx. ring.
Qed.

(** The cosine of the chat page is the similarity of the vector store on
    the normalized common prefixes of the two vectors. *)
Lemma chat_cosine_prefix (a b : list num) :
  ChatPage.cosine a b
  = VectorDB.cosine (VectorDB.normalize (map fst (combine a b)))
                    (VectorDB.normalize (map snd (combine a b))).
Proof.
  rewrite cosine_products, !normalize_scaled, products_scaled.
  unfold ChatPage.cosine. rewrite chat_loop.
  cbn [ofInt add mul div sqrt truthy Exact.arith num].
  rewrite !Rplus_0_l.
  fold (sumOfProducts a b).
  set (a' := @map (R * R) R fst (@combine R R a b)).
  set (b' := @map (R * R) R snd (@combine R R a b)).
  assert (Hsame : sumOfProducts a' b' = sumOfProducts a b).
  { unfold sumOfProducts, a', b'. now rewrite combine_halves. }
  rewrite Hsame.
  pose proof (sumOfSquares_nonneg a') as Hna.
  pose proof (sumOfSquares_nonneg b') as Hnb.
  destruct (Exact.Rtruthy (sumOfSquares a')) eqn:Ha; cbn [negb orb].
  - destruct (Exact.Rtruthy (sumOfSquares b')) eqn:Hb; cbn [negb].
    + apply Rtruthy_true in Ha. apply Rtruthy_true in Hb.
      assert (Hsa : R_sqrt.sqrt (sumOfSquares a') <> 0).
      { intros Hz. apply sqrt_eq_0 in Hz; lra. }
      assert (Hsb : R_sqrt.sqrt (sumOfSquares b') <> 0).
      { intros Hz. apply sqrt_eq_0 in Hz; lra. }
      rewrite (proj2 (Rtruthy_true _) Hsa), (proj2 (Rtruthy_true _) Hsb).
      now field.
    + apply Rtruthy_false in Hb.
      rewrite <- Hsame, products_symmetric, (zero_squares b' Hb a'). ring.
  - apply Rtruthy_false in Ha.
    rewrite <- Hsame, (zero_squares a' Ha b'). ring.
Qed.

(** X22.  On exact arithmetic the cosine of the chat page lies in
    [-1, 1], and on two vectors of one length it is the score the vector
    store computes: the dot product of the two normalized vectors. *)
Theorem chat_cosine_agrees (a b : list num) :
  -1 <= ChatPage.cosine a b <= 1
  /\ (length a = length b ->
      ChatPage.cosine a b
      = VectorDB.cosine (VectorDB.normalize a) (VectorDB.normalize b)).
Proof.
  split.
  - rewrite chat_cosine_prefix.
    apply cosine_unit; apply normalize_unit.
  - intros Hlen. rewrite chat_cosine_prefix.
    destruct (combine_same_length a b Hlen) as [-> ->]. reflexivity.
Qed.

End ChatCosine.

Section FallbackFilter.

Lemma metadataPasses_absent (cons : ChatPage.Constraints.t) :
  ChatPage.metadataPasses cons None = true.
Proof.
  unfold ChatPage.metadataPasses.
  cbn [orDefault Metadata.empty Metadata.year Metadata.month
         Metadata.category_lvl1 Metadata.merchant ChatPage.isNumber
         valueTruthy].
  now rewrite !andb_false_r.
Qed.

Context {Chunk : Type}.
Variable metadataOf : Chunk -> option Metadata.t.

(** X23.  The pool that the fallback scores is never empty for a corpus
    that is not, keeps the chunks of the corpus in their order, and holds
    every chunk without metadata, whatever the constraints of the query. *)
Theorem fallbackPool_lenient
        (cons : ChatPage.Constraints.t) (chunks : list Chunk) :
  (ChatPage.fallbackPool metadataOf cons chunks = [] <-> chunks = [])
  /\ (exists keep,
        ChatPage.fallbackPool metadataOf cons chunks = filter keep chunks)
  /\ (forall ch,
        In ch chunks -> metadataOf ch = None ->
        In ch (ChatPage.fallbackPool metadataOf cons chunks)).
Proof.
  unfold ChatPage.fallbackPool. cbv zeta.
  set (passing := fun ch => ChatPage.metadataPasses cons (metadataOf ch)).
  destruct (filter passing chunks) as [|c cs] eqn:Hpassing;
    cbn [length Nat.eqb negb].
  - split; [tauto|]. split.
    + exists (fun _ => true). clear Hpassing.
      induction chunks as [|x r IH]; [reflexivity|].
      cbn [filter]. now rewrite <- IH.
    + intros ch Hin _. exact Hin.
  - split; [|split].
    + split; [discriminate|]. intros ->. discriminate.
    + exists passing. now symmetry.
    + intros ch Hin Hnone. rewrite <- Hpassing. apply filter_In.
      split; [exact Hin|]. unfold passing. rewrite Hnone.
      apply metadataPasses_absent.
Qed.

Lemma starts_with_itself (s : jsstring) : ChatPage.startsWith s s = true.
Proof.
  induction s as [|c r IH]; [reflexivity|].
  cbn [ChatPage.startsWith]. now rewrite N.eqb_refl, IH.
Qed.

Lemma includes_itself (s : jsstring) : ChatPage.includes s s = true.
Proof. destruct s; cbn [ChatPage.includes]; now rewrite starts_with_itself. Qed.

Lemma number_guard_lenient (n : option Z) (v : option JsValue) :
  Hybrid.numberSet n && differsFromNumber v (orDefault n 0%Z) = false ->
  Hybrid.numberSet n && ChatPage.isNumber v
  && differsFromNumber v (orDefault n 0%Z) = false.
Proof.
  destruct (Hybrid.numberSet n); cbn [andb]; [|reflexivity].
  intros ->. apply andb_false_r.
Qed.

Lemma string_guard_lenient (c : option jsstring) (v : option JsValue)
      (pass : bool) :
  Hybrid.stringSet c && valueTruthy v
  && differsFromString v (orDefault c []) = false ->
  (if Hybrid.stringSet c && valueTruthy v
      && ChatPage.includes (ChatPage.toString v) (orDefault c [])
   then pass
   else if Hybrid.stringSet c && valueTruthy v then false else pass)
  = pass.
Proof.
  destruct (Hybrid.stringSet c && valueTruthy v); cbn [andb];
    [|reflexivity].
  destruct v as [[z|s]|]; cbn [differsFromString]; try discriminate.
  intros Hsame. apply negb_false_iff, eqb_eq in Hsame. subst s.
  cbn [ChatPage.toString]. now rewrite includes_itself.
Qed.

(** X24.  The fallback filter of the chat page is at least as lenient as
    the filter of the hybrid retriever: metadata that pass a filter on
    year, month, category and merchant there pass the same constraints
    here. *)
Theorem fallback_keeps_what_hybrid_keeps
        (f : HybridFilter.t) (d : Doc.t) :
  Hybrid.passes f d = true ->
  ChatPage.metadataPasses (constraintsOf f) (Doc.metadata d) = true.
Proof.
  unfold Hybrid.passes, ChatPage.metadataPasses. cbv zeta.
  cbn [constraintsOf ChatPage.Constraints.year ChatPage.Constraints.month
         ChatPage.Constraints.category ChatPage.Constraints.merchant].
  set (m := orDefault (Doc.metadata d) Metadata.empty).
  destruct (Hybrid.numberSet (HybridFilter.year f)
            && differsFromNumber (Metadata.year m) _) eqn:Hyear;
    [discriminate|].
  destruct (Hybrid.numberSet (HybridFilter.month f)
            && differsFromNumber (Metadata.month m) _) eqn:Hmonth;
    [discriminate|].
  destruct (Hybrid.stringSet (HybridFilter.category f)
            && valueTruthy (Metadata.category_lvl1 m)
            && differsFromString (Metadata.category_lvl1 m) _)
           eqn:Hcategory; [discriminate|].
  destruct (Hybrid.stringSet (HybridFilter.merchant f)
            && valueTruthy (Metadata.merchant m)
            && differsFromString (Metadata.merchant m) _)
           eqn:Hmerchant; [discriminate|].
  intros _.
  rewrite (number_guard_lenient _ _ Hyear).
  rewrite (number_guard_lenient _ _ Hmonth).
  rewrite (string_guard_lenient _ _ true Hcategory).
  apply (string_guard_lenient _ _ true Hmerchant).
Qed.

End FallbackFilter.

(** X24 at an instance: the document of January 2024 under the filter
    [{year: 2024}]. *)
Lemma fallback_keeps_what_hybrid_keeps_witness :
  Hybrid.passes MoreScenarios.filter2024 Scenario.january = true
  /\ ChatPage.metadataPasses (constraintsOf MoreScenarios.filter2024)
                             (Doc.metadata Scenario.january)
     = true.
Proof.
  assert (Hpasses : Hybrid.passes MoreScenarios.filter2024 Scenario.january
                    = true) by reflexivity.
  split; [exact Hpasses|].
  exact (fallback_keeps_what_hybrid_keeps
           MoreScenarios.filter2024 Scenario.january Hpasses).
Defined.

(* ================================================================== *)
(** ** The selection without relevance *)

Section ExactLambdaZero.
#[local] Existing Instance Exact.arith.
#[local] Open Scope R_scope.
Import VectorDB.
Variable this : t.
Variable scores : list num.

Lemma mmrOf_zero_first (i : nat) : mmrOf this scores 0 [] i = 0.
Proof.
  unfold mmrOf, diversity. cbn [fold_left num mul sub ofInt Exact.arith].
  ring.
Qed.

Lemma scan_zero_keeps (b : nat) (l : list nat) :
  fold_left (scanStep this scores 0 []) l (Some b, Some 0)
  = (Some b, Some 0).
Proof.
  induction l as [|i r IH]; [reflexivity|].
  cbn [fold_left]. unfold scanStep at 2. cbn [JsSet.hasNat existsb snd].
  rewrite mmrOf_zero_first. cbn [improves ltb Exact.arith].
  now rewrite (proj2 (Rltb_false 0 0)) by lra.
Qed.

Lemma pickBest_zero_first (i : nat) (r : list nat) :
  pickBest this scores 0 (i :: r) [] = Some i.
Proof.
  unfold pickBest. cbn [fold_left]. unfold scanStep at 2.
  cbn [JsSet.hasNat existsb snd]. rewrite mmrOf_zero_first.
  cbn [improves aboveNegInfinity Exact.arith].
  now rewrite scan_zero_keeps.
Qed.

Lemma searchIndices_zero_one (minScore : num) :
  searchIndices this scores 1 minScore 0
  = firstn 1 (candidates scores minScore 1).
Proof.
  unfold searchIndices. cbv zeta.
  destruct (candidates scores minScore 1) as [|i r]; [reflexivity|].
  change (Z.to_nat 1) with 1%nat. cbn [selectMMR length Nat.eqb].
  rewrite pickBest_zero_first. reflexivity.
Qed.

End ExactLambdaZero.

Section ExactLambdaZeroSearch.
#[local] Existing Instance Exact.arith.
#[local] Open Scope R_scope.
Import VectorDB.

(** X25.  With [mmrLambda = 0] the first pick ignores the relevance: a
    search for one item, when some chunk reaches [minScore], returns the
    first chunk of the index that reaches it, whatever the scores of the
    chunks after it. *)
Theorem search_lambda_zero_first_chunk
        (this : t) (q : list num) (options : SearchOptions.t) :
  orDefault (SearchOptions.mmrLambda options) (decimal 5 10) = 0 ->
  orDefault (SearchOptions.topK options) 5%Z = 1%Z ->
  existsb (fun s => (s >=? orDefault (SearchOptions.minScore options)
                                     (decimal 25 100))%J)
          (scoresOf this q) = true ->
  search this q options
  = map (resultItem this (scoresOf this q))
        (firstn 1
           (filter
              (fun i => (at_ (scoresOf this q) i
                         >=? orDefault (SearchOptions.minScore options)
                                       (decimal 25 100))%J)
              (seq 0 (length (scoresOf this q))))).
Proof.
  intros Hlambda HtopK Hsome. unfold search. cbv zeta.
  fold (scoresOf this q). rewrite Hlambda, HtopK.
  change (ofInt 0) with 0. rewrite searchIndices_zero_one.
  unfold candidates. cbv zeta.
  pose proof (above_nonempty _ _ Hsome) as Habove.
  destruct (filter _ (seq 0 (length (scoresOf this q)))) as [|i r];
    [now destruct Habove|].
  reflexivity.
Qed.

End ExactLambdaZeroSearch.

(** X25 at an instance: a chunk of similarity 0 before a chunk of
    similarity 1, [topK = 1], [mmrLambda = 0] and [minScore = 0]; the
    search returns the first chunk. *)
Lemma search_lambda_zero_first_chunk_witness :
  let this := @VectorDB.new Exact.arith ExactScenario.pair in
  let q := ExactScenario.vec [1; 0]%Z in
  let options :=
    @SearchOptions.mk Exact.arith (Some 1%Z) (Some 0%R) (Some 0%R) in
  (orDefault (SearchOptions.mmrLambda options) (@decimal Exact.arith 5 10)
   = 0%R
   /\ orDefault (SearchOptions.topK options) 5%Z = 1%Z
   /\ existsb (fun s => (s >=? orDefault (SearchOptions.minScore options)
                                         (@decimal Exact.arith 25 100))%J)
              (scoresOf this q) = true)
  /\ VectorDB.search this q options
     = map (VectorDB.resultItem this (scoresOf this q))
           (firstn 1
              (filter
                 (fun i => (VectorDB.at_ (scoresOf this q) i
                            >=? orDefault (SearchOptions.minScore options)
                                          (@decimal Exact.arith 25 100))%J)
                 (seq 0 (length (scoresOf this q)))))
  /\ scoresOf this q = [0%R; 1%R]
  /\ map SearchResultItem.id (VectorDB.search this q options) = [js "a"].
Proof.
  cbv zeta.
  assert (Hsome :
            existsb
              (fun s =>
                 (s >=? orDefault
                          (SearchOptions.minScore
                             (@SearchOptions.mk Exact.arith (Some 1%Z)
                                                (Some 0%R) (Some 0%R)))
                          (@decimal Exact.arith 25 100))%J)
              (scoresOf (@VectorDB.new Exact.arith ExactScenario.pair)
                        (ExactScenario.vec [1; 0]%Z))
            = true).
  { rewrite scores_pair.
    cbn [existsb orDefault SearchOptions.minScore leb Exact.arith].
    now rewrite (proj2 (Rleb_true 0 0)) by lra. }
  pose proof (search_lambda_zero_first_chunk
                (@VectorDB.new Exact.arith ExactScenario.pair)
                (ExactScenario.vec [1; 0]%Z)
                (@SearchOptions.mk Exact.arith (Some 1%Z) (Some 0%R)
                                   (Some 0%R))
                eq_refl eq_refl Hsome) as Hfirst.
  split; [split; [reflexivity | split; [reflexivity | exact Hsome]]|].
  split; [exact Hfirst|]. split; [exact scores_pair|].
  rewrite Hfirst, scores_pair.
  cbn [length seq filter orDefault SearchOptions.minScore VectorDB.at_ nth
         leb Exact.arith].
  rewrite (proj2 (Rleb_true 0 0)) by lra.
  cbn [firstn map VectorDB.resultItem SearchResultItem.id].
  now rewrite new_ids.
Defined.

(* ================================================================== *)
(** ** When a search returns nothing *)

Section SearchEmptiness.
Context `{Arith}.
Import VectorDB.



End SearchEmptiness.

